(** * Schemathesis runner core: a shallow embedding of
      [src/schemathesis/runner/impl/core.py]

    The definitions follow the layout of the Python module:
    - [Numbers]   : Python's floats;
    - [Models]    : the data the runner records ([Check], [TestResult], ...)
                    and the exceptions it classifies;
    - [Checks]    : [run_checks] and [run_targets];
    - [Transport] : [prepare_timeout] and the three inner test bodies
                    ([_network_test], [_wsgi_test], [_asgi_test]) with
                    [add_cases] and [network_test];
    - [Runner]    : generators ([Gen]), [run_test], [_run_tests] and
                    [execute];
    - [Wrappers]  : [get_hypothesis_settings], [get_wsgi_auth],
                    [_prepare_wsgi_headers], [wsgi_test] and [asgi_test];
    - [Samples], [MoreSamples] : concrete endpoints, checks, tests and runs.
    The properties come after them, component by component: floats, check
    aggregation, transport bodies, generators, single test and scheduler,
    run controller; then the further properties of each component, marked
    X1, X2, ...

    Conventions.  Python [int] is [Z]; Python [float] is an IEEE 754
    binary64 number ([Numbers.float]) with the rounding operations of the
    Standard Library's [SpecFloat]; [Optional[T]] is [option T]; an object
    mutated in place is threaded explicitly; a generator is a value of the
    resumption type [Gen], consumed lazily.  Wall-clock readings
    ([time.monotonic]) are not part of the model, so events carry no time
    stamps. *)

From Stdlib Require Import ZArith QArith Qabs Qpower Lqa List String Ascii DecimalString
  Bool Lia SpecFloat.
Import ListNotations.

Set Implicit Arguments.

(* ===================================================================== *)
(** ** Numbers *)
(* ===================================================================== *)

Module Numbers.

(** Python's [float]: an IEEE 754 binary64 number.  Its operations are
    those of the Standard Library's specification of floating-point
    arithmetic, which round to nearest, ties to even. *)
Definition float : Type := spec_float.

Definition prec : Z := 53.
Definition emax : Z := 1024.

(** [math.isfinite] *)
Definition is_finite (x : float) : bool :=
  match x with
  | S754_zero _ | S754_finite _ _ _ => true
  | S754_infinity _ | S754_nan => false
  end.

(** The number a finite float stands for. *)
Definition number (x : float) : Q :=
  match x with
  | S754_finite s m e => inject_Z (if s then Zneg m else Zpos m) * 2 ^ e
  | _ => 0
  end.

(** An [int] as the operand of a true division: the whole number itself,
    which is rounded only with the quotient. *)
Definition exact (z : Z) : float :=
  match z with
  | Z0 => S754_zero false
  | Zpos p => S754_finite false p 0
  | Zneg p => S754_finite true p 0
  end.

(** [float(z)]: the [int] operand of a float operation is converted first. *)
Definition of_int (z : Z) : float := binary_normalize prec emax z 0 false.

(** [x * y] on floats. *)
Definition mul (x y : float) : float := SFmul prec emax x y.

(** [x > z] for a float and an [int]: Python compares the two numbers
    themselves, without rounding the [int]; [nan] compares false. *)
Definition gt_int (x : float) (z : Z) : bool :=
  match x with
  | S754_nan => false
  | S754_infinity s => negb s
  | S754_zero _ => (z <? 0)%Z
  | S754_finite s m e =>
      let n := if s then Zneg m else Zpos m in
      if (0 <=? e)%Z then (z <? n * 2 ^ e)%Z else (z * 2 ^ (- e) <? n)%Z
  end.

End Numbers.

Export Numbers.

(* ===================================================================== *)
(** ** Data model *)
(* ===================================================================== *)

Module Models.

Local Open Scope string_scope.

(** [models.Status] *)
Inductive Status : Type := success | failure | error.

Definition Status_eqb (a b : Status) : bool :=
  match a, b with
  | success, success | failure, failure | error, error => true
  | _, _ => false
  end.

(** One schema-declared operation; the runner only reads its display name. *)
Record Endpoint : Type := { verbose_name : string }.

Inductive DataGenerationMethod : Type := positive.

(** One generated input.  [case_data] stands for the generated request
    parts; the runner never inspects them. *)
Record Case : Type := { case_endpoint : Endpoint; case_data : string }.

(** A transport response; [elapsed] is [response.elapsed.total_seconds()]. *)
Record Response : Type := { status_code : Z; elapsed : float; body : string }.

(** The exceptions the handlers of [run_test] tell apart: the classes it
    names, with [OtherException] for every other class under [Exception]
    ([ValueError], [OverflowError], the engine's [InvalidArgument], a
    transport error, ...).  [CheckFailed] is the class the grouped exception
    derives from; [AssertionError] carries its message and the formatted
    traceback that [reraise] inspects.  An exception outside [Exception]
    other than [KeyboardInterrupt] ([SystemExit], [GeneratorExit]) is caught
    by no handler of the module and leaves [run_test] and the generators
    above it; such runs are not part of the model. *)
Inductive Exn : Type :=
| CheckFailed (title : string) (messages : list string)
| MultipleFailures
| Flaky (msg : string)
| Unsatisfiable (msg : string)
| KeyboardInterrupt
| AssertionError (msg : string) (traceback : string)
| InvalidSchema (msg : string)
| OtherException (msg : string).

(** Modelled from the spec: [exceptions.get_grouped_exception] is not part
    of the module; the spec describes its result as "a single grouped
    failure referencing the endpoint's display name and every collected
    individual failure". *)
Definition get_grouped_exception (prefix : string) (errors : list string) : Exn :=
  CheckFailed prefix errors.

(** [models.Check]: [{name, value, example, message}]. *)
Record Check : Type := {
  name : string;
  value : Status;
  example : Case;
  message : option string
}.

(** A persisted interaction: the response, the status and the check list
    handed to [store_requests_response] / [store_wsgi_response]. *)
Record Interaction : Type := {
  interaction_response : Response;
  interaction_status : Status;
  interaction_checks : list Check
}.

(** [models.TestResult] *)
Record TestResult : Type := {
  result_endpoint : Endpoint;
  overridden_headers : option (list (string * string));
  data_generation_method : DataGenerationMethod;
  checks : list Check;
  errors : list (Exn * option Case);
  interactions : list Interaction;
  logs : list string;
  is_errored : bool;
  seed : option Z
}.

Definition new_TestResult (endpoint : Endpoint)
    (headers : option (list (string * string)))
    (method : DataGenerationMethod) : TestResult :=
  {| result_endpoint := endpoint; overridden_headers := headers;
     data_generation_method := method; checks := []; errors := [];
     interactions := []; logs := []; is_errored := false; seed := None |}.

Definition with_checks (r : TestResult) (cs : list Check) : TestResult :=
  {| result_endpoint := result_endpoint r; overridden_headers := overridden_headers r;
     data_generation_method := data_generation_method r; checks := cs;
     errors := errors r; interactions := interactions r; logs := logs r;
     is_errored := is_errored r; seed := seed r |}.

Definition with_errors (r : TestResult) (es : list (Exn * option Case)) : TestResult :=
  {| result_endpoint := result_endpoint r; overridden_headers := overridden_headers r;
     data_generation_method := data_generation_method r; checks := checks r;
     errors := es; interactions := interactions r; logs := logs r;
     is_errored := is_errored r; seed := seed r |}.

Definition with_interactions (r : TestResult) (items : list Interaction) : TestResult :=
  {| result_endpoint := result_endpoint r; overridden_headers := overridden_headers r;
     data_generation_method := data_generation_method r; checks := checks r;
     errors := errors r; interactions := items; logs := logs r;
     is_errored := is_errored r; seed := seed r |}.

Definition with_logs (r : TestResult) (ls : list string) : TestResult :=
  {| result_endpoint := result_endpoint r; overridden_headers := overridden_headers r;
     data_generation_method := data_generation_method r; checks := checks r;
     errors := errors r; interactions := interactions r; logs := ls;
     is_errored := is_errored r; seed := seed r |}.

Definition with_overridden_headers (r : TestResult)
    (headers : option (list (string * string))) : TestResult :=
  {| result_endpoint := result_endpoint r; overridden_headers := headers;
     data_generation_method := data_generation_method r; checks := checks r;
     errors := errors r; interactions := interactions r; logs := logs r;
     is_errored := is_errored r; seed := seed r |}.

Definition with_seed (r : TestResult) (s : option Z) : TestResult :=
  {| result_endpoint := result_endpoint r; overridden_headers := overridden_headers r;
     data_generation_method := data_generation_method r; checks := checks r;
     errors := errors r; interactions := interactions r; logs := logs r;
     is_errored := is_errored r; seed := s |}.

(** Modelled from the spec: [TestResult.add_success] lives in [models.py],
    which is not part of the module.  The spec has it "record success" on
    a Check list that "only ever grows". *)
Definition add_success (r : TestResult) (check_name : string) (case : Case) : TestResult :=
  with_checks r (checks r ++ [{| name := check_name; value := success;
                                 example := case; message := None |}]).

(** Modelled from the spec: [TestResult.add_failure] ([models.py]),
    "record a failure Check" carrying the captured message. *)
Definition add_failure (r : TestResult) (check_name : string) (case : Case)
    (msg : string) : TestResult :=
  with_checks r (checks r ++ [{| name := check_name; value := failure;
                                 example := case; message := Some msg |}]).

(** Modelled from the spec: [TestResult.add_error] ([models.py]), "record
    the error", with the optional example it is attached to. *)
Definition add_error (r : TestResult) (exc : Exn) (case : option Case) : TestResult :=
  with_errors r (errors r ++ [(exc, case)]).

(** Modelled from the spec: [TestResult.mark_errored] ([models.py]) flags
    the result as errored. *)
Definition mark_errored (r : TestResult) : TestResult :=
  {| result_endpoint := result_endpoint r; overridden_headers := overridden_headers r;
     data_generation_method := data_generation_method r; checks := checks r;
     errors := errors r; interactions := interactions r; logs := logs r;
     is_errored := true; seed := seed r |}.

(** Modelled from the spec: [TestResult.store_requests_response]
    ([models.py]); the persistence collaborator, "given a
    response/case/status/check-list, stores a structured interaction
    record". *)
Definition store_requests_response (r : TestResult) (response : Response)
    (status : Status) (check_results : list Check) : TestResult :=
  with_interactions r (interactions r ++
    [{| interaction_response := response; interaction_status := status;
        interaction_checks := check_results |}]).

(** Modelled from the spec: [TestResult.store_wsgi_response] ([models.py]),
    the in-process counterpart of [store_requests_response]. *)
Definition store_wsgi_response (r : TestResult) (case : Case) (response : Response)
    (headers : list (string * string)) (elapsed_s : float)
    (status : Status) (check_results : list Check) : TestResult :=
  with_interactions r (interactions r ++
    [{| interaction_response := response; interaction_status := status;
        interaction_checks := check_results |}]).

(** [models.TestResultSet]: the ordered results of a run. *)
Definition TestResultSet : Type := list TestResult.

(** Per-endpoint accumulator of observed [(case, response)] pairs. *)
Record Feedback : Type := {
  feedback_stateful : option string;
  feedback_endpoint : Endpoint;
  stateful_tests : list (Case * Response)
}.

Definition new_Feedback (stateful : option string) (endpoint : Endpoint) : Feedback :=
  {| feedback_stateful := stateful; feedback_endpoint := endpoint; stateful_tests := [] |}.

(** Modelled from the spec: [Feedback.add_test_case] lives in
    [stateful.py]; the spec has it "feed (case, response) into the Stateful
    Feedback accumulator". *)
Definition add_test_case (fb : Feedback) (case : Case) (response : Response) : Feedback :=
  {| feedback_stateful := feedback_stateful fb; feedback_endpoint := feedback_endpoint fb;
     stateful_tests := stateful_tests fb ++ [(case, response)] |}.

(** Python truthiness of an [Optional[int]]: [None] and [0] are falsy. *)
Definition truthy (o : option Z) : bool :=
  match o with
  | Some z => negb (z =? 0)%Z
  | None => false
  end.

(** [str] of an [int], as used by f-strings. *)
Definition str (z : Z) : string := NilZero.string_of_int (Z.to_int z).

End Models.

Export Models.

(* ===================================================================== *)
(** ** Check aggregation and target feedback *)
(* ===================================================================== *)

Module Checks.

Local Open Scope string_scope.
Local Open Scope list_scope.

(** What calling a check predicate can do: return a value (truthy means
    "skip": nothing is recorded), raise an [AssertionError] with
    [str(exc) = msg], or raise anything else, which [run_checks] does not
    catch. *)
Inductive CheckReturn : Type :=
| Returned (skip_check : bool)
| RaisedAssertion (msg : string)
| RaisedOther (exc : Exn).

(** [models.CheckFunction]: a named callable on [(response, case)]. *)
Record CheckFunction : Type := {
  __name__ : string;
  call : Response -> Case -> CheckReturn
}.

(** The mutable objects [run_checks] works on: its local [errors] list, the
    [result] and [check_results] arguments it appends to, and the log of
    predicate invocations (name and arguments, in call order). *)
Record ChecksState : Type := {
  cs_errors : list string;
  cs_result : TestResult;
  cs_check_results : list Check;
  cs_invoked : list (string * Response * Case)
}.

(** How a call ended: it returned, or it raised [exc]. *)
Inductive Outcome : Type :=
| Normal
| Raised (exc : Exn).

(** The [for check in checks] loop of [run_checks]. *)
Fixpoint run_checks_loop (case : Case) (response : Response)
    (checks : list CheckFunction) (st : ChecksState) : ChecksState * Outcome :=
  match checks with
  | [] => (st, Normal)
  | check :: rest =>
      let check_name := __name__ check in
      let invoked := cs_invoked st ++ [(check_name, response, case)] in
      match call check response case with
      | Returned skip_check =>
          if negb skip_check then
            run_checks_loop case response rest
              {| cs_errors := cs_errors st;
                 cs_result := add_success (cs_result st) check_name case;
                 cs_check_results := cs_check_results st ++
                   [{| name := check_name; value := success;
                       example := case; message := None |}];
                 cs_invoked := invoked |}
          else
            run_checks_loop case response rest
              {| cs_errors := cs_errors st; cs_result := cs_result st;
                 cs_check_results := cs_check_results st;
                 cs_invoked := invoked |}
      | RaisedAssertion msg =>
          let message :=
            if (msg =? EmptyString)%string
            then ("Check '" ++ check_name ++ "' failed")%string else msg in
          run_checks_loop case response rest
            {| cs_errors := cs_errors st ++ [message];
               cs_result := add_failure (cs_result st) check_name case message;
               cs_check_results := cs_check_results st ++
                 [{| name := check_name; value := failure;
                     example := case; message := Some message |}];
               cs_invoked := invoked |}
      | RaisedOther exc =>
          ({| cs_errors := cs_errors st; cs_result := cs_result st;
              cs_check_results := cs_check_results st;
              cs_invoked := invoked |}, Raised exc)
      end
  end.

(** The [if max_response_time:] block of [run_checks]. *)
Definition response_time_check (case : Case) (elapsed_time : float)
    (max_response_time : option Z) (st : ChecksState) : ChecksState :=
  match max_response_time with
  | Some limit =>
      if truthy max_response_time then
        if gt_int elapsed_time limit then
          let message :=
            ("Response time exceeded the limit of " ++ str limit ++ " ms")%string in
          {| cs_errors := cs_errors st ++ [message];
             cs_result := add_failure (cs_result st) "max_response_time" case message;
             cs_check_results := cs_check_results st;
             cs_invoked := cs_invoked st |}
        else
          {| cs_errors := cs_errors st;
             cs_result := add_success (cs_result st) "max_response_time" case;
             cs_check_results := cs_check_results st;
             cs_invoked := cs_invoked st |}
      else st
  | None => st
  end.

(** [run_checks(case, checks, check_results, result, response,
    elapsed_time, max_response_time)].  The final state holds the updated
    [result] and [check_results]; the outcome says whether the call
    returned or raised. *)
Definition run_checks (case : Case) (checks : list CheckFunction)
    (check_results : list Check) (result : TestResult) (response : Response)
    (elapsed_time : float) (max_response_time : option Z) : ChecksState * Outcome :=
  let st0 := {| cs_errors := []; cs_result := result;
                cs_check_results := check_results; cs_invoked := [] |} in
  match run_checks_loop case response checks st0 with
  | (st1, Raised exc) => (st1, Raised exc)
  | (st1, Normal) =>
      let st2 := response_time_check case elapsed_time max_response_time st1 in
      match cs_errors st2 with
      | [] => (st2, Normal)
      | _ :: _ =>
          (st2, Raised (get_grouped_exception
                          (verbose_name (case_endpoint case)) (cs_errors st2)))
      end
  end.

(** [targets.TargetContext] *)
Record TargetContext : Type := {
  context_case : Case;
  context_response : Response;
  response_time : float
}.

(** A target: a named callable on the context, which returns its score or
    raises. *)
Record Target : Type := {
  target_name : string;
  score : TargetContext -> Exn + float
}.

(** The observations reported to the generation engine in the current test
    case, by label, in the order they were made. *)
Definition Observations : Type := list (string * float).

Definition observed (label : string) (observations : Observations) : bool :=
  existsb (fun entry => (fst entry =? label)%string) observations.

(** The generation engine's [hypothesis.target(value, label=...)].  The
    library is outside the module; it keeps one observation per label for
    the test case being run, and refuses with [InvalidArgument] a value that
    is not finite and a label that already has an observation. *)
Definition hypothesis_target (value : float) (label : string)
    (observations : Observations) : Exn + Observations :=
  if negb (is_finite value) then
    inl (OtherException "InvalidArgument: the observation must be a finite float")
  else if observed label observations then
    inl (OtherException "InvalidArgument: the label already has an observation")
  else inr (observations ++ [(label, value)]).

(** [run_targets]: every target is called on the context and its value is
    reported to the generation engine under the target's name; an exception
    raised by a target or by the engine ends the loop. *)
Fixpoint run_targets (targets : list Target) (context : TargetContext)
    (observations : Observations) : Observations * Outcome :=
  match targets with
  | [] => (observations, Normal)
  | target :: rest =>
      match score target context with
      | inl exc => (observations, Raised exc)
      | inr value =>
          match hypothesis_target value (target_name target) observations with
          | inl exc => (observations, Raised exc)
          | inr observations => run_targets rest context observations
          end
      end
  end.

End Checks.

Export Checks.

(* ===================================================================== *)
(** ** Transport test bodies *)
(* ===================================================================== *)

Module Transport.

Local Open Scope string_scope.
Local Open Scope list_scope.

Definition Headers : Type := list (string * string).

(** The exception of a true division whose quotient is beyond the floats. *)
Definition OverflowError : Exn :=
  OtherException "OverflowError: integer division result too large for a float".

(** [a / b] on [int]s: Python's true division gives the float nearest to
    the quotient of the two whole numbers, and raises when the divisor is
    zero or the quotient is too large for a float. *)
Definition true_divide (a b : Z) : Exn + float :=
  if (b =? 0)%Z then inl (OtherException "ZeroDivisionError: division by zero")
  else
    match SFdiv prec emax (exact a) (exact b) with
    | S754_infinity _ => inl OverflowError
    | quotient => inr quotient
    end.

(** [prepare_timeout]: "Request timeout is in milliseconds, but [requests]
    uses seconds." *)
Definition prepare_timeout (timeout : option Z) : Exn + option float :=
  match timeout with
  | Some t =>
      match true_divide t 1000 with
      | inl exc => inl exc
      | inr output => inr (Some output)
      end
  | None => inr None
  end.

(** [str.lower] on ASCII letters. *)
Definition lower_ascii (c : ascii) : ascii :=
  let n := nat_of_ascii c in
  if (65 <=? n)%nat && (n <=? 90)%nat then ascii_of_nat (n + 32) else c.

Fixpoint lower (s : string) : string :=
  match s with
  | EmptyString => EmptyString
  | String c rest => String (lower_ascii c) (lower rest)
  end.

(** ["user-agent" not in {header.lower() for header in headers}] *)
Definition has_user_agent (headers : Headers) : bool :=
  existsb (fun kv => (lower (fst kv) =? "user-agent")%string) headers.

(** What one call hands to the transport. *)
Record Request : Type := {
  request_case : Case;
  request_session : option (string * string);
  request_headers : option Headers;
  request_timeout : option float;
  request_verify : bool
}.

(** The objects a test body mutates: the [result] and [feedback] it is
    given, and the outside world it talks to (the requests sent, and the
    observations the generation engine holds for the test case being run).
    The [headers] dict the body is given is the object [run_test] has put
    into [result.overridden_headers], and is kept there. *)
Record TestEnv : Type := {
  env_result : TestResult;
  env_feedback : Feedback;
  env_requests : list Request;
  env_guidance : Observations
}.

Definition set_result (env : TestEnv) (r : TestResult) : TestEnv :=
  {| env_result := r; env_feedback := env_feedback env;
     env_requests := env_requests env; env_guidance := env_guidance env |}.

Definition set_feedback (env : TestEnv) (fb : Feedback) : TestEnv :=
  {| env_result := env_result env; env_feedback := fb;
     env_requests := env_requests env; env_guidance := env_guidance env |}.

Definition sent (env : TestEnv) (rq : Request) : TestEnv :=
  {| env_result := env_result env; env_feedback := env_feedback env;
     env_requests := env_requests env ++ [rq]; env_guidance := env_guidance env |}.

Definition set_guidance (env : TestEnv) (observations : Observations) : TestEnv :=
  {| env_result := env_result env; env_feedback := env_feedback env;
     env_requests := env_requests env; env_guidance := observations |}.

(** [context = TargetContext(...)] and [run_targets(targets, context)] in
    an environment. *)
Definition targeted (targets : list Target) (context : TargetContext)
    (env : TestEnv) : TestEnv * Outcome :=
  let '(observations, outcome) := run_targets targets context (env_guidance env) in
  (set_guidance env observations, outcome).

(** The [try / except CheckFailed / finally] block shared by the three
    inner bodies, followed by [feedback.add_test_case] and [return
    response].  [store] is the persistence call of the [finally] clause. *)
Definition checked (case : Case) (checks : list CheckFunction)
    (response : Response) (response_time : float) (max_response_time : option Z)
    (store_interactions : bool)
    (store : TestResult -> Status -> list Check -> TestResult)
    (env : TestEnv) : TestEnv * (Exn + Response) :=
  let status := success in
  let check_results : list Check := [] in
  match run_checks case checks check_results (env_result env) response
          (mul response_time (of_int 1000)) max_response_time with
  | (st, Raised exc) =>
      let status := match exc with CheckFailed _ _ => failure | _ => status end in
      let result :=
        if store_interactions
        then store (cs_result st) status (cs_check_results st)
        else cs_result st in
      (set_result env result, inl exc)
  | (st, Normal) =>
      let result :=
        if store_interactions
        then store (cs_result st) status (cs_check_results st)
        else cs_result st in
      let env := set_result env result in
      (set_feedback env (add_test_case (env_feedback env) case response),
       inr response)
  end.

Section Bodies.

(** The transports.  [call] is [Case.call] over a [requests] session,
    [call_wsgi] and [call_asgi] the in-process calls; each returns a
    response or raises.  [call_wsgi] also gives the elapsed time measured
    around it and the log records captured meanwhile. *)
Variable call : Request -> Exn + Response.
Variable call_wsgi : Case -> Headers -> Exn + (Response * float * list string).
Variable call_asgi : Case -> option Headers -> Exn + Response.

(** [constants.USER_AGENT] *)
Variable USER_AGENT : string.

(** The hooks registered under the name ["add_case"]; each receives a copy
    of the case and the response, and may return a new case. *)
Variable add_case_hooks : list (Case -> Response -> option Case).

(** [_network_test] *)
Definition _network_test (case : Case) (checks : list CheckFunction)
    (targets : list Target) (session : option (string * string))
    (timeout : option float) (store_interactions : bool)
    (headers : option Headers) (request_tls_verify : bool)
    (max_response_time : option Z) (env : TestEnv) : TestEnv * (Exn + Response) :=
  let request := {| request_case := case; request_session := session;
                    request_headers := headers; request_timeout := timeout;
                    request_verify := request_tls_verify |} in
  let env := sent env request in
  match call request with
  | inl exc => (env, inl exc)
  | inr response =>
      let context := {| context_case := case; context_response := response;
                        response_time := elapsed response |} in
      match targeted targets context env with
      | (env, Raised exc) => (env, inl exc)
      | (env, Normal) =>
          checked case checks response (response_time context) max_response_time
            store_interactions
            (fun result status check_results =>
               store_requests_response result response status check_results)
            env
      end
  end.

(** [_wsgi_test] *)
Definition _wsgi_test (case : Case) (checks : list CheckFunction)
    (targets : list Target) (headers : Headers) (store_interactions : bool)
    (max_response_time : option Z) (env : TestEnv) : TestEnv * (Exn + Response) :=
  match call_wsgi case headers with
  | inl exc => (env, inl exc)
  | inr (response, elapsed, recorded) =>
      let context := {| context_case := case; context_response := response;
                        response_time := elapsed |} in
      match targeted targets context env with
      | (env, Raised exc) => (env, inl exc)
      | (env, Normal) =>
          let env := set_result env
                       (with_logs (env_result env) (logs (env_result env) ++ recorded)) in
          checked case checks response (response_time context) max_response_time
            store_interactions
            (fun result status check_results =>
               store_wsgi_response result case response headers elapsed status
                 check_results)
            env
      end
  end.

(** [_asgi_test] *)
Definition _asgi_test (case : Case) (checks : list CheckFunction)
    (targets : list Target) (store_interactions : bool)
    (headers : option Headers) (max_response_time : option Z)
    (env : TestEnv) : TestEnv * (Exn + Response) :=
  match call_asgi case headers with
  | inl exc => (env, inl exc)
  | inr response =>
      let context := {| context_case := case; context_response := response;
                        response_time := Models.elapsed response |} in
      match targeted targets context env with
      | (env, Raised exc) => (env, inl exc)
      | (env, Normal) =>
          checked case checks response (response_time context) max_response_time
            store_interactions
            (fun result status check_results =>
               store_requests_response result response status check_results)
            env
      end
  end.

(** The loop of [add_cases]: every hook may contribute a case, which is run
    through [test]; an exception raised by [test] ends the loop. *)
Fixpoint add_cases_loop (hooks : list (Case -> Response -> option Case))
    (case : Case) (response : Response)
    (test : Case -> TestEnv -> TestEnv * (Exn + Response))
    (env : TestEnv) : TestEnv * Outcome :=
  match hooks with
  | [] => (env, Normal)
  | case_hook :: rest =>
      match case_hook case response with
      | Some _case =>
          match test _case env with
          | (env', inl exc) => (env', Raised exc)
          | (env', inr _) => add_cases_loop rest case response test env'
          end
      | None => add_cases_loop rest case response test env
      end
  end.

(** [add_cases] *)
Definition add_cases (case : Case) (response : Response)
    (test : Case -> TestEnv -> TestEnv * (Exn + Response))
    (env : TestEnv) : TestEnv * Outcome :=
  add_cases_loop add_case_hooks case response test env.

(** [network_test]: "A single test body will be executed against the
    target."  [headers or {}] keeps a dict that is not empty, and the
    default user agent is then written into that dict itself: the caller's
    object, which [run_test] has also stored as [result.overridden_headers],
    so that the result shows the change; [None] and the empty dict give way
    to a new dict, which no one else holds. *)
Definition network_test (case : Case) (checks : list CheckFunction)
    (targets : list Target) (session : option (string * string))
    (request_timeout : option Z) (request_tls_verify : bool)
    (store_interactions : bool) (headers : option Headers)
    (max_response_time : option Z) (env : TestEnv) : TestEnv * Outcome :=
  let in_place := match headers with Some (_ :: _) => true | _ => false end in
  let headers := match headers with Some ((_ :: _) as h) => h | _ => [] end in
  let added := negb (has_user_agent headers) in
  let headers :=
    if added then headers ++ [("User-Agent", USER_AGENT)] else headers in
  let env :=
    if in_place && added
    then set_result env (with_overridden_headers (env_result env) (Some headers))
    else env in
  match prepare_timeout request_timeout with
  | inl exc => (env, Raised exc)
  | inr timeout =>
      match _network_test case checks targets session timeout store_interactions
              (Some headers) request_tls_verify max_response_time env with
      | (env, inl exc) => (env, Raised exc)
      | (env, inr response) =>
          add_cases case response
            (fun _case =>
               _network_test _case checks targets session timeout store_interactions
                 (Some headers) request_tls_verify max_response_time)
            env
      end
  end.

End Bodies.

End Transport.

Export Transport.

(* ===================================================================== *)
(** ** Events, generators and the runner *)
(* ===================================================================== *)

Module Runner.

Local Open Scope string_scope.
Local Open Scope list_scope.
Local Open Scope Z_scope.

(** [runner.events]: the externally observable protocol.  [AfterExecution]
    and [Finished] carry the result objects they are built from. *)
Inductive ExecutionEvent : Type :=
| Initialized (schema : string)
| BeforeExecution (endpoint : Endpoint) (recursion_level : Z)
| AfterExecution (result : TestResult) (status : Status)
    (hypothesis_output : list string) (endpoint : Endpoint)
| Interrupted
| Finished (results : TestResultSet).

Definition is_Interrupted (event : ExecutionEvent) : bool :=
  match event with Interrupted => true | _ => false end.

Definition is_Finished (event : ExecutionEvent) : bool :=
  match event with Finished _ => true | _ => false end.

Definition is_AfterExecution (event : ExecutionEvent) : bool :=
  match event with AfterExecution _ _ _ _ => true | _ => false end.

(** A Python generator over the shared [results] object, as a resumption:
    it finishes with a value, yields an event and waits to be resumed,
    reads [results], or appends to it.  Nothing after a [Yield] happens
    unless the consumer resumes the generator. *)
Inductive Gen (A : Type) : Type :=
| Return (a : A)
| Yield (event : ExecutionEvent) (rest : Gen A)
| Results (k : TestResultSet -> Gen A)
| Append (r : TestResult) (rest : Gen A).

Arguments Return {A} a.
Arguments Yield {A} event rest.
Arguments Results {A} k.
Arguments Append {A} r rest.

(** Sequencing: run [g], then continue with [f] on its value. *)
Fixpoint bind {A B : Type} (g : Gen A) (f : A -> Gen B) : Gen B :=
  match g with
  | Return a => f a
  | Yield event rest => Yield event (bind rest f)
  | Results k => Results (fun results => bind (k results) f)
  | Append r rest => Append r (bind rest f)
  end.

(** Exhausting a generator ([list(g)]) from a given [results]: the events
    in order, the final [results], the value. *)
Fixpoint consume {A : Type} (g : Gen A) (results : TestResultSet)
    : list ExecutionEvent * TestResultSet * A :=
  match g with
  | Return a => ([], results, a)
  | Yield event rest =>
      let '(events, results', a) := consume rest results in
      (event :: events, results', a)
  | Results k => consume (k results) results
  | Append r rest => consume rest (results ++ [r])
  end.

(** The same run, keeping with every event the [results] at the moment it
    was yielded. *)
Fixpoint trace {A : Type} (g : Gen A) (results : TestResultSet)
    : list (ExecutionEvent * TestResultSet) * TestResultSet :=
  match g with
  | Return _ => ([], results)
  | Yield event rest =>
      let '(steps, final) := trace rest results in
      ((event, results) :: steps, final)
  | Results k => trace (k results) results
  | Append r rest => trace rest (results ++ [r])
  end.

(** The generation engine's driven test function.  Calling it mutates the
    [result] and [feedback] it is given, emits diagnostic text, may set
    the generated seed, and returns or raises. *)
Record TestRun : Type := {
  run_result : TestResult;
  run_feedback : Feedback;
  run_output : list string;
  run_generated_seed : option Z;
  run_outcome : Outcome
}.

(** What [maker] yields as [test]: an [InvalidSchema] error in place of a
    test, or a callable [test(checks, targets, result, headers=headers,
    feedback=feedback)] with its [_hypothesis_internal_use_seed]
    attribute. *)
Inductive Test : Type :=
| InvalidTest (msg : string)
| TestFunction (_hypothesis_internal_use_seed : option Z)
    (body : list CheckFunction -> list Target -> TestResult ->
            option Headers -> Feedback -> TestRun).

(** Substring test, for ["..." in traceback]. *)
Definition contains (needle haystack : string) : bool :=
  match String.index 0 needle haystack with
  | Some _ => true
  | None => false
  end.

(** [reraise] *)
Definition reraise (traceback : string) : Exn :=
  let message :=
    if contains "assert type_ in TYPE_STRINGS" traceback
    then "Invalid type name" else "Unknown schema error" in
  InvalidSchema message.

(** [a or b] on optional integers. *)
Definition or_else (a b : option Z) : option Z :=
  if truthy a then a else b.

(** [result.checks[-1]], when [result.checks] is not empty. *)
Definition last_check (cs : list Check) : option Check :=
  nth_error cs (Nat.pred (List.length cs)).

(** What the [try] statement of [run_test] leaves behind for an invocation
    that raised [exc]: the status and the updated result; [None] for
    [KeyboardInterrupt], whose handler returns from [run_test]. *)
Definition handle (exc : Exn) (result : TestResult) : option (Status * TestResult) :=
  match exc with
  | CheckFailed _ _ | MultipleFailures => Some (failure, result)
  | Flaky _ =>
      let result := mark_errored result in
      let flaky_example :=
        match checks result with
        | _ :: _ =>
            match last_check (checks result) with
            | Some c => Some (example c)
            | None => None
            end
        | [] => None
        end in
      Some (error,
            add_error result
              (Flaky ("Tests on this endpoint produce unreliable results: "
                      ++ String (ascii_of_nat 10)
                      "Falsified on the first call but did not on a subsequent one"))
              flaky_example)
  | Unsatisfiable _ =>
      Some (error,
            add_error result
              (Unsatisfiable "Unable to satisfy schema parameters for this endpoint")
              None)
  | KeyboardInterrupt => None
  | AssertionError _ traceback =>
      Some (error, add_error result (reraise traceback) None)
  | InvalidSchema _ | OtherException _ =>
      Some (error, add_error result exc None)
  end.

(** [run_test]: "A single test run with all error handling needed."  The
    value of the generator is the [feedback] object as the test left it. *)
Definition run_test (endpoint : Endpoint) (test : Test)
    (checks : list CheckFunction) (data_generation_method : DataGenerationMethod)
    (targets : list Target) (headers : option Headers) (recursion_level : Z)
    (feedback : Feedback) : Gen Feedback :=
  let result := new_TestResult endpoint headers data_generation_method in
  Yield (BeforeExecution endpoint recursion_level)
    (let finish (status : Status) (result : TestResult)
         (hypothesis_output : list string) (seed : option Z)
         (feedback : Feedback) : Gen Feedback :=
       let result := with_seed result seed in
       Append result
         (Yield (AfterExecution result status hypothesis_output endpoint)
            (Return feedback)) in
     match test with
     | InvalidTest msg =>
         finish error (add_error result (InvalidSchema msg) None) []
           (or_else None None) feedback
     | TestFunction _hypothesis_internal_use_seed body =>
         let run := body checks targets result headers feedback in
         let seed := or_else _hypothesis_internal_use_seed (run_generated_seed run) in
         match run_outcome run with
         | Normal =>
             finish success (run_result run) (run_output run) seed (run_feedback run)
         | Raised exc =>
             match handle exc (run_result run) with
             | Some (status, result) =>
                 finish status result (run_output run) seed (run_feedback run)
             | None => Yield Interrupted (Return (run_feedback run))
             end
         end
     end).

(** The condition under which [execute] leaves its loop. *)
Definition should_stop (exit_first : bool) (event : ExecutionEvent) : bool :=
  exit_first &&
  match event with
  | AfterExecution _ status _ _ =>
      Status_eqb status error || Status_eqb status failure
  | _ => false
  end.

(** The [for event in self._execute(results)] loop of [execute]: the
    condition is tested on each event before it is yielded, and [break]
    leaves the delegated generator suspended where it is. *)
Fixpoint forward (exit_first : bool) (delegated : Gen unit) : Gen unit :=
  match delegated with
  | Return _ => Return tt
  | Yield event rest =>
      if should_stop exit_first event then Return tt
      else Yield event (forward exit_first rest)
  | Results k => Results (fun results => forward exit_first (k results))
  | Append r rest => Append r (forward exit_first rest)
  end.

(** [BaseRunner.execute]: "Common logic for all runners."  [_execute] is
    the delegated generator of the concrete runner.  [results =
    TestResultSet()] is the empty list the run is consumed from, see
    [run]. *)
Definition execute (schema : string) (exit_first : bool) (_execute : Gen unit)
    : Gen unit :=
  Yield (Initialized schema)
    (bind (forward exit_first _execute) (fun _ =>
       Results (fun results => Yield (Finished results) (Return tt)))).

(** [list(runner.execute())]: the complete event stream of a run. *)
Definition run (schema : string) (exit_first : bool) (_execute : Gen unit)
    : list ExecutionEvent :=
  fst (fst (consume (execute schema exit_first _execute) [])).

(** The inner loop of [_run_tests] over the events of [run_test]: each
    event is yielded first and then tested; [None] means the scheduler hit
    its [return]. *)
Fixpoint forward_test (g : Gen Feedback) : Gen (option Feedback) :=
  match g with
  | Return feedback => Return (Some feedback)
  | Yield event rest =>
      Yield event (if is_Interrupted event then Return None else forward_test rest)
  | Results k => Results (fun results => forward_test (k results))
  | Append r rest => Append r (forward_test rest)
  end.

Definition Triple : Type := Endpoint * DataGenerationMethod * Test.

Section Scheduler.

(** The runner's attributes and keyword arguments the scheduler passes on. *)
Variable stateful : option string.
Variable stateful_recursion_limit : Z.
Variable checks : list CheckFunction.
Variable targets : list Target.
Variable headers : option Headers.

(** [Feedback.get_stateful_tests]: the tests derived from the pairs a
    feedback object has collected. *)
Variable get_stateful_tests : Feedback -> list Triple.

(** The outer [for ... in maker(template, settings, seed)] loop of
    [_run_tests]; [recurse] is the recursive call on the feedback of the
    test just run. *)
Fixpoint for_each_test (recurse : Feedback -> Gen unit) (recursion_level : Z)
    (tests : list Triple) : Gen unit :=
  match tests with
  | [] => Return tt
  | (endpoint, data_generation_method, test) :: rest =>
      let feedback := new_Feedback stateful endpoint in
      bind (forward_test
              (run_test endpoint test checks data_generation_method targets
                 headers recursion_level feedback))
        (fun finished =>
           match finished with
           | None => Return tt
           | Some feedback =>
               bind (recurse feedback)
                 (fun _ => for_each_test recurse recursion_level rest)
           end)
  end.

(** [_run_tests], by recursion on the number of levels left below the
    limit; [_run_tests_unfold] shows it satisfies the equation the source
    is written as. *)
Fixpoint _run_tests_from (levels_left : nat) (maker : list Triple)
    (recursion_level : Z) : Gen unit :=
  if recursion_level >? stateful_recursion_limit then Return tt
  else
    match levels_left with
    | O => Return tt
    | S levels_left =>
        for_each_test
          (fun feedback =>
             _run_tests_from levels_left (get_stateful_tests feedback)
               (recursion_level + 1))
          recursion_level maker
    end.

(** [BaseRunner._run_tests]: "Run tests and recursively run additional
    tests." *)
Definition _run_tests (maker : list Triple) (recursion_level : Z) : Gen unit :=
  _run_tests_from (Z.to_nat (stateful_recursion_limit + 1 - recursion_level))
    maker recursion_level.

(** Modelled from the spec: the concrete runner's [_execute] is not part of
    the module; the spec has the Run Controller "delegate to the Recursive
    Test Scheduler", which starts at recursion level 0. *)
Definition _execute (maker : list Triple) : Gen unit :=
  _run_tests maker 0.

End Scheduler.

End Runner.

Export Runner.

(* ===================================================================== *)
(** ** Settings and the in-process wrappers *)
(* ===================================================================== *)

Module Wrappers.

Local Open Scope string_scope.
Local Open Scope list_scope.

(** A [dict] with string keys, kept in insertion order: [d.get(key)]. *)
Fixpoint dict_get (V : Type) (key : string) (d : list (string * V)) : option V :=
  match d with
  | [] => None
  | (k, v) :: rest => if (k =? key)%string then Some v else dict_get key rest
  end.

(** [d[key] = value]: the value of a key that is present is replaced where
    it stands, a new key goes last. *)
Fixpoint dict_set (V : Type) (key : string) (value : V) (d : list (string * V))
    : list (string * V) :=
  match d with
  | [] => [(key, value)]
  | (k, v) :: rest =>
      if (k =? key)%string then (k, value) :: rest
      else (k, v) :: dict_set key value rest
  end.

(** [d.setdefault(key, value)], as far as the dict is concerned. *)
Definition setdefault (V : Type) (key : string) (value : V) (d : list (string * V))
    : list (string * V) :=
  match dict_get key d with
  | Some _ => d
  | None => dict_set key value d
  end.

(** [get_hypothesis_settings]: the options the settings object is built
    from; [DEFAULT_DEADLINE] is the constant of [constants.py]. *)
Definition get_hypothesis_settings (V : Type) (DEFAULT_DEADLINE : V)
    (hypothesis_options : list (string * V)) : list (string * V) :=
  setdefault "deadline" DEFAULT_DEADLINE hypothesis_options.

Section InProcess.

Variable call_wsgi : Case -> Headers -> Exn + (Response * float * list string).
Variable call_asgi : Case -> option Headers -> Exn + Response.

(** [constants.USER_AGENT] *)
Variable USER_AGENT : string.

(** The hooks registered under the name ["add_case"]. *)
Variable add_case_hooks : list (Case -> Response -> option Case).

(** [requests.auth._basic_auth_str] *)
Variable _basic_auth_str : string -> string -> string.

(** [get_wsgi_auth]; the [ValueError] is one of the exceptions the runner
    does not tell apart. *)
Definition get_wsgi_auth (auth : option (string * string)) (auth_type : option string)
    : Exn + option string :=
  match auth with
  | Some (username, password) =>
      if match auth_type with
         | Some t => (t =? "digest")%string
         | None => false
         end
      then inl (OtherException "Digest auth is not supported for WSGI apps")
      else inr (Some (_basic_auth_str username password))
  | None => inr None
  end.

(** [_prepare_wsgi_headers].  A dict that is not empty is updated in place,
    before [get_wsgi_auth] is called and again with the credentials: the
    first component is the caller's [headers] as the call leaves it, the
    second what the call returns or raises. *)
Definition _prepare_wsgi_headers (headers : option Headers)
    (auth : option (string * string)) (auth_type : option string)
    : option Headers * (Exn + Headers) :=
  let caller := headers in
  let in_place := match headers with Some (_ :: _) => true | _ => false end in
  let headers := match headers with Some ((_ :: _) as h) => h | _ => [] end in
  let headers :=
    if negb (has_user_agent headers)
    then dict_set "User-Agent" USER_AGENT headers else headers in
  match get_wsgi_auth auth auth_type with
  | inl exc => (if in_place then Some headers else caller, inl exc)
  | inr wsgi_auth =>
      let headers :=
        match wsgi_auth with
        | Some value =>
            if (value =? EmptyString)%string then headers
            else dict_set "Authorization" value headers
        | None => headers
        end in
      (if in_place then Some headers else caller, inr headers)
  end.

(** [wsgi_test].  The [headers] it is given is the object [run_test] has
    stored as [result.overridden_headers], so what [_prepare_wsgi_headers]
    does to it shows in the result. *)
Definition wsgi_test (case : Case) (checks : list CheckFunction)
    (targets : list Target) (auth : option (string * string))
    (auth_type : option string) (headers : option Headers)
    (store_interactions : bool) (max_response_time : option Z)
    (env : TestEnv) : TestEnv * Outcome :=
  let in_place := match headers with Some (_ :: _) => true | _ => false end in
  let '(caller, prepared) := _prepare_wsgi_headers headers auth auth_type in
  let env :=
    if in_place
    then set_result env (with_overridden_headers (env_result env) caller)
    else env in
  match prepared with
  | inl exc => (env, Raised exc)
  | inr headers =>
      match _wsgi_test call_wsgi case checks targets headers store_interactions
              max_response_time env with
      | (env, inl exc) => (env, Raised exc)
      | (env, inr response) =>
          add_cases add_case_hooks case response
            (fun _case =>
               _wsgi_test call_wsgi _case checks targets headers store_interactions
                 max_response_time)
            env
      end
  end.

(** [asgi_test]: "A single test body will be executed against the
    target."  The headers are passed on as they are; no dict is changed. *)
Definition asgi_test (case : Case) (checks : list CheckFunction)
    (targets : list Target) (store_interactions : bool)
    (headers : option Headers) (max_response_time : option Z)
    (env : TestEnv) : TestEnv * Outcome :=
  let headers := match headers with Some ((_ :: _) as h) => h | _ => [] end in
  match _asgi_test call_asgi case checks targets store_interactions (Some headers)
          max_response_time env with
  | (env, inl exc) => (env, Raised exc)
  | (env, inr response) =>
      add_cases add_case_hooks case response
        (fun _case =>
           _asgi_test call_asgi _case checks targets store_interactions (Some headers)
             max_response_time)
        env
  end.

End InProcess.

End Wrappers.

Export Wrappers.

(* ===================================================================== *)
(** ** Vocabulary of the statements *)
(* ===================================================================== *)

Local Open Scope string_scope.
Local Open Scope list_scope.

(** The predicate keeps to the [CheckFunction] contract on this input: it
    returns, or it raises an assertion. *)
Definition returns_or_asserts (response : Response) (case : Case)
    (check : CheckFunction) : Prop :=
  forall exc, call check response case <> RaisedOther exc.

(** The message [run_checks] records for an assertion whose text is [msg]. *)
Definition failure_message (check_name msg : string) : string :=
  if (msg =? EmptyString)%string then ("Check '" ++ check_name ++ "' failed")%string else msg.

(** The Check entries one predicate contributes. *)
Definition recorded (response : Response) (case : Case) (check : CheckFunction)
    : list Check :=
  match call check response case with
  | Returned false =>
      [{| name := __name__ check; value := success; example := case; message := None |}]
  | Returned true => []
  | RaisedAssertion msg =>
      [{| name := __name__ check; value := failure; example := case;
          message := Some (failure_message (__name__ check) msg) |}]
  | RaisedOther _ => []
  end.

(** The failure messages one predicate contributes. *)
Definition complaints (response : Response) (case : Case) (check : CheckFunction)
    : list string :=
  match call check response case with
  | RaisedAssertion msg => [failure_message (__name__ check) msg]
  | _ => []
  end.

(** The predicate returns a truthy value ("skip") on this input. *)
Definition skips (response : Response) (case : Case) (check : CheckFunction) : bool :=
  match call check response case with
  | Returned true => true
  | _ => false
  end.

(** A float is greater than a whole number: [inf] is greater than every
    number and [nan] than none; a finite float is when the number it stands
    for is. *)
Definition exceeds (x : float) (z : Z) : Prop :=
  match x with
  | S754_nan => False
  | S754_infinity s => s = false
  | _ => (inject_Z z < number x)%Q
  end.

(** The synthetic response-time entries. *)
Definition response_time_failure (case : Case) (limit : Z) : Check :=
  {| name := "max_response_time"; value := failure; example := case;
     message := Some ("Response time exceeded the limit of " ++ str limit ++ " ms")%string |}.

Definition response_time_success (case : Case) : Check :=
  {| name := "max_response_time"; value := success; example := case; message := None |}.

(** What the response-time block records for an elapsed time and a budget. *)
Definition synthetic (case : Case) (elapsed_time : float) (max_response_time : option Z)
    : list Check :=
  match max_response_time with
  | Some limit =>
      if (limit =? 0)%Z then []
      else if gt_int elapsed_time limit
           then [response_time_failure case limit]
           else [response_time_success case]
  | None => []
  end.

(** The example of the last recorded Check whose status is [failure]. *)
Definition last_failing_example (cs : list Check) : option Case :=
  match filter (fun c => Status_eqb (value c) failure) (rev cs) with
  | c :: _ => Some (example c)
  | [] => None
  end.

(** Every event a generator can yield, on any path, satisfies [P]. *)
Inductive Yields (A : Type) (P : ExecutionEvent -> Prop) : Gen A -> Prop :=
| Yields_Return : forall a, Yields P (Return a)
| Yields_Yield : forall event rest,
    P event -> Yields P rest -> Yields P (Yield event rest)
| Yields_Results : forall k,
    (forall results, Yields P (k results)) -> Yields P (Results k)
| Yields_Append : forall r rest, Yields P rest -> Yields P (Append r rest).

(** Every [AfterExecution] event of the generator is yielded right after
    the result it carries has been appended to [results]. *)
Inductive Reports (A : Type) : Gen A -> Prop :=
| Reports_Return : forall a, Reports (Return a)
| Reports_Yield : forall event rest,
    is_AfterExecution event = false -> Reports rest -> Reports (Yield event rest)
| Reports_Results : forall k,
    (forall results, Reports (k results)) -> Reports (Results k)
| Reports_Append : forall r status output endpoint rest,
    Reports rest ->
    Reports (Append r (Yield (AfterExecution r status output endpoint) rest)).

(** The [results] seen at an [AfterExecution] step end with its result. *)
Definition result_is_last (step : ExecutionEvent * TestResultSet) : Prop :=
  forall result status output endpoint,
    fst step = AfterExecution result status output endpoint ->
    exists earlier, snd step = earlier ++ [result].

(** The part of a trace that [execute] forwards: the steps before the first
    event on which it stops, and the [results] at the point where the loop
    is left. *)
Fixpoint forwarded (exit_first : bool)
    (steps : list (ExecutionEvent * TestResultSet)) (final : TestResultSet)
    : list ExecutionEvent * TestResultSet :=
  match steps with
  | [] => ([], final)
  | (event, results) :: rest =>
      if should_stop exit_first event then ([], results)
      else let '(events, final') := forwarded exit_first rest final in
           (event :: events, final')
  end.

(** An event records a test executed at recursion level [l] only for [l]
    between [lo] and [hi]. *)
Definition level_within (lo hi : Z) (event : ExecutionEvent) : Prop :=
  match event with
  | BeforeExecution _ l => (lo <= l <= hi)%Z
  | _ => True
  end.

(** The test of a triple, run on the fresh result and feedback objects
    the scheduler creates for it, raises [KeyboardInterrupt]. *)
Definition interrupts (stateful : option string) (checks : list CheckFunction)
    (targets : list Target) (headers : option Headers) (triple : Triple) : bool :=
  match triple with
  | (endpoint, data_generation_method, TestFunction _ body) =>
      match run_outcome (body checks targets
                           (new_TestResult endpoint headers data_generation_method)
                           headers (new_Feedback stateful endpoint)) with
      | Raised KeyboardInterrupt => true
      | _ => false
      end
  | (_, _, InvalidTest _) => false
  end.

(** The error [run_test] synthesizes for a flaky result. *)
Definition flaky_error : Exn :=
  Flaky ("Tests on this endpoint produce unreliable results: "
         ++ String (ascii_of_nat 10)
              "Falsified on the first call but did not on a subsequent one")%string.

(* ===================================================================== *)
(** ** Sample inputs *)
(* ===================================================================== *)

Module Samples.

Definition users : Endpoint := {| verbose_name := "GET /users" |}.
Definition orders : Endpoint := {| verbose_name := "GET /orders" |}.

Definition first_case : Case := {| case_endpoint := users; case_data := "id=1" |}.
Definition second_case : Case := {| case_endpoint := users; case_data := "id=2" |}.

(** The float [0.15], that is [0x1.3333333333333p-3]. *)
Definition seconds_0_15 : float := S754_finite false 5404319552844595 (-55).

(** A response that took 0.15 s. *)
Definition slow_ok : Response :=
  {| status_code := 200; elapsed := seconds_0_15; body := "[]" |}.

Definition fresh_result : TestResult := new_TestResult users None positive.

Definition passing : CheckFunction :=
  {| __name__ := "not_a_server_error"; call := fun _ _ => Returned false |}.

Definition failing : CheckFunction :=
  {| __name__ := "status_code_conformance";
     call := fun _ _ => RaisedAssertion "bad status" |}.

Definition skipping : CheckFunction :=
  {| __name__ := "response_schema_conformance"; call := fun _ _ => Returned true |}.

(** Transports that answer every call with [slow_ok]. *)
Definition answering : Request -> Exn + Response := fun _ => inr slow_ok.

Definition answering_wsgi : Case -> Headers -> Exn + (Response * float * list string) :=
  fun _ _ => inr (slow_ok, seconds_0_15, ["GET /users 200"]).

Definition answering_asgi : Case -> option Headers -> Exn + Response :=
  fun _ _ => inr slow_ok.

Definition fresh_env : TestEnv :=
  {| env_result := fresh_result; env_feedback := new_Feedback (Some "links") users;
     env_requests := []; env_guidance := [] |}.

(** A test whose first check fails: the engine reports the failure. *)
Definition failing_test : Test :=
  TestFunction None
    (fun _ _ result _ feedback =>
       {| run_result := add_failure result "status_code_conformance" first_case "bad status";
          run_feedback := feedback;
          run_output := ["Falsifying example"];
          run_generated_seed := Some 42%Z;
          run_outcome := Raised (CheckFailed "GET /users" ["bad status"]) |}).

(** A test during which the user presses Ctrl-C. *)
Definition interrupted_test : Test :=
  TestFunction None
    (fun _ _ result _ feedback =>
       {| run_result := result; run_feedback := feedback; run_output := [];
          run_generated_seed := None; run_outcome := Raised KeyboardInterrupt |}).

(** A test that passes and feeds one pair to the feedback. *)
Definition passing_test : Test :=
  TestFunction None
    (fun _ _ result _ feedback =>
       {| run_result := add_success result "not_a_server_error" first_case;
          run_feedback := add_test_case feedback first_case slow_ok;
          run_output := []; run_generated_seed := Some 7%Z; run_outcome := Normal |}).

(** A test the engine reports as flaky: a failure on [first_case] was
    recorded, then a success on [second_case]. *)
Definition flaky_test : Test :=
  TestFunction None
    (fun _ _ result _ feedback =>
       {| run_result :=
            add_success
              (add_failure result "status_code_conformance" first_case "bad status")
              "status_code_conformance" second_case;
          run_feedback := feedback; run_output := [];
          run_generated_seed := Some 7%Z; run_outcome := Raised (Flaky "Flaky") |}).

(** The result [run_test] appends for [failing_test]. *)
Definition failed_result : TestResult :=
  with_seed (add_failure fresh_result "status_code_conformance" first_case "bad status")
    (Some 42%Z).

(** No stateful tests are derived. *)
Definition no_links : Feedback -> list Triple := fun _ => [].

(** Every collected pair yields one derived test, which gets interrupted. *)
Definition interrupted_links : Feedback -> list Triple :=
  fun feedback =>
    map (fun _ => (feedback_endpoint feedback, positive, interrupted_test))
      (stateful_tests feedback).

(** A single-endpoint run whose test fails. *)
Definition failing_run : Gen unit :=
  _execute (Some "links") 5 [] [] None no_links [(users, positive, failing_test)].

(** A single-endpoint run whose test is interrupted. *)
Definition interrupted_run : Gen unit :=
  _execute (Some "links") 5 [] [] None no_links [(users, positive, interrupted_test)].

End Samples.

(* ===================================================================== *)
(** ** Further vocabulary *)
(* ===================================================================== *)

(** The messages of the failing entries of a Check list, in order. *)
Definition failure_messages (cs : list Check) : list string :=
  flat_map (fun c => match value c, message c with
                     | failure, Some m => [m]
                     | _, _ => []
                     end) cs.

(** An entry as [run_checks] writes it: a success without message, or a
    failure with a message that is not empty. *)
Definition well_formed_entry (c : Check) : Prop :=
  (value c = success /\ message c = None)
  \/ (value c = failure /\ exists m, message c = Some m /\ m <> EmptyString).

(** The status an inner body stores with the interaction, given how
    [run_checks] ended. *)
Definition stored_status (o : Outcome) : Status :=
  match o with
  | Raised (CheckFailed _ _) => failure
  | _ => success
  end.

(** [headers or {}] *)
Definition or_empty (headers : option Headers) : Headers :=
  match headers with
  | Some ((_ :: _) as h) => h
  | _ => []
  end.

(** [headers or {}] goes on with the caller's own dict: one that is not
    empty. *)
Definition in_place (headers : option Headers) : bool :=
  match headers with
  | Some (_ :: _) => true
  | _ => false
  end.

(** The headers [network_test] sends: the caller's when they name a user
    agent in any letter case, else the caller's followed by the default
    one. *)
Definition sent_headers (USER_AGENT : string) (headers : option Headers) : Headers :=
  if has_user_agent (or_empty headers) then or_empty headers
  else or_empty headers ++ [("User-Agent", USER_AGENT)].

(** The result once [network_test] has prepared the headers: the dict it
    shares with the caller has gained the default user agent when it was
    not empty and named none. *)
Definition with_user_agent (USER_AGENT : string) (headers : option Headers)
    (result : TestResult) : TestResult :=
  if in_place headers && negb (has_user_agent (or_empty headers))
  then with_overridden_headers result (Some (sent_headers USER_AGENT headers))
  else result.

(** The headers after the user-agent step of [_prepare_wsgi_headers]. *)
Definition wsgi_base (USER_AGENT : string) (headers : option Headers) : Headers :=
  if has_user_agent (or_empty headers) then or_empty headers
  else dict_set "User-Agent" USER_AGENT (or_empty headers).

(** The request [network_test] makes for a case. *)
Definition network_request (USER_AGENT : string) (session : option (string * string))
    (timeout : option float) (request_tls_verify : bool) (headers : option Headers)
    (case : Case) : Request :=
  {| request_case := case; request_session := session;
     request_headers := Some (sent_headers USER_AGENT headers);
     request_timeout := timeout;
     request_verify := request_tls_verify |}.

(** The cases the hooks contribute for a case and its response, in order. *)
Definition hook_cases (hooks : list (Case -> Response -> option Case))
    (case : Case) (response : Response) : list Case :=
  flat_map (fun case_hook => match case_hook case response with
                             | Some c => [c]
                             | None => []
                             end) hooks.

(** Every predicate returns (passes or skips) on every response and case. *)
Definition always_return (checks : list CheckFunction) : Prop :=
  forall (response : Response) (case : Case),
    Forall (fun check => exists b, call check response case = Returned b) checks.

Definition is_BeforeExecution (event : ExecutionEvent) : bool :=
  match event with BeforeExecution _ _ => true | _ => false end.

Definition is_Initialized (event : ExecutionEvent) : bool :=
  match event with Initialized _ => true | _ => false end.

(** How many events of a stream satisfy a test. *)
Definition count (p : ExecutionEvent -> bool) (events : list ExecutionEvent) : nat :=
  List.length (filter p events).

(** The results carried by the [AfterExecution] events of a stream. *)
Definition after_results (events : list ExecutionEvent) : list TestResult :=
  flat_map (fun event => match event with
                         | AfterExecution result _ _ _ => [result]
                         | _ => []
                         end) events.

(** A stream made of single-test blocks: a [BeforeExecution] followed
    either by the [AfterExecution] of the same endpoint or by
    [Interrupted]. *)
Inductive Blocks : list ExecutionEvent -> Prop :=
| Blocks_nil : Blocks []
| Blocks_completed : forall endpoint level result status output rest,
    Blocks rest ->
    Blocks (BeforeExecution endpoint level
              :: AfterExecution result status output endpoint :: rest)
| Blocks_interrupted : forall endpoint level rest,
    Blocks rest ->
    Blocks (BeforeExecution endpoint level :: Interrupted :: rest).

(** The feedback object of a triple after its test has run on the fresh
    objects the scheduler creates for it. *)
Definition feedback_after (stateful : option string) (checks : list CheckFunction)
    (targets : list Target) (headers : option Headers) (triple : Triple) : Feedback :=
  match triple with
  | (endpoint, data_generation_method, TestFunction _ body) =>
      run_feedback (body checks targets
                      (new_TestResult endpoint headers data_generation_method)
                      headers (new_Feedback stateful endpoint))
  | (endpoint, _, InvalidTest _) => new_Feedback stateful endpoint
  end.

(** One list is the beginning of the other. *)
Definition prefix (A : Type) (l1 l2 : list A) : Prop :=
  exists rest, l2 = l1 ++ rest.

(** Where the fraction [R/D] of a unit lies: at zero, or below, at or above
    one half. *)
Definition location_of (R D : Z) : location :=
  if (R =? 0)%Z then loc_Exact else loc_Inexact (2 * R ?= D)%Z.

(** The record [mrs] holds the whole part of [N/D] and the location of the
    rest, as the shifts of [SpecFloat] keep them. *)
Definition located (mrs : shr_record) (N D : Z) : Prop :=
  (0 <= shr_m mrs)%Z /\ (0 < D)%Z
  /\ (0 <= N - shr_m mrs * D < D)%Z
  /\ loc_of_shr_record mrs = location_of (N - shr_m mrs * D) D.

(** More sample inputs. *)
Module MoreSamples.

(** A predicate with a bug of its own. *)
Definition crashing : CheckFunction :=
  {| __name__ := "custom_check";
     call := fun _ _ => RaisedOther (OtherException "KeyError: 'id'") |}.

(** A predicate whose assertion carries no text. *)
Definition silent : CheckFunction :=
  {| __name__ := "content_type_conformance"; call := fun _ _ => RaisedAssertion EmptyString |}.

(** A hook that re-runs every case with other data, and one that never
    contributes. *)
Definition retry_hook : Case -> Response -> option Case :=
  fun case _ => Some {| case_endpoint := case_endpoint case; case_data := "retry" |}.

Definition idle_hook : Case -> Response -> option Case := fun _ _ => None.

(** Headers that name no user agent, and an environment whose result
    holds them. *)
Definition accept_json : option Headers := Some [("Accept", "application/json")].

Definition accepting_env : TestEnv :=
  {| env_result := new_TestResult Samples.users accept_json positive;
     env_feedback := new_Feedback (Some "links") Samples.users;
     env_requests := []; env_guidance := [] |}.

(** A transport that cannot connect. *)
Definition unreachable : Request -> Exn + Response :=
  fun _ => inl (OtherException "ConnectionError").

(** The target that scores the response time. *)
Definition response_time_target : Target :=
  {| target_name := "response_time";
     score := fun context => inr (response_time context) |}.

(** A stand-in for [_basic_auth_str]. *)
Definition basic : string -> string -> string :=
  fun username password => ("Basic " ++ username ++ ":" ++ password)%string.

(** A test that stops with a bare assertion of the schema library. *)
Definition asserting_test : Test :=
  TestFunction (Some 0%Z)
    (fun _ _ result _ feedback =>
       {| run_result := result; run_feedback := feedback; run_output := [];
          run_generated_seed := Some 11%Z;
          run_outcome :=
            Raised (AssertionError EmptyString
                      "File canonicalise.py: assert type_ in TYPE_STRINGS, type_") |}).

End MoreSamples.

(* ===================================================================== *)
(** ** Numbers: proofs *)
(* ===================================================================== *)

Lemma two_power_pos (e : Z) : (0 < 2 ^ e)%Q.
Proof. apply Qpower_0_lt. reflexivity. Qed.

(** The comparison of a float with an [int] decides [exceeds]. *)
Lemma gt_int_spec (x : float) (z : Z) : gt_int x z = true <-> exceeds x z.
Proof.
  destruct x as [s | s | | s m e]; cbn [gt_int exceeds number].
  - rewrite Z.ltb_lt, Zlt_Qlt. reflexivity.
  - destruct s; cbn; split; congruence.
  - split; [discriminate | tauto].
  - set (n := if s then Z.neg m else Z.pos m).
    destruct (0 <=? e)%Z eqn:He.
    + apply Z.leb_le in He. rewrite Z.ltb_lt, Zlt_Qlt, inject_Z_mult.
      rewrite (Zpower_Qpower 2 e He). reflexivity.
    + apply Z.leb_gt in He. rewrite Z.ltb_lt, Zlt_Qlt, inject_Z_mult.
      rewrite (Zpower_Qpower 2 (- e)) by lia.
      rewrite Qpower_opp.
      pose proof (two_power_pos e) as Hpos.
      change (inject_Z 2) with 2%Q.
      assert (Hne : ~ (2 ^ e == 0)%Q)
        by (intros H0; rewrite H0 in Hpos; discriminate Hpos).
      rewrite <- (Qmult_lt_r _ _ (2 ^ e)%Q Hpos).
      assert (Heq : (inject_Z z * / 2 ^ e * 2 ^ e == inject_Z z)%Q)
        by (field; exact Hne).
      rewrite Heq. reflexivity.
Qed.

(** *** Rounding of a quotient of whole numbers

    [SFdiv] on two whole numbers [a] and [b] shifts [a] so that the
    truncated quotient has at least 53 digits, then rounds it to 53 digits,
    to nearest and ties to even.  The lemmas follow the steps of
    [SFdiv_core_binary], [shr_fexp], [round_nearest_even] and
    [binary_round_aux]. *)

Section Rounding.

Local Open Scope Z_scope.

(** [digits2_pos p] is the number of binary digits of [p]. *)
Lemma digits2_pos_bounds (p : BinNums.positive) :
  2 ^ (Zpos (digits2_pos p) - 1) <= Zpos p < 2 ^ Zpos (digits2_pos p).
Proof.
  induction p as [p IH | p IH |]; cbn [digits2_pos].
  - rewrite Pos2Z.inj_succ.
    replace (Z.succ (Zpos (digits2_pos p)) - 1) with (Z.succ (Zpos (digits2_pos p) - 1)) by lia.
    rewrite !Z.pow_succ_r by lia. lia.
  - rewrite Pos2Z.inj_succ.
    replace (Z.succ (Zpos (digits2_pos p)) - 1) with (Z.succ (Zpos (digits2_pos p) - 1)) by lia.
    rewrite !Z.pow_succ_r by lia. lia.
  - cbn. lia.
Qed.

Lemma digits2_pos_unique (p : BinNums.positive) (k : Z) :
  2 ^ (k - 1) <= Zpos p < 2 ^ k -> Zpos (digits2_pos p) = k.
Proof.
  intros [Hlo Hhi]. pose proof (digits2_pos_bounds p) as [Hlo' Hhi'].
  set (d := Zpos (digits2_pos p)) in *.
  assert (Hk : 0 < k).
  { destruct (Z_lt_le_dec 0 k) as [H | H]; [exact H |].
    exfalso. rewrite (Z.pow_neg_r 2 (k - 1)) in Hlo by lia.
    destruct (Z.eq_dec k 0) as [-> | Hne].
    - cbn in Hhi. lia.
    - rewrite (Z.pow_neg_r 2 k) in Hhi by lia. lia. }
  destruct (Z.lt_trichotomy d k) as [H | [H | H]]; [| exact H |]; exfalso.
  - assert (2 ^ d <= 2 ^ (k - 1)) by (apply Z.pow_le_mono_r; lia). lia.
  - assert (2 ^ k <= 2 ^ (d - 1)) by (apply Z.pow_le_mono_r; lia). lia.
Qed.

(** Settles a goal about [location_of] once the hypotheses fix the
    comparisons it makes. *)
Ltac decide_location :=
  repeat match goal with
  | |- context [?x =? 0] =>
      first [ replace (x =? 0) with true by (symmetry; apply Z.eqb_eq; lia)
            | replace (x =? 0) with false by (symmetry; apply Z.eqb_neq; lia) ]
  | |- context [?x ?= ?y] =>
      first [ replace (x ?= y) with Eq by (symmetry; apply Z.compare_eq_iff; lia)
            | replace (x ?= y) with Lt by (symmetry; apply Z.compare_lt_iff; lia)
            | replace (x ?= y) with Gt by (symmetry; apply Z.compare_gt_iff; lia) ]
  end;
  reflexivity.

(** The round and sticky bits of a located record say where the rest lies. *)
Lemma located_cases (m : Z) (r s : bool) (N D : Z) :
  located {| shr_m := m; shr_r := r; shr_s := s |} N D ->
  (r = false /\ s = false /\ N - m * D = 0)
  \/ (r = false /\ s = true /\ 0 < N - m * D /\ 2 * (N - m * D) < D)
  \/ (r = true /\ s = false /\ 2 * (N - m * D) = D)
  \/ (r = true /\ s = true /\ D < 2 * (N - m * D)).
Proof.
  unfold located, location_of. cbn [shr_m]. intros (Hm & HD & HR & Hloc).
  destruct (N - m * D =? 0) eqn:E0.
  - apply Z.eqb_eq in E0. destruct r, s; cbn in Hloc; try discriminate Hloc. auto.
  - apply Z.eqb_neq in E0.
    destruct (Z.compare_spec (2 * (N - m * D)) D) as [Hc | Hc | Hc];
      destruct r, s; cbn in Hloc; try discriminate Hloc; intuition lia.
Qed.

(** One shift to the right halves the unit and keeps the record located. *)
Lemma shr_1_located (mrs : shr_record) (N D : Z) :
  located mrs N D -> located (shr_1 mrs) N (2 * D).
Proof.
  destruct mrs as [m r s]. intros H.
  pose proof (located_cases H) as Hcases.
  destruct H as (Hm & HD & HR & _). cbn [shr_m] in *.
  destruct m as [| [p | p |] | p]; try lia;
    unfold located, location_of; cbn [shr_1 shr_m loc_of_shr_record];
    try rewrite (Pos2Z.inj_xI p) in *; try rewrite (Pos2Z.inj_xO p) in *;
    (split; [lia |]); (split; [lia |]); (split; [lia |]);
    destruct Hcases as [(-> & -> & Hc) | [(-> & -> & Hc) | [(-> & -> & Hc) | (-> & -> & Hc)]]];
    cbn [orb]; decide_location.
Qed.

Lemma iter_shr_1_located (p : BinNums.positive) :
  forall (mrs : shr_record) (N D : Z),
    located mrs N D -> located (iter_pos shr_1 p mrs) N (D * 2 ^ Zpos p).
Proof.
  induction p as [p IH | p IH |]; intros mrs N D H; cbn [iter_pos].
  - apply shr_1_located in H. apply IH in H. apply IH in H.
    replace (D * 2 ^ Zpos p~1) with (2 * D * 2 ^ Zpos p * 2 ^ Zpos p); [exact H |].
    rewrite (Pos2Z.inj_xI p), Z.pow_add_r, Z.pow_mul_r by lia.
    change (2 ^ 1) with 2. change (2 ^ 2) with 4.
    replace 4 with (2 * 2) by lia. rewrite Z.pow_mul_l. lia.
  - apply IH in H. apply IH in H.
    replace (D * 2 ^ Zpos p~0) with (D * 2 ^ Zpos p * 2 ^ Zpos p); [exact H |].
    rewrite (Pos2Z.inj_xO p), Z.pow_mul_r by lia. change (2 ^ 2) with 4.
    replace 4 with (2 * 2) by lia. rewrite Z.pow_mul_l. lia.
  - apply shr_1_located in H. replace (D * 2 ^ 1) with (2 * D) by lia. exact H.
Qed.

Lemma shr_located (mrs : shr_record) (e n N D : Z) :
  located mrs N D -> 0 <= n ->
  located (fst (shr mrs e n)) N (D * 2 ^ n) /\ snd (shr mrs e n) = e + n.
Proof.
  intros H Hn. destruct n as [| p | p]; [| | lia]; cbn [shr fst snd].
  - rewrite Z.mul_1_r, Z.add_0_r. split; [exact H | reflexivity].
  - split; [apply iter_shr_1_located; exact H | reflexivity].
Qed.

Lemma located_record_of_loc (m R N D : Z) :
  0 <= m -> 0 < D -> R = N - m * D -> 0 <= R < D ->
  located (shr_record_of_loc m (location_of R D)) N D.
Proof.
  intros Hm HD -> HR. unfold located, location_of.
  destruct (N - m * D =? 0) eqn:E0; [| destruct (2 * (N - m * D) ?= D) eqn:Ec];
    cbn [shr_record_of_loc shr_m loc_of_shr_record]; rewrite ?E0, ?Ec; auto.
Qed.

Lemma new_location_spec (b r : Z) :
  0 <= r < b -> new_location b r = location_of r b.
Proof.
  intros Hr. unfold new_location, new_location_even, new_location_odd, location_of.
  destruct (Z.even b) eqn:Heven; destruct (r =? 0) eqn:E0; try reflexivity.
  apply Z.eqb_neq in E0. f_equal.
  assert (Hodd : Z.odd b = true) by (rewrite <- Z.negb_even, Heven; reflexivity).
  apply Z.odd_spec in Hodd. destruct Hodd as [k Hk].
  destruct (Z.compare_spec (2 * r + 1) b) as [Hc | Hc | Hc]; symmetry.
  - apply Z.compare_lt_iff. lia.
  - apply Z.compare_lt_iff. lia.
  - apply Z.compare_gt_iff. lia.
Qed.

(** Rounding to nearest, ties to even, moves the whole part by at most half
    a unit, and not at all when nothing is left. *)
Lemma round_located (mrs : shr_record) (N D : Z) :
  located mrs N D ->
  let m' := round_nearest_even (shr_m mrs) (loc_of_shr_record mrs) in
  shr_m mrs <= m' <= shr_m mrs + 1
  /\ 2 * Z.abs (m' * D - N) <= D
  /\ (N = shr_m mrs * D -> m' = shr_m mrs).
Proof.
  destruct mrs as [m r s]. intros H. pose proof (located_cases H) as Hcases.
  destruct H as (Hm & HD & HR & _). cbn [shr_m] in *.
  destruct Hcases as [(-> & -> & Hc) | [(-> & -> & Hc) | [(-> & -> & Hc) | (-> & -> & Hc)]]];
    cbn [loc_of_shr_record round_nearest_even]; try destruct (Z.even m); cbv zeta; lia.
Qed.

Lemma pow2_pos (k : Z) : 0 <= k -> 0 < 2 ^ k.
Proof. intros H. apply Z.pow_pos_nonneg; lia. Qed.

Lemma pow2_split (j k : Z) : 0 <= j -> 0 <= k -> 2 ^ (j + k) = 2 ^ j * 2 ^ k.
Proof. intros. apply Z.pow_add_r; assumption. Qed.

(** The shift that follows the rounding: a mantissa that the rounding has
    carried to [2^53] loses its last digit, any other is kept. *)
Lemma second_shift (m2 e1 : Z) :
  2 ^ 52 <= m2 <= 2 ^ 53 -> -1074 <= e1 ->
  shr_fexp prec emax m2 e1 loc_Exact
  = if m2 <? 2 ^ 53
    then ({| shr_m := m2; shr_r := false; shr_s := false |}, e1)
    else ({| shr_m := 2 ^ 52; shr_r := false; shr_s := false |}, e1 + 1).
Proof.
  intros Hm He. unfold shr_fexp.
  destruct (m2 <? 2 ^ 53) eqn:Hlt.
  - apply Z.ltb_lt in Hlt.
    assert (Hd2 : Zdigits2 m2 = 53).
    { destruct m2 as [| p | p]; try (pose proof (@pow2_pos 52); lia).
      cbn [Zdigits2]. apply digits2_pos_unique. change (53 - 1) with 52. lia. }
    rewrite Hd2.
    assert (Hz : fexp prec emax (53 + e1) - e1 = 0)
      by (unfold fexp, emin, prec, emax; lia).
    rewrite Hz. reflexivity.
  - apply Z.ltb_ge in Hlt. assert (Heq : m2 = 2 ^ 53) by lia. subst m2.
    change (Zdigits2 (2 ^ 53)) with 54.
    assert (Hz : fexp prec emax (54 + e1) - e1 = 1)
      by (unfold fexp, emin, prec, emax; lia).
    rewrite Hz. reflexivity.
Qed.

(** Two cancellation steps of the overflow bounds. *)
Lemma scaled_lower (A b w c K pS : Z) :
  0 < pS -> 1 <= K -> 0 <= w -> 0 <= c -> 0 < b ->
  w * (b * (K * (c * pS))) <= A * pS -> b * (w * c) <= A.
Proof.
  intros HpS HK Hw Hc Hb H.
  apply (Z.mul_le_mono_pos_r _ _ pS HpS).
  apply Z.le_trans with (2 := H).
  assert (0 <= b * w * c * pS) by (repeat apply Z.mul_nonneg_nonneg; lia).
  replace (w * (b * (K * (c * pS)))) with (K * (b * w * c * pS)) by ring.
  replace (b * (w * c) * pS) with (1 * (b * w * c * pS)) by ring.
  apply Z.mul_le_mono_nonneg_r; lia.
Qed.

Lemma scaled_upper (A b w c K pS pn : Z) :
  0 < pS -> 1 <= K -> 0 <= w -> 0 < b -> 0 <= pn ->
  c * pS = K * pn -> A * pS <= w * (b * pn) -> A <= b * (w * c).
Proof.
  intros HpS HK Hw Hb Hpn Hc H.
  apply (Z.mul_le_mono_pos_r _ _ pS HpS).
  apply Z.le_trans with (1 := H).
  replace (b * (w * c) * pS) with (b * w * (c * pS)) by ring. rewrite Hc.
  assert (0 <= w * b * pn) by (repeat apply Z.mul_nonneg_nonneg; lia).
  replace (w * (b * pn)) with (1 * (w * b * pn)) by ring.
  replace (b * w * (K * pn)) with (K * (w * b * pn)) by ring.
  apply Z.mul_le_mono_nonneg_r; lia.
Qed.

(** Side conditions on powers of two. *)
Ltac pow_side :=
  first [ lia
        | apply Z.pow_nonneg; lia
        | apply pow2_pos; lia
        | match goal with
          | |- 1 <= 2 ^ ?k =>
              let H := fresh in
              assert (H : 0 < 2 ^ k) by (apply pow2_pos; lia); lia
          end ].

(** The division of [a] by [b], step by step. *)
Section Division.

Variables a b : BinNums.positive.
Variables sa sb : bool.

Let da := Zpos (digits2_pos a).
Let db := Zpos (digits2_pos b).

Hypothesis Hrange : -1021 <= da - db.

Let E := Z.min (da - db - 53) 0.
Let S := - E.
Let q := (Zpos a * 2 ^ S) / Zpos b.
Let r := (Zpos a * 2 ^ S) mod Zpos b.

Lemma core_spec :
  SFdiv_core_binary prec emax (Zpos a) 0 (Zpos b) 0 = (q, E, location_of r (Zpos b)).
Proof.
  unfold SFdiv_core_binary. cbn [Zdigits2]. fold da db.
  assert (He : Z.min (fexp prec emax (da + 0 - (db + 0))) (0 - 0) = E).
  { unfold fexp, emin, prec, emax, E. lia. }
  rewrite He. cbv zeta.
  assert (Hs : 0 - 0 - E = S) by (unfold S; lia). rewrite Hs.
  assert (HS : 0 <= S) by (unfold S, E; lia).
  assert (Hm : match S with
               | 0 => Zpos a
               | Zpos _ => Z.shiftl (Zpos a) S
               | Zneg _ => 0
               end = Zpos a * 2 ^ S).
  { destruct S as [| p | p] eqn:HSeq; [cbn; lia | | lia].
    rewrite Z.shiftl_mul_pow2 by lia. reflexivity. }
  rewrite Hm.
  pose proof (Z_div_mod (Zpos a * 2 ^ S) (Zpos b) eq_refl) as Hdiv.
  unfold q, r, Z.div, Z.modulo.
  destruct (Z.div_eucl (Zpos a * 2 ^ S) (Zpos b)) as [q0 r0].
  cbn [fst snd]. rewrite new_location_spec by lia. reflexivity.
Qed.

Lemma S_nonneg : 0 <= S.
Proof. unfold S, E. lia. Qed.

Lemma quotient_remainder : Zpos a * 2 ^ S = Zpos b * q + r /\ 0 <= r < Zpos b.
Proof.
  unfold q, r. split.
  - apply Z.div_mod. lia.
  - apply Z.mod_pos_bound. lia.
Qed.

Lemma q_large : 2 ^ 52 <= q.
Proof.
  destruct quotient_remainder as [Hdiv Hr].
  pose proof (digits2_pos_bounds a) as [Ha _]. fold da in Ha.
  pose proof (digits2_pos_bounds b) as [_ Hb]. fold db in Hb.
  pose proof S_nonneg as HS.
  assert (Hda : 0 < da) by (unfold da; lia).
  assert (Hdb : 0 < db) by (unfold db; lia).
  assert (Hexp : 52 + db <= da - 1 + S) by (unfold S, E; lia).
  destruct (Z_lt_le_dec q (2 ^ 52)) as [Hlt | Hle]; [exfalso | exact Hle].
  assert (H1 : 2 ^ (52 + db) <= 2 ^ (da - 1 + S)) by (apply Z.pow_le_mono_r; lia).
  rewrite (@pow2_split 52 db) in H1 by lia.
  rewrite (@pow2_split (da - 1) S) in H1 by lia.
  pose proof (pow2_pos HS) as HpS.
  assert (H2 : 2 ^ (da - 1) * 2 ^ S <= Zpos a * 2 ^ S) by nia.
  assert (H3 : (q + 1) * Zpos b <= 2 ^ 52 * Zpos b) by nia.
  assert (H4 : 2 ^ 52 * Zpos b < 2 ^ 52 * 2 ^ db) by nia.
  nia.
Qed.


Let d := Zdigits2 q.
Let n := d - 53.

Lemma q_digits : 2 ^ (d - 1) <= q < 2 ^ d /\ 53 <= d.
Proof.
  pose proof q_large as Hq.
  assert (Hpos : 0 < q) by (pose proof (@pow2_pos 52); lia).
  unfold d. destruct q as [| qp | qp] eqn:Hqp; try lia. cbn [Zdigits2].
  pose proof (digits2_pos_bounds qp) as Hb. split; [exact Hb |].
  destruct (Z_lt_le_dec (Zpos (digits2_pos qp)) 53) as [Hlt | Hle]; [exfalso | exact Hle].
  assert (2 ^ Zpos (digits2_pos qp) <= 2 ^ 52) by (apply Z.pow_le_mono_r; lia).
  lia.
Qed.

Lemma E_bounds : -1074 <= E <= 0.
Proof. unfold E. lia. Qed.

Lemma first_shift :
  let out := shr_fexp prec emax q E (location_of r (Zpos b)) in
  located (fst out) (Zpos a * 2 ^ S) (Zpos b * 2 ^ n) /\ snd out = E + n.
Proof.
  destruct quotient_remainder as [Hdiv Hr]. destruct q_digits as [Hq Hd].
  pose proof E_bounds as HE.
  unfold shr_fexp. fold d.
  assert (Hn : fexp prec emax (d + E) - E = n).
  { unfold fexp, emin, prec, emax, n. lia. }
  rewrite Hn. cbv zeta. apply shr_located; [| unfold n; lia].
  apply located_record_of_loc; lia.
Qed.

Let m1 := shr_m (fst (shr_fexp prec emax q E (location_of r (Zpos b)))).

Lemma m1_bounds :
  2 ^ 52 <= m1 < 2 ^ 53
  /\ 0 <= Zpos a * 2 ^ S - m1 * (Zpos b * 2 ^ n) < Zpos b * 2 ^ n.
Proof.
  destruct first_shift as [(Hm & HD & HR & _) _]. fold m1 in Hm, HR.
  split; [| exact HR].
  destruct quotient_remainder as [Hdiv Hr]. destruct q_digits as [Hq Hd].
  assert (Hn : 0 <= n) by (unfold n; lia).
  pose proof (pow2_pos Hn) as Hpn.
  assert (Hdn : 2 ^ (d - 1) = 2 ^ 52 * 2 ^ n).
  { replace (d - 1) with (52 + n) by (unfold n; lia). apply pow2_split; lia. }
  assert (Hdn' : 2 ^ d = 2 ^ 53 * 2 ^ n).
  { replace d with (53 + n) at 1 by (unfold n; lia). apply pow2_split; lia. }
  set (P := Zpos b * 2 ^ n) in *.
  assert (HP : P = Zpos b * 2 ^ n) by reflexivity.
  split.
  - destruct (Z_lt_le_dec m1 (2 ^ 52)) as [Hlt | Hle]; [exfalso | exact Hle].
    assert ((m1 + 1) * P <= 2 ^ 52 * P) by nia.
    assert (2 ^ 52 * P = Zpos b * 2 ^ (d - 1)) by (rewrite Hdn; lia).
    assert (Zpos b * 2 ^ (d - 1) <= Zpos b * q) by nia.
    lia.
  - destruct (Z_lt_le_dec m1 (2 ^ 53)) as [Hlt | Hle]; [exact Hlt | exfalso].
    assert (2 ^ 53 * P <= m1 * P) by nia.
    assert (2 ^ 53 * P = Zpos b * 2 ^ d) by (rewrite Hdn'; lia).
    assert (Zpos b * (q + 1) <= Zpos b * 2 ^ d) by nia.
    lia.
Qed.

Let m2 :=
  round_nearest_even m1
    (loc_of_shr_record (fst (shr_fexp prec emax q E (location_of r (Zpos b))))).
Let e1 := E + n.

Lemma m2_facts :
  m1 <= m2 <= m1 + 1
  /\ 2 * Z.abs (m2 * (Zpos b * 2 ^ n) - Zpos a * 2 ^ S) <= Zpos b * 2 ^ n
  /\ (Zpos a * 2 ^ S = m1 * (Zpos b * 2 ^ n) -> m2 = m1).
Proof.
  destruct first_shift as [Hlocated _]. exact (round_located Hlocated).
Qed.

Lemma SFdiv_whole :
  SFdiv prec emax (S754_finite sa a 0) (S754_finite sb b 0)
  = if m2 <? 2 ^ 53
    then (if e1 <=? 971 then S754_finite (xorb sa sb) (Z.to_pos m2) e1
          else S754_infinity (xorb sa sb))
    else (if e1 + 1 <=? 971 then S754_finite (xorb sa sb) (Z.to_pos (2 ^ 52)) (e1 + 1)
          else S754_infinity (xorb sa sb)).
Proof.
  cbn [SFdiv]. rewrite core_spec. unfold binary_round_aux.
  destruct first_shift as [_ He1]. destruct m2_facts as (Hm2 & _).
  destruct m1_bounds as [Hm1 _]. pose proof E_bounds as HE.
  destruct q_digits as [_ Hd].
  rewrite (surjective_pairing (shr_fexp prec emax q E (location_of r (Zpos b)))).
  cbv zeta in He1. rewrite He1. fold m1. fold m2. fold e1.
  rewrite second_shift; [| lia | unfold e1, n; lia].
  change (emax - prec) with 971.
  destruct (m2 <? 2 ^ 53) eqn:Hlt; cbn [shr_m].
  - assert (Hpos : 0 < m2) by (pose proof (@pow2_pos 52); lia).
    destruct m2 as [| p | p]; try lia. reflexivity.
  - reflexivity.
Qed.

Let m := if m2 <? 2 ^ 53 then m2 else 2 ^ 52.
Let e := if m2 <? 2 ^ 53 then e1 else e1 + 1.

Lemma n_nonneg : 0 <= n.
Proof. destruct q_digits as [_ Hd]. unfold n. lia. Qed.

Lemma e1_S : e1 + S = n.
Proof. unfold e1, S. lia. Qed.

Lemma final_cases :
  (m2 < 2 ^ 53 /\ m = m2 /\ e = e1) \/ (m2 = 2 ^ 53 /\ m = 2 ^ 52 /\ e = e1 + 1).
Proof.
  destruct m2_facts as (Hm2 & _). destruct m1_bounds as [Hm1 _].
  unfold m, e. destruct (m2 <? 2 ^ 53) eqn:Hlt.
  - apply Z.ltb_lt in Hlt. left. auto.
  - apply Z.ltb_ge in Hlt. right. split; [lia | auto].
Qed.

Lemma final_value : m * 2 ^ (e + S) = m2 * 2 ^ n.
Proof.
  pose proof n_nonneg as Hn. pose proof e1_S as He.
  destruct final_cases as [(_ & -> & ->) | (-> & -> & ->)].
  - rewrite He. reflexivity.
  - replace (e1 + 1 + S) with (n + 1) by lia.
    rewrite pow2_split by lia. change (2 ^ 53) with (2 ^ 52 * 2 ^ 1). ring.
Qed.

Lemma final_shape :
  SFdiv prec emax (S754_finite sa a 0) (S754_finite sb b 0)
  = (if e <=? 971 then S754_finite (xorb sa sb) (Z.to_pos m) e
     else S754_infinity (xorb sa sb))
  /\ 2 ^ 52 <= m < 2 ^ 53 /\ 0 <= e + S.
Proof.
  pose proof n_nonneg as Hn. pose proof e1_S as He.
  destruct m2_facts as (Hm2 & _). destruct m1_bounds as [Hm1 _].
  split; [| split].
  - rewrite SFdiv_whole. unfold m, e. destruct (m2 <? 2 ^ 53); reflexivity.
  - destruct final_cases as [(H & -> & _) | (_ & -> & _)]; [lia |].
    split; [lia | reflexivity].
  - destruct final_cases as [(_ & _ & ->) | (_ & _ & ->)]; lia.
Qed.

Lemma final_accuracy :
  Z.abs (m * 2 ^ (e + S) * Zpos b - Zpos a * 2 ^ S) * 2 ^ 53 <= Zpos a * 2 ^ S.
Proof.
  rewrite final_value.
  destruct m2_facts as (_ & Hhalf & _). destruct m1_bounds as [[Hm1 _] Hfloor].
  pose proof (pow2_pos n_nonneg) as Hpn.
  replace (m2 * 2 ^ n * Zpos b) with (m2 * (Zpos b * 2 ^ n)) by ring.
  set (P := Zpos b * 2 ^ n) in *. set (N := Zpos a * 2 ^ S) in *.
  assert (HP : 0 < P) by (unfold P; apply Z.mul_pos_pos; lia).
  assert (H52 : 2 ^ 52 * P <= m1 * P) by (apply Z.mul_le_mono_nonneg_r; lia).
  change (2 ^ 53) with (2 * 2 ^ 52).
  set (X := Z.abs (m2 * P - N)) in *.
  assert (HX : 2 * X * 2 ^ 52 <= P * 2 ^ 52) by (apply Z.mul_le_mono_nonneg_r; lia).
  lia.
Qed.

Lemma final_overflow : 971 < e -> Zpos b * (2 ^ 1024 - 2 ^ 970) <= Zpos a.
Proof.
  intros Hover. pose proof n_nonneg as Hn. pose proof e1_S as He.
  pose proof S_nonneg as HS. pose proof (pow2_pos HS) as HpS.
  pose proof (pow2_pos Hn) as Hpn.
  destruct m2_facts as (_ & Hhalf & _). destruct m1_bounds as [[Hm1 _] Hfloor].
  destruct final_cases as [(Hlt & _ & Heq) | (Hcarry & _ & Heq)]; rewrite Heq in Hover.
  - apply Z.le_trans with (Zpos b * (2 ^ 52 * 2 ^ 972)).
    { apply Z.mul_le_mono_nonneg_l; [lia | vm_compute; discriminate]. }
    apply (@scaled_lower (Zpos a) (Zpos b) (2 ^ 52) (2 ^ 972) (2 ^ (n - S - 972)) (2 ^ S));
      [pow_side | pow_side | pow_side | pow_side | pow_side |].
    rewrite <- !pow2_split by lia. replace (n - S - 972 + (972 + S)) with n by lia.
    apply Z.le_trans with (m1 * (Zpos b * 2 ^ n)); [| lia].
    apply Z.mul_le_mono_nonneg_r; [| lia].
    apply Z.mul_nonneg_nonneg; lia.
  - assert (H2 : Zpos b * (2 * (2 ^ 1024 - 2 ^ 970)) <= 2 * Zpos a); [| lia].
    change (2 * (2 ^ 1024 - 2 ^ 970)) with ((2 * 2 ^ 53 - 1) * 2 ^ 971).
    apply (@scaled_lower (2 * Zpos a) (Zpos b) (2 * 2 ^ 53 - 1) (2 ^ 971)
             (2 ^ (n - S - 971)) (2 ^ S));
      [pow_side | pow_side | pow_side | pow_side | pow_side |].
    rewrite <- !pow2_split by lia. replace (n - S - 971 + (971 + S)) with n by lia.
    rewrite Hcarry in Hhalf.
    replace (2 * Zpos a * 2 ^ S) with (2 * (Zpos a * 2 ^ S)) by ring.
    set (P := Zpos b * 2 ^ n) in *. set (N := Zpos a * 2 ^ S) in *.
    set (c := 2 ^ 53) in *. clearbody c P N. lia.
Qed.

Lemma final_finite : e <= 971 -> Zpos a <= Zpos b * (2 ^ 1024 - 2 ^ 970).
Proof.
  intros Hfinite. pose proof n_nonneg as Hn. pose proof e1_S as He.
  pose proof S_nonneg as HS. pose proof (pow2_pos HS) as HpS.
  pose proof (pow2_pos Hn) as Hpn.
  destruct m2_facts as (Hm2 & Hhalf & _). destruct m1_bounds as [[Hm1 Hm1'] Hfloor].
  assert (H2 : 2 * Zpos a <= Zpos b * (2 * (2 ^ 1024 - 2 ^ 970))); [| lia].
  destruct final_cases as [(Hlt & _ & Heq) | (Hcarry & _ & Heq)]; rewrite Heq in Hfinite.
  - change (2 * (2 ^ 1024 - 2 ^ 970)) with ((2 * 2 ^ 53 - 1) * 2 ^ 971).
    apply (@scaled_upper (2 * Zpos a) (Zpos b) (2 * 2 ^ 53 - 1) (2 ^ 971)
             (2 ^ (971 + S - n)) (2 ^ S) (2 ^ n));
      [pow_side | pow_side | pow_side | pow_side | pow_side | |].
    + rewrite <- !pow2_split by lia. f_equal. lia.
    + apply Z.le_trans with ((2 * m2 + 1) * (Zpos b * 2 ^ n)).
      * replace (2 * Zpos a * 2 ^ S) with (2 * (Zpos a * 2 ^ S)) by ring.
        set (P := Zpos b * 2 ^ n) in *. set (N := Zpos a * 2 ^ S) in *.
        clearbody P N. lia.
      * apply Z.mul_le_mono_nonneg_r; [| lia].
        apply Z.mul_nonneg_nonneg; lia.
  - apply Z.le_trans with (Zpos b * ((2 * 2 ^ 53 + 1) * 2 ^ 970)).
    + apply (@scaled_upper (2 * Zpos a) (Zpos b) (2 * 2 ^ 53 + 1) (2 ^ 970)
               (2 ^ (970 + S - n)) (2 ^ S) (2 ^ n));
        [pow_side | pow_side | pow_side | pow_side | pow_side | |].
      * rewrite <- !pow2_split by lia. f_equal. lia.
      * rewrite Hcarry in Hhalf.
        replace (2 * Zpos a * 2 ^ S) with (2 * (Zpos a * 2 ^ S)) by ring.
        set (P := Zpos b * 2 ^ n) in *. set (N := Zpos a * 2 ^ S) in *.
        set (c := 2 ^ 53) in *. clearbody c P N. lia.
    + apply Z.mul_le_mono_nonneg_l; [lia | vm_compute; discriminate].
Qed.

Lemma final_exact (k : Z) :
  Zpos a = k * Zpos b -> k < 2 ^ 53 -> m * 2 ^ (e + S) = k * 2 ^ S.
Proof.
  intros Hk Hk53. rewrite final_value.
  pose proof n_nonneg as Hn. pose proof S_nonneg as HS.
  pose proof (pow2_pos HS) as HpS. pose proof (pow2_pos Hn) as Hpn.
  destruct q_digits as [[Hq _] Hd].
  destruct m2_facts as (_ & _ & Hexact). destruct m1_bounds as [_ Hfloor].
  assert (Hqk : q = k * 2 ^ S).
  { unfold q. rewrite Hk.
    replace (k * Zpos b * 2 ^ S) with (k * 2 ^ S * Zpos b) by ring.
    apply Z.div_mul. lia. }
  assert (HnS : n <= S).
  { destruct (Z_le_gt_dec n S) as [Hle | Hgt]; [exact Hle | exfalso].
    assert (H : 2 ^ (53 + S) <= 2 ^ (d - 1))
      by (apply Z.pow_le_mono_r; unfold n in *; lia).
    rewrite pow2_split in H by lia.
    assert (k * 2 ^ S < 2 ^ 53 * 2 ^ S) by (apply Z.mul_lt_mono_pos_r; lia).
    lia. }
  assert (Hpow : 2 ^ S = 2 ^ (S - n) * 2 ^ n).
  { rewrite <- pow2_split by lia. f_equal. lia. }
  assert (HK : 0 < 2 ^ (S - n)) by (apply pow2_pos; lia).
  assert (HN : Zpos a * 2 ^ S = (k * 2 ^ (S - n)) * (Zpos b * 2 ^ n)).
  { rewrite Hk, Hpow. ring. }
  assert (Hm1 : m1 = k * 2 ^ (S - n)).
  { rewrite HN in Hfloor.
    set (P := Zpos b * 2 ^ n) in *.
    assert (HP : 0 < P) by (unfold P; apply Z.mul_pos_pos; lia).
    set (M := k * 2 ^ (S - n)) in *. clearbody M P. nia. }
  rewrite Hexact by (rewrite Hm1; exact HN).
  rewrite Hm1, Hpow. ring.
Qed.

(** The quotient of two whole numbers: a float with a mantissa of 53 digits
    within half a unit in the last place of [a / b] (scaled by [2 ^ S'] to
    stay among the integers), the quotient itself when it is whole and
    below [2^53], and an infinity exactly from the rounding boundary of the
    largest float on. *)
Lemma SFdiv_rounds :
  exists m e S' : Z,
    SFdiv prec emax (S754_finite sa a 0) (S754_finite sb b 0)
    = (if e <=? 971 then S754_finite (xorb sa sb) (Z.to_pos m) e
       else S754_infinity (xorb sa sb))
    /\ 2 ^ 52 <= m < 2 ^ 53
    /\ 0 <= S' /\ 0 <= e + S'
    /\ Z.abs (m * 2 ^ (e + S') * Zpos b - Zpos a * 2 ^ S') * 2 ^ 53 <= Zpos a * 2 ^ S'
    /\ (971 < e -> Zpos b * (2 ^ 1024 - 2 ^ 970) <= Zpos a)
    /\ (e <= 971 -> Zpos a <= Zpos b * (2 ^ 1024 - 2 ^ 970))
    /\ (forall k, Zpos a = k * Zpos b -> k < 2 ^ 53 -> m * 2 ^ (e + S') = k * 2 ^ S').
Proof.
  exists m, e, S.
  destruct final_shape as (H1 & H2 & H3).
  split; [exact H1 |]. split; [exact H2 |]. split; [exact S_nonneg |].
  split; [exact H3 |]. split; [exact final_accuracy |].
  split; [exact final_overflow |]. split; [exact final_finite |].
  exact final_exact.
Qed.

End Division.

End Rounding.

(** *** The quotient as a rational number *)

Section Quotients.

Local Open Scope Q_scope.

(** Powers of two among the rationals and the integers. *)
Lemma two_power_Z (k : Z) : (0 <= k)%Z -> 2 ^ k == inject_Z (2 ^ k).
Proof. intros H. rewrite (Zpower_Qpower 2 k H). reflexivity. Qed.

Lemma scaled_value (m e S : Z) :
  (0 <= S)%Z -> (0 <= e + S)%Z ->
  inject_Z m * 2 ^ e * inject_Z (2 ^ S) == inject_Z (m * 2 ^ (e + S)).
Proof.
  intros HS HeS. rewrite inject_Z_mult, <- (two_power_Z HS), <- (two_power_Z HeS).
  rewrite Qpower_plus by discriminate. ring.
Qed.

(** The bound of [SFdiv_rounds] read off the rationals: the relative
    distance to [a / b] is at most [2^-53]. *)
Lemma Q_accuracy (m e S a b : Z) :
  (0 < b)%Z -> (0 <= S)%Z -> (0 <= e + S)%Z ->
  (Z.abs (m * 2 ^ (e + S) * b - a * 2 ^ S) * 2 ^ 53 <= a * 2 ^ S)%Z ->
  Qabs (inject_Z m * 2 ^ e - inject_Z a / inject_Z b) * inject_Z (2 ^ 53)
  <= inject_Z a / inject_Z b.
Proof.
  intros Hb HS HeS H.
  assert (HbQ : 0 < inject_Z b).
  { change 0 with (inject_Z 0). rewrite <- Zlt_Qlt. exact Hb. }
  assert (Hbne : ~ inject_Z b == 0) by (intros E; rewrite E in HbQ; discriminate HbQ).
  assert (HpS : 0 < inject_Z (2 ^ S)).
  { change 0 with (inject_Z 0). rewrite <- Zlt_Qlt. apply Z.pow_pos_nonneg; lia. }
  set (P := inject_Z b * inject_Z (2 ^ S)).
  assert (HP : 0 < P) by (apply Qmult_lt_0_compat; assumption).
  assert (HX : (inject_Z m * 2 ^ e - inject_Z a / inject_Z b) * P
               == inject_Z (m * 2 ^ (e + S) * b - a * 2 ^ S)).
  { unfold Z.sub. rewrite inject_Z_plus, inject_Z_opp, !inject_Z_mult.
    rewrite <- (@scaled_value m e S HS HeS). unfold P. field. exact Hbne. }
  apply (Qmult_le_r _ _ P HP).
  assert (Hleft : Qabs (inject_Z m * 2 ^ e - inject_Z a / inject_Z b) * inject_Z (2 ^ 53) * P
                  == inject_Z (Z.abs (m * 2 ^ (e + S) * b - a * 2 ^ S) * 2 ^ 53)).
  { rewrite inject_Z_mult.
    change (inject_Z (Z.abs (m * 2 ^ (e + S) * b - a * 2 ^ S)))
      with (Qabs (inject_Z (m * 2 ^ (e + S) * b - a * 2 ^ S))).
    rewrite <- HX, Qabs_Qmult, (Qabs_pos P) by (apply Qlt_le_weak; exact HP). ring. }
  assert (Hright : inject_Z a / inject_Z b * P == inject_Z (a * 2 ^ S)).
  { rewrite inject_Z_mult. unfold P. field. exact Hbne. }
  rewrite Hleft, Hright. rewrite <- Zle_Qle. exact H.
Qed.

Lemma Q_exact (m e S k : Z) :
  (0 <= S)%Z -> (0 <= e + S)%Z ->
  (m * 2 ^ (e + S) = k * 2 ^ S)%Z ->
  inject_Z m * 2 ^ e == inject_Z k.
Proof.
  intros HS HeS H.
  assert (HpS : 0 < inject_Z (2 ^ S)).
  { change 0 with (inject_Z 0). rewrite <- Zlt_Qlt. apply Z.pow_pos_nonneg; lia. }
  assert (Hne : ~ inject_Z (2 ^ S) == 0) by (intros E; rewrite E in HpS; discriminate HpS).
  apply (Qmult_inj_r _ _ (inject_Z (2 ^ S)) Hne).
  rewrite (@scaled_value m e S HS HeS), H, inject_Z_mult. reflexivity.
Qed.

(** The number of a finite float built from a mantissa. *)
Lemma number_finite (s : bool) (m e : Z) :
  (0 < m)%Z ->
  number (S754_finite s (Z.to_pos m) e)
  == (if s then - (inject_Z m * 2 ^ e) else inject_Z m * 2 ^ e).
Proof.
  intros Hm. unfold number. destruct s.
  - change (Zneg (Z.to_pos m)) with (- Zpos (Z.to_pos m))%Z.
    rewrite Z2Pos.id by exact Hm. rewrite inject_Z_opp. ring.
  - rewrite Z2Pos.id by exact Hm. reflexivity.
Qed.

(** [T / 1000] for a timeout that is not zero. *)
Lemma true_divide_pos (s : bool) (a : BinNums.positive) :
  let T := if s then Zneg a else Zpos a in
  match true_divide T 1000 with
  | inr x =>
      is_finite x = true
      /\ Qabs (number x - (T # 1000)) * inject_Z (2 ^ 53) <= Qabs (T # 1000)
      /\ (Z.abs T <= 1000 * (2 ^ 1024 - 2 ^ 970))%Z
      /\ (forall k, T = (1000 * k)%Z -> (Z.abs k < 2 ^ 53)%Z -> number x == inject_Z k)
  | inl exc => exc = OverflowError /\ (1000 * (2 ^ 1024 - 2 ^ 970) <= Z.abs T)%Z
  end.
Proof.
  intros T.
  assert (Hrange : (-1021 <= Zpos (digits2_pos a) - Zpos (digits2_pos 1000))%Z).
  { change (digits2_pos 1000) with 10%positive. lia. }
  destruct (SFdiv_rounds a 1000 s false Hrange)
    as (m & e & S' & Hdiv & Hm & HS & HeS & Hacc & Hover & Hfin & Hex).
  assert (Habs : Z.abs T = Zpos a) by (unfold T; destruct s; reflexivity).
  assert (Hexact : exact T = S754_finite s a 0) by (unfold T; destruct s; reflexivity).
  unfold true_divide. change (1000 =? 0)%Z with false. cbv iota.
  rewrite Hexact. change (exact 1000) with (S754_finite false 1000 0).
  rewrite Hdiv. rewrite xorb_false_r.
  destruct (e <=? 971)%Z eqn:He.
  - apply Z.leb_le in He.
    assert (Hquot : (T # 1000) == (if s then - (inject_Z (Zpos a) / inject_Z 1000)
                                   else inject_Z (Zpos a) / inject_Z 1000)).
    { rewrite Qmake_Qdiv. unfold T. destruct s; [| reflexivity].
      change (Zneg a) with (- Zpos a)%Z. rewrite inject_Z_opp. field. }
    assert (Hpos : 0 <= inject_Z (Zpos a) / inject_Z 1000).
    { apply Qle_shift_div_l; [reflexivity |]. rewrite Qmult_0_l.
      change 0 with (inject_Z 0). rewrite <- Zle_Qle. lia. }
    assert (Hdiff : Qabs (number (S754_finite s (Z.to_pos m) e) - (T # 1000))
                    == Qabs (inject_Z m * 2 ^ e - inject_Z (Zpos a) / inject_Z 1000)).
    { rewrite number_finite by lia. rewrite Hquot. destruct s; [| reflexivity].
      rewrite <- (Qabs_opp (inject_Z m * 2 ^ e - inject_Z (Zpos a) / inject_Z 1000)).
      apply Qabs_wd. ring. }
    assert (Hsize : Qabs (T # 1000) == inject_Z (Zpos a) / inject_Z 1000).
    { rewrite Hquot. destruct s.
      - rewrite Qabs_opp. apply Qabs_pos. exact Hpos.
      - apply Qabs_pos. exact Hpos. }
    split; [reflexivity |]. split; [| split].
    + rewrite Hdiff, Hsize. apply (@Q_accuracy m e S' (Zpos a) 1000); try assumption. lia.
    + rewrite Habs. apply Hfin. exact He.
    + intros k Hk Hsmall. rewrite number_finite by lia.
      assert (Hk' : Zpos a = (Z.abs k * 1000)%Z) by lia.
      pose proof (Hex (Z.abs k) Hk' Hsmall) as Hscaled.
      pose proof (@Q_exact m e S' (Z.abs k) HS HeS Hscaled) as Hq.
      unfold T in Hk. destruct s; rewrite Hq.
      * replace k with (- Z.abs k)%Z at 2 by lia. rewrite inject_Z_opp. reflexivity.
      * replace k with (Z.abs k) at 2 by lia. reflexivity.
  - apply Z.leb_gt in He. split; [reflexivity |]. rewrite Habs. apply Hover. exact He.
Qed.

(** At the rounding boundary of the largest float the quotient is carried
    up, beyond the floats. *)
Lemma true_divide_boundary :
  true_divide (1000 * (2 ^ 1024 - 2 ^ 970)) 1000 = inl OverflowError
  /\ true_divide (- (1000 * (2 ^ 1024 - 2 ^ 970))) 1000 = inl OverflowError.
Proof. split; vm_compute; reflexivity. Qed.

(** [T / 1000] in Python: a finite float within a relative distance of
    [2^-53] of the quotient, exact on whole seconds below [2^53], when [T]
    is below [1000 * (2^1024 - 2^970)] in absolute value, and an
    [OverflowError] from there on. *)
Lemma true_divide_1000 (T : Z) :
  match true_divide T 1000 with
  | inr x =>
      is_finite x = true
      /\ Qabs (number x - (T # 1000)) * inject_Z (2 ^ 53) <= Qabs (T # 1000)
      /\ (Z.abs T < 1000 * (2 ^ 1024 - 2 ^ 970))%Z
      /\ (forall k, T = (1000 * k)%Z -> (Z.abs k < 2 ^ 53)%Z -> number x == inject_Z k)
  | inl exc => exc = OverflowError /\ (1000 * (2 ^ 1024 - 2 ^ 970) <= Z.abs T)%Z
  end.
Proof.
  assert (H : match true_divide T 1000 with
              | inr x =>
                  is_finite x = true
                  /\ Qabs (number x - (T # 1000)) * inject_Z (2 ^ 53) <= Qabs (T # 1000)
                  /\ (Z.abs T <= 1000 * (2 ^ 1024 - 2 ^ 970))%Z
                  /\ (forall k, T = (1000 * k)%Z -> (Z.abs k < 2 ^ 53)%Z ->
                                number x == inject_Z k)
              | inl exc =>
                  exc = OverflowError /\ (1000 * (2 ^ 1024 - 2 ^ 970) <= Z.abs T)%Z
              end).
  { destruct T as [| a | a].
    - change (true_divide 0 1000) with (inr (S754_zero false) : Exn + float).
      split; [reflexivity |]. split; [| split].
      + cbn [number]. apply Qle_refl.
      + cbn [Z.abs]. assert (2 ^ 970 < 2 ^ 1024)%Z by (apply Z.pow_lt_mono_r; lia). lia.
      + intros k Hk _. assert (k = 0%Z) by lia. subst k. reflexivity.
    - exact (true_divide_pos false a).
    - exact (true_divide_pos true a). }
  destruct (true_divide T 1000) as [exc | x] eqn:Hdiv; [exact H |].
  destruct H as (Hfinite & Hnear & Hrange & Hexact).
  repeat split; try assumption.
  destruct true_divide_boundary as [Hplus Hminus].
  set (B := (1000 * (2 ^ 1024 - 2 ^ 970))%Z) in *.
  destruct (Z.eq_dec T B) as [-> | Hne1]; [congruence |].
  destruct (Z.eq_dec T (- B)) as [-> | Hne2]; [congruence |].
  lia.
Qed.

End Quotients.

(* ===================================================================== *)
(** ** Check aggregation: proofs *)
(* ===================================================================== *)

Section ChecksFacts.

Variables (case : Case) (response : Response).

Lemma with_checks_same (r : TestResult) : with_checks r (checks r) = r.
Proof. destruct r; reflexivity. Qed.

Lemma with_checks_twice (r : TestResult) (a b : list Check) :
  with_checks (with_checks r a) b = with_checks r b.
Proof. reflexivity. Qed.

(** The loop, when every predicate returns or asserts: it runs to the end
    and extends each of the four lists by what the predicates contribute. *)
Lemma run_checks_loop_spec (checks : list CheckFunction) :
  Forall (returns_or_asserts response case) checks ->
  forall st,
    run_checks_loop case response checks st =
    ({| cs_errors := cs_errors st ++ flat_map (complaints response case) checks;
        cs_result := with_checks (cs_result st)
                       (Models.checks (cs_result st)
                          ++ flat_map (recorded response case) checks);
        cs_check_results := cs_check_results st
                              ++ flat_map (recorded response case) checks;
        cs_invoked := cs_invoked st
                        ++ map (fun check => (__name__ check, response, case)) checks |},
     Normal).
Proof.
  induction 1 as [| check rest Hcheck _ IH]; intros st.
  - simpl. rewrite !app_nil_r, with_checks_same. destruct st; reflexivity.
  - cbn [run_checks_loop flat_map map].
    unfold recorded at 1 3, complaints at 1.
    destruct (call check response case) as [[|]|msg|exc] eqn:E.
    + cbn [negb]. rewrite IH. cbn [cs_errors cs_result cs_check_results cs_invoked].
      rewrite <- !app_assoc. reflexivity.
    + cbn [negb]. rewrite IH. cbn [cs_errors cs_result cs_check_results cs_invoked].
      unfold add_success. rewrite with_checks_twice. cbn [checks with_checks].
      rewrite <- !app_assoc. reflexivity.
    + rewrite IH. cbn [cs_errors cs_result cs_check_results cs_invoked].
      unfold add_failure, failure_message. rewrite with_checks_twice.
      cbn [checks with_checks]. rewrite <- !app_assoc. reflexivity.
    + exfalso. exact (Hcheck exc E).
Qed.

Lemma response_time_check_spec (elapsed_time : float) (max_response_time : option Z)
    (st : ChecksState) :
  let st' := response_time_check case elapsed_time max_response_time st in
  checks (cs_result st') =
    checks (cs_result st) ++ synthetic case elapsed_time max_response_time
  /\ cs_check_results st' = cs_check_results st
  /\ cs_invoked st' = cs_invoked st
  /\ interactions (cs_result st') = interactions (cs_result st)
  /\ (cs_errors st' = [] <->
      cs_errors st = [] /\
      Forall (fun c => value c = success) (synthetic case elapsed_time max_response_time)).
Proof.
  unfold response_time_check, synthetic, truthy.
  destruct max_response_time as [limit|]; cbn zeta.
  - destruct (limit =? 0)%Z; cbn [negb].
    + rewrite app_nil_r. intuition.
    + destruct (gt_int elapsed_time limit);
        cbn [cs_result cs_check_results cs_invoked cs_errors add_success add_failure
             with_checks checks interactions].
      * split; [reflexivity |]. do 3 (split; [reflexivity |]). split.
        -- intros He. destruct (cs_errors st); discriminate He.
        -- intros [_ Hs]. inversion Hs as [| ? ? Hv _]. discriminate Hv.
      * split; [reflexivity |]. do 3 (split; [reflexivity |]). split.
        -- intros He. split; [exact He | repeat constructor].
        -- intros [He _]; exact He.
  - rewrite app_nil_r. intuition.
Qed.

(** [run_checks] when every predicate returns or asserts: the loop state
    goes through the response-time block, and the call raises the grouped
    failure exactly when some message was collected. *)
Lemma run_checks_unfold (checks : list CheckFunction) (check_results : list Check)
    (result : TestResult) (elapsed_time : float) (max_response_time : option Z) :
  Forall (returns_or_asserts response case) checks ->
  run_checks case checks check_results result response elapsed_time max_response_time =
  let st2 :=
    response_time_check case elapsed_time max_response_time
      {| cs_errors := flat_map (complaints response case) checks;
         cs_result := with_checks result
                        (Models.checks result ++ flat_map (recorded response case) checks);
         cs_check_results := check_results ++ flat_map (recorded response case) checks;
         cs_invoked := map (fun check => (__name__ check, response, case)) checks |} in
  (st2,
   match cs_errors st2 with
   | [] => Normal
   | _ :: _ => Raised (get_grouped_exception (verbose_name (case_endpoint case))
                         (cs_errors st2))
   end).
Proof.
  intros Hchecks. unfold run_checks.
  rewrite (run_checks_loop_spec Hchecks).
  cbn [cs_errors cs_result cs_check_results cs_invoked app]. cbn zeta.
  destruct (cs_errors (response_time_check _ _ _ _)); reflexivity.
Qed.

(** The lists [run_checks] leaves behind, under the same assumption. *)
Lemma run_checks_lists (checks : list CheckFunction) (check_results : list Check)
    (result : TestResult) (elapsed_time : float) (max_response_time : option Z) :
  Forall (returns_or_asserts response case) checks ->
  let st := fst (run_checks case checks check_results result response
                   elapsed_time max_response_time) in
  Models.checks (cs_result st) =
    Models.checks result ++ flat_map (recorded response case) checks
      ++ synthetic case elapsed_time max_response_time
  /\ cs_check_results st = check_results ++ flat_map (recorded response case) checks
  /\ cs_invoked st = map (fun check => (__name__ check, response, case)) checks
  /\ interactions (cs_result st) = interactions result.
Proof.
  intros Hchecks. rewrite (run_checks_unfold _ _ _ _ Hchecks). cbn zeta. cbn [fst].
  match goal with
  | |- context [response_time_check ?c ?e ?m ?s] =>
      destruct (response_time_check_spec e m s) as (H1 & H2 & H3 & H4 & _)
  end.
  rewrite H1, H2, H3, H4.
  cbn [cs_result cs_check_results cs_invoked with_checks Models.checks interactions].
  rewrite <- app_assoc. auto.
Qed.

Lemma synthetic_length (elapsed_time : float) (max_response_time : option Z) :
  (List.length (synthetic case elapsed_time max_response_time) <= 1)%nat.
Proof.
  unfold synthetic. destruct max_response_time as [limit|]; simpl; [| lia].
  destruct (limit =? 0)%Z; simpl; [lia |].
  destruct (gt_int elapsed_time limit); simpl; lia.
Qed.

Lemma synthetic_names (elapsed_time : float) (max_response_time : option Z) :
  Forall (fun c => name c = "max_response_time")
    (synthetic case elapsed_time max_response_time).
Proof.
  unfold synthetic. destruct max_response_time as [limit|]; simpl; [| constructor].
  destruct (limit =? 0)%Z; simpl; [constructor |].
  destruct (gt_int elapsed_time limit); repeat constructor.
Qed.

Lemma recorded_length (check : CheckFunction) :
  List.length (recorded response case check)
  = if skips response case check then 0%nat
    else match call check response case with RaisedOther _ => 0%nat | _ => 1%nat end.
Proof.
  unfold recorded, skips.
  destruct (call check response case) as [[|]|msg|exc]; reflexivity.
Qed.

End ChecksFacts.

(* ===================================================================== *)
(** ** Check aggregation: the claims *)
(* ===================================================================== *)

Lemma last_check_app (cs : list Check) (c : Check) :
  last_check (cs ++ [c]) = Some c.
Proof.
  unfold last_check. rewrite length_app. cbn [List.length].
  rewrite Nat.add_1_r. cbn [Nat.pred].
  rewrite nth_error_app2 by lia. rewrite Nat.sub_diag. reflexivity.
Qed.

Lemma synthetic_configured (case : Case) (elapsed_time : float) (max_response_time : option Z) :
  truthy max_response_time = true ->
  exists entry,
    synthetic case elapsed_time max_response_time = [entry]
    /\ name entry = "max_response_time".
Proof.
  unfold truthy, synthetic. destruct max_response_time as [limit|]; [| discriminate].
  destruct (limit =? 0)%Z; [discriminate |]. intros _.
  destruct (gt_int elapsed_time limit); eexists; split; reflexivity.
Qed.

(** C4.  In a call to [run_checks] whose predicates return or raise an
    assertion, the predicates are invoked one after the other, each exactly
    once and with [(response, case)], whatever the earlier ones did; and
    when a response-time budget is configured (the [if max_response_time:]
    test passes), the entry named [max_response_time] is the last Check
    the call records on the TestResult. *)
Theorem C4_checks_all_invoked_response_time_last :
  forall (case : Case) (checks : list CheckFunction) (check_results : list Check)
         (result : TestResult) (response : Response) (elapsed_time : float)
         (max_response_time : option Z),
    Forall (returns_or_asserts response case) checks ->
    let st := fst (run_checks case checks check_results result response
                     elapsed_time max_response_time) in
    cs_invoked st = map (fun check => (__name__ check, response, case)) checks
    /\ (truthy max_response_time = true ->
        exists entry,
          name entry = "max_response_time"
          /\ Models.checks (cs_result st) =
               Models.checks result ++ flat_map (recorded response case) checks ++ [entry]
          /\ last_check (Models.checks (cs_result st)) = Some entry).
Proof.
  intros case checks check_results result response elapsed_time max_response_time Hchecks st.
  destruct (run_checks_lists check_results result elapsed_time max_response_time Hchecks)
    as (Hrecorded & _ & Hinvoked & _).
  fold st in Hrecorded, Hinvoked. split; [exact Hinvoked |].
  intros Hconfigured.
  destruct (synthetic_configured case elapsed_time max_response_time Hconfigured)
    as (entry & Hentry & Hname).
  exists entry. rewrite Hentry in Hrecorded. split; [exact Hname |].
  split; [exact Hrecorded |].
  rewrite Hrecorded, app_assoc. apply last_check_app.
Qed.

Lemma C4_witness :
  Forall (returns_or_asserts Samples.slow_ok Samples.first_case)
    [Samples.passing; Samples.failing; Samples.skipping]
  /\ truthy (Some 100%Z) = true
  /\ let st := fst (run_checks Samples.first_case
                      [Samples.passing; Samples.failing; Samples.skipping] []
                      Samples.fresh_result Samples.slow_ok (of_int 150) (Some 100%Z)) in
     cs_invoked st =
       [("not_a_server_error", Samples.slow_ok, Samples.first_case);
        ("status_code_conformance", Samples.slow_ok, Samples.first_case);
        ("response_schema_conformance", Samples.slow_ok, Samples.first_case)]
     /\ exists entry,
         name entry = "max_response_time"
         /\ Models.checks (cs_result st) =
              Models.checks Samples.fresh_result
                ++ flat_map (recorded Samples.slow_ok Samples.first_case)
                     [Samples.passing; Samples.failing; Samples.skipping]
                ++ [entry]
         /\ last_check (Models.checks (cs_result st)) = Some entry.
Proof.
  assert (H : Forall (returns_or_asserts Samples.slow_ok Samples.first_case)
                [Samples.passing; Samples.failing; Samples.skipping])
    by (repeat constructor; intros exc; simpl; discriminate).
  split; [exact H |]. split; [reflexivity |].
  destruct (@C4_checks_all_invoked_response_time_last Samples.first_case
              [Samples.passing; Samples.failing; Samples.skipping] []
              Samples.fresh_result Samples.slow_ok (of_int 150) (Some 100%Z) H)
    as [Hinvoked Hlast].
  split; [exact Hinvoked | exact (Hlast eq_refl)].
Defined.

(** C5, as stated, fails: a predicate that returns a truthy value is
    invoked and leaves the recorded Check list as it was, so the number of
    entries is not one per predicate. *)
Lemma C5_counterexample :
  let st := fst (run_checks Samples.first_case [Samples.skipping] []
                   Samples.fresh_result Samples.slow_ok (of_int 150) None) in
  cs_invoked st = [("response_schema_conformance", Samples.slow_ok, Samples.first_case)]
  /\ Models.checks (cs_result st) = Models.checks Samples.fresh_result
  /\ ~ (exists extra : list Check,
          (List.length extra <= 1)%nat /\
          List.length (Models.checks (cs_result st)) =
            (List.length (Models.checks Samples.fresh_result)
             + List.length [Samples.skipping] + List.length extra)%nat).
Proof.
  cbv zeta. split; [reflexivity |]. split; [reflexivity |].
  intros (extra & _ & H). vm_compute in H. lia.
Qed.

(** C5, amended.  A call to [run_checks] whose predicates return or raise
    an assertion records, in order, exactly one Check entry for every
    predicate that returns a falsy value (a success) or raises an
    assertion (a failure), and none for a predicate that returns a truthy
    value; after them comes at most one entry, named [max_response_time]. *)
Theorem C5_one_entry_per_unskipped_check :
  forall (case : Case) (checks : list CheckFunction) (check_results : list Check)
         (result : TestResult) (response : Response) (elapsed_time : float)
         (max_response_time : option Z),
    Forall (returns_or_asserts response case) checks ->
    let st := fst (run_checks case checks check_results result response
                     elapsed_time max_response_time) in
    exists extra : list Check,
      Models.checks (cs_result st) =
        Models.checks result ++ flat_map (recorded response case) checks ++ extra
      /\ (List.length extra <= 1)%nat
      /\ Forall (fun c => name c = "max_response_time") extra
      /\ Forall (fun check =>
                   List.length (recorded response case check)
                   = if skips response case check then 0%nat else 1%nat) checks
      /\ List.length (flat_map (recorded response case) checks)
         = List.length (filter (fun check => negb (skips response case check)) checks).
Proof.
  intros case checks check_results result response elapsed_time max_response_time Hchecks st.
  destruct (run_checks_lists check_results result elapsed_time max_response_time Hchecks)
    as (Hrecorded & _).
  fold st in Hrecorded.
  exists (synthetic case elapsed_time max_response_time).
  split; [exact Hrecorded |].
  split; [apply synthetic_length |].
  split; [apply synthetic_names |].
  assert (Hone : Forall (fun check =>
                   List.length (recorded response case check)
                   = if skips response case check then 0%nat else 1%nat) checks).
  { clear Hrecorded st. induction Hchecks as [| check rest Hcheck _ IH]; constructor; auto.
    rewrite recorded_length. unfold returns_or_asserts in Hcheck.
    destruct (skips response case check); [reflexivity |].
    destruct (call check response case) as [b|msg|exc] eqn:E; try reflexivity.
    exfalso. exact (Hcheck exc eq_refl). }
  split; [exact Hone |].
  clear Hrecorded st Hchecks.
  induction Hone as [| check rest Hlen _ IH]; [reflexivity |].
  cbn [flat_map filter]. rewrite length_app, Hlen, IH.
  destruct (skips response case check); reflexivity.
Qed.

Lemma C5_witness :
  Forall (returns_or_asserts Samples.slow_ok Samples.first_case)
    [Samples.passing; Samples.skipping; Samples.failing]
  /\ exists extra : list Check,
      Models.checks (cs_result (fst (run_checks Samples.first_case
                                       [Samples.passing; Samples.skipping; Samples.failing] []
                                       Samples.fresh_result Samples.slow_ok (of_int 150) None))) =
        Models.checks Samples.fresh_result
          ++ flat_map (recorded Samples.slow_ok Samples.first_case)
               [Samples.passing; Samples.skipping; Samples.failing] ++ extra
      /\ (List.length extra <= 1)%nat
      /\ Forall (fun c => name c = "max_response_time") extra
      /\ Forall (fun check =>
                   List.length (recorded Samples.slow_ok Samples.first_case check)
                   = if skips Samples.slow_ok Samples.first_case check then 0%nat else 1%nat)
           [Samples.passing; Samples.skipping; Samples.failing]
      /\ List.length (flat_map (recorded Samples.slow_ok Samples.first_case)
                        [Samples.passing; Samples.skipping; Samples.failing])
         = List.length (filter (fun check => negb (skips Samples.slow_ok Samples.first_case check))
                          [Samples.passing; Samples.skipping; Samples.failing]).
Proof.
  assert (H : Forall (returns_or_asserts Samples.slow_ok Samples.first_case)
                [Samples.passing; Samples.skipping; Samples.failing])
    by (repeat constructor; intros exc; simpl; discriminate).
  split; [exact H |].
  exact (@C5_one_entry_per_unskipped_check Samples.first_case
           [Samples.passing; Samples.skipping; Samples.failing] []
           Samples.fresh_result Samples.slow_ok (of_int 150) None H).
Defined.

(** C8.  In a call to [run_checks] with a configured budget of [B] ms (the
    [if max_response_time:] test passes, so [B] is not zero) and an elapsed
    time of [E] ms, whose predicates return or raise an assertion, the
    entry recorded after the predicates' entries is the failing
    [max_response_time] Check with the message "Response time exceeded the
    limit of <B> ms" if and only if [E > B], and the successful
    [max_response_time] Check otherwise.  [E] is a float and [B] an [int]:
    the two numbers are compared as they are. *)
Theorem C8_response_time_failure_iff_exceeded :
  forall (case : Case) (checks : list CheckFunction) (check_results : list Check)
         (result : TestResult) (response : Response) (E : float) (B : Z),
    Forall (returns_or_asserts response case) checks ->
    B <> 0%Z ->
    let st := fst (run_checks case checks check_results result response E (Some B)) in
    exists entry,
      Models.checks (cs_result st) =
        Models.checks result ++ flat_map (recorded response case) checks ++ [entry]
      /\ (entry = response_time_failure case B <-> exceeds E B)
      /\ (entry = response_time_success case <-> ~ exceeds E B)
      /\ message (response_time_failure case B)
         = Some ("Response time exceeded the limit of " ++ str B ++ " ms")%string.
Proof.
  intros case checks check_results result response E B Hchecks HB st.
  destruct (run_checks_lists check_results result E (Some B) Hchecks) as (Hrecorded & _).
  fold st in Hrecorded. unfold synthetic in Hrecorded.
  apply Z.eqb_neq in HB. rewrite HB in Hrecorded.
  destruct (gt_int E B) eqn:Hgt.
  - exists (response_time_failure case B). split; [exact Hrecorded |].
    apply gt_int_spec in Hgt.
    split; [| split; [| reflexivity]].
    + split; [intros _; exact Hgt | reflexivity].
    + split; [discriminate | intros H; exfalso; exact (H Hgt)].
  - exists (response_time_success case). split; [exact Hrecorded |].
    assert (Hnot : ~ exceeds E B).
    { intros H. apply gt_int_spec in H. congruence. }
    split; [| split; [| reflexivity]].
    + split; [discriminate |]. intros H. exfalso. exact (Hnot H).
    + split; [intros _; exact Hnot | reflexivity].
Qed.

Lemma C8_witness :
  Forall (returns_or_asserts Samples.slow_ok Samples.first_case) [Samples.passing]
  /\ 100%Z <> 0%Z
  /\ exists entry,
      Models.checks (cs_result (fst (run_checks Samples.first_case [Samples.passing] []
                                       Samples.fresh_result Samples.slow_ok (of_int 150)
                                       (Some 100%Z)))) =
        Models.checks Samples.fresh_result
          ++ flat_map (recorded Samples.slow_ok Samples.first_case) [Samples.passing]
          ++ [entry]
      /\ (entry = response_time_failure Samples.first_case 100
          <-> exceeds (of_int 150) 100)
      /\ (entry = response_time_success Samples.first_case
          <-> ~ exceeds (of_int 150) 100)
      /\ message (response_time_failure Samples.first_case 100)
         = Some "Response time exceeded the limit of 100 ms".
Proof.
  assert (H : Forall (returns_or_asserts Samples.slow_ok Samples.first_case)
                [Samples.passing])
    by (repeat constructor; intros exc; simpl; discriminate).
  assert (HB : 100%Z <> 0%Z) by lia.
  split; [exact H |]. split; [exact HB |].
  exact (@C8_response_time_failure_iff_exceeded Samples.first_case [Samples.passing] []
           Samples.fresh_result Samples.slow_ok (of_int 150) 100%Z H HB).
Defined.

(* ===================================================================== *)
(** ** Transport test bodies: proofs *)
(* ===================================================================== *)

Section TransportFacts.

Variable call : Request -> Exn + Response.
Variable USER_AGENT : string.

(** Reporting the targets touches nothing but the engine's observations. *)
Lemma targeted_frame (targets : list Target) (context : TargetContext) (env : TestEnv) :
  let out := targeted targets context env in
  env_requests (fst out) = env_requests env
  /\ env_result (fst out) = env_result env
  /\ env_feedback (fst out) = env_feedback env
  /\ env_guidance (fst out) = fst (run_targets targets context (env_guidance env))
  /\ snd out = snd (run_targets targets context (env_guidance env)).
Proof.
  unfold targeted.
  destruct (run_targets targets context (env_guidance env)) as [observations outcome].
  cbn. auto.
Qed.

Lemma checked_requests (case : Case) (checks : list CheckFunction)
    (response : Response) (rt : float) (max_response_time : option Z)
    (store_interactions : bool)
    (store : TestResult -> Status -> list Check -> TestResult) (env : TestEnv) :
  env_requests (fst (checked case checks response rt max_response_time
                       store_interactions store env)) = env_requests env.
Proof.
  unfold checked.
  destruct (run_checks case checks [] (env_result env) response
              (mul rt (of_int 1000)) max_response_time) as [st [| exc]];
    reflexivity.
Qed.

(** One call of [_network_test] sends exactly one request, with the
    timeout it was given. *)
Lemma _network_test_requests (case : Case) (checks : list CheckFunction)
    (targets : list Target) (session : option (string * string))
    (timeout : option float) (store_interactions : bool) (headers : option Headers)
    (request_tls_verify : bool) (max_response_time : option Z) (env : TestEnv) :
  env_requests (fst (_network_test call case checks targets session timeout
                       store_interactions headers request_tls_verify
                       max_response_time env))
  = env_requests env ++
      [{| request_case := case; request_session := session;
          request_headers := headers; request_timeout := timeout;
          request_verify := request_tls_verify |}].
Proof.
  unfold _network_test.
  destruct (call _) as [exc | response]; [reflexivity |].
  match goal with
  | |- context [targeted ?t ?c ?e] =>
      destruct (targeted_frame t c e) as (Hrequests & _);
      destruct (targeted t c e) as [env' [| exc]]
  end; cbn [fst] in Hrequests |- *.
  - rewrite checked_requests. exact Hrequests.
  - exact Hrequests.
Qed.

Lemma add_cases_loop_requests (timeout : option float)
    (test : Case -> TestEnv -> TestEnv * (Exn + Response))
    (hooks : list (Case -> Response -> option Case))
    (case : Case) (response : Response) :
  (forall c env, exists rq,
      env_requests (fst (test c env)) = env_requests env ++ [rq]
      /\ request_timeout rq = timeout) ->
  forall env, exists sent_requests,
    env_requests (fst (add_cases_loop hooks case response test env))
      = env_requests env ++ sent_requests
    /\ Forall (fun rq => request_timeout rq = timeout) sent_requests.
Proof.
  intros Htest. induction hooks as [| case_hook rest IH]; intros env.
  - exists []. simpl. rewrite app_nil_r. split; [reflexivity | constructor].
  - simpl. destruct (case_hook case response) as [_case |]; [| apply IH].
    destruct (Htest _case env) as (rq & Hrq & Htimeout).
    destruct (test _case env) as [env' [exc | r]]; cbn [fst] in Hrq.
    + exists [rq]. split; [exact Hrq | repeat constructor; exact Htimeout].
    + destruct (IH env') as (more & Hmore & Hall).
      exists (rq :: more). rewrite Hmore, Hrq, <- app_assoc.
      split; [reflexivity | constructor; assumption].
Qed.

End TransportFacts.

(* ===================================================================== *)
(** ** Transport test bodies: the claims *)
(* ===================================================================== *)

(** The timeout of the requests of [network_test]: when the division of
    [prepare_timeout] gives a value, every request made, the first one and
    those for hook-contributed cases, carries it; when the division raises,
    no request is made. *)
Lemma network_test_timeouts :
  forall (call : Request -> Exn + Response) (USER_AGENT : string)
         (add_case_hooks : list (Case -> Response -> option Case))
         (case : Case) (checks : list CheckFunction) (targets : list Target)
         (session : option (string * string)) (timeout_ms : option Z)
         (request_tls_verify store_interactions : bool)
         (headers : option Headers) (max_response_time : option Z)
         (env : TestEnv),
    let out := network_test call USER_AGENT add_case_hooks case checks
                 targets session timeout_ms request_tls_verify
                 store_interactions headers max_response_time env in
    match prepare_timeout timeout_ms with
    | inr timeout =>
        exists sent_requests : list Request,
          env_requests (fst out) = env_requests env ++ sent_requests
          /\ sent_requests <> []
          /\ Forall (fun rq => request_timeout rq = timeout) sent_requests
    | inl exc =>
        env_requests (fst out) = env_requests env /\ snd out = Raised exc
    end.
Proof.
  intros. subst out. unfold network_test. cbv zeta.
  match goal with
  | |- context [if ?b then set_result env ?r else env] =>
      set (env0 := if b then set_result env r else env);
      assert (Henv0 : env_requests env0 = env_requests env)
        by (subst env0; destruct b; reflexivity)
  end.
  destruct (prepare_timeout timeout_ms) as [exc | timeout].
  - cbn [fst snd]. split; [exact Henv0 | reflexivity].
  - rewrite <- Henv0.
    destruct (_network_test _ _ _ _ _ _ _ _ _ _ env0) as [env1 [exc | response]] eqn:E.
    + eexists. split.
      * change env1 with (fst (env1, @inl Exn Response exc)). rewrite <- E.
        apply _network_test_requests.
      * split; [discriminate | repeat constructor].
    + unfold add_cases.
      match goal with
      | |- context [add_cases_loop _ _ _ ?test _] =>
          destruct (@add_cases_loop_requests timeout test
                      add_case_hooks case response) with (env := env1)
            as (more & Hmore & Hall)
      end.
      { intros c e. eexists. split; [apply _network_test_requests | reflexivity]. }
      eexists. rewrite Hmore.
      change env1 with (fst (env1, @inr Exn Response response)). rewrite <- E.
      rewrite _network_test_requests, <- app_assoc. split; [reflexivity |].
      split; [discriminate |]. constructor; [reflexivity | exact Hall].
Qed.

(** C7, as stated, fails: a timeout of 1 ms reaches the transport as the float
    nearest to one thousandth, which is not the number 1/1000 (no float is),
    and for a timeout beyond the range of the floats the division raises
    [OverflowError], so that no value reaches the transport at all. *)
Lemma C7_counterexample :
  (exists seconds : float,
     prepare_timeout (Some 1%Z) = inr (Some seconds)
     /\ ~ (number seconds == 1 # 1000)%Q
     /\ map request_timeout
          (env_requests
             (fst (network_test MoreSamples.unreachable "schemathesis" []
                     Samples.first_case [] [] None (Some 1%Z) true true None None
                     Samples.fresh_env)))
        = [Some seconds])
  /\ (let out := network_test MoreSamples.unreachable "schemathesis" []
                   Samples.first_case [] [] None (Some (10 ^ 400)%Z) true true
                   None None Samples.fresh_env in
      snd out = Raised OverflowError /\ env_requests (fst out) = []).
Proof.
  split.
  - exists (S754_finite false 4611686018427388 (-62)).
    split; [vm_compute; reflexivity |]. split; [| vm_compute; reflexivity].
    unfold Qeq. vm_compute. discriminate.
  - vm_compute. split; reflexivity.
Qed.

(** C7, amended.  [prepare_timeout] leaves a missing timeout missing.  A
    timeout of [T] milliseconds becomes the quotient [T / 1000] of Python's
    true division: a finite float within a relative distance of [2^-53] of
    the number [T/1000], and that number itself when [T] is a whole number
    of seconds below [2^53]; this exactly when [T] is below
    [1000 * (2^1024 - 2^970)] in absolute value, while from there on the
    division raises [OverflowError].  Every request [network_test] hands to the transport,
    the first one and those made for hook-contributed cases, carries exactly
    the value [prepare_timeout] returned; when it raised, [network_test]
    raises the same exception and makes no request. *)
Theorem C7_timeout_is_milliseconds_over_1000 :
  prepare_timeout None = inr None
  /\ (forall T : Z,
        match prepare_timeout (Some T) with
        | inr (Some seconds) =>
            is_finite seconds = true
            /\ (Qabs (number seconds - (T # 1000)) * inject_Z (2 ^ 53)
                <= Qabs (T # 1000))%Q
            /\ (forall k : Z,
                  T = (1000 * k)%Z -> (Z.abs k < 2 ^ 53)%Z ->
                  (number seconds == inject_Z k)%Q)
            /\ (Z.abs T < 1000 * (2 ^ 1024 - 2 ^ 970))%Z
        | inr None => False
        | inl exc =>
            exc = OverflowError /\ (1000 * (2 ^ 1024 - 2 ^ 970) <= Z.abs T)%Z
        end)
  /\ (forall (call : Request -> Exn + Response) (USER_AGENT : string)
             (add_case_hooks : list (Case -> Response -> option Case))
             (case : Case) (checks : list CheckFunction) (targets : list Target)
             (session : option (string * string)) (timeout_ms : option Z)
             (request_tls_verify store_interactions : bool)
             (headers : option Headers) (max_response_time : option Z)
             (env : TestEnv),
        let out := network_test call USER_AGENT add_case_hooks case checks
                     targets session timeout_ms request_tls_verify
                     store_interactions headers max_response_time env in
        match prepare_timeout timeout_ms with
        | inr timeout =>
            exists sent_requests : list Request,
              env_requests (fst out) = env_requests env ++ sent_requests
              /\ sent_requests <> []
              /\ Forall (fun rq => request_timeout rq = timeout) sent_requests
        | inl exc =>
            env_requests (fst out) = env_requests env /\ snd out = Raised exc
        end).
Proof.
  split; [reflexivity |]. split.
  - intros T. unfold prepare_timeout.
    pose proof (true_divide_1000 T) as H.
    destruct (true_divide T 1000) as [exc | seconds].
    + exact H.
    + destruct H as (Hfinite & Hnear & Hrange & Hexact).
      repeat split; assumption.
  - intros. apply network_test_timeouts.
Qed.

Lemma C7_witness :
  prepare_timeout (Some 2000%Z) = inr (Some (S754_finite false 4503599627370496 (-51)))
  /\ (number (S754_finite false 4503599627370496 (-51)) == inject_Z 2)%Q
  /\ prepare_timeout (Some 1%Z) = inr (Some (S754_finite false 4611686018427388 (-62)))
  /\ (Qabs (number (S754_finite false 4611686018427388 (-62)) - (1 # 1000))
        * inject_Z (2 ^ 53) <= Qabs (1 # 1000))%Q.
Proof.
  destruct C7_timeout_is_milliseconds_over_1000 as (_ & Hvalue & _).
  pose proof (Hvalue 2000%Z) as Htwo. pose proof (Hvalue 1%Z) as Hone.
  change (prepare_timeout (Some 2000%Z))
    with (inr (Some (S754_finite false 4503599627370496 (-51))) : Exn + option float)
    in Htwo.
  change (prepare_timeout (Some 1%Z))
    with (inr (Some (S754_finite false 4611686018427388 (-62))) : Exn + option float)
    in Hone.
  cbv iota in Htwo, Hone.
  destruct Htwo as (_ & _ & Hexact & _). destruct Hone as (_ & Hnear & _).
  split; [vm_compute; reflexivity |].
  split; [apply (Hexact 2%Z); [reflexivity | vm_compute; reflexivity] |].
  split; [vm_compute; reflexivity | exact Hnear].
Defined.

(** What the shared [try / except / finally] block does to the feedback:
    the pair is added when [run_checks] returns, and only then. *)
Lemma checked_feedback (case : Case) (checks : list CheckFunction)
    (response : Response) (rt : float) (max_response_time : option Z)
    (store_interactions : bool)
    (store : TestResult -> Status -> list Check -> TestResult) (env : TestEnv) :
  let out := checked case checks response rt max_response_time
               store_interactions store env in
  match snd (run_checks case checks [] (env_result env) response
               (mul rt (of_int 1000)) max_response_time) with
  | Normal =>
      snd out = inr response
      /\ env_feedback (fst out) = add_test_case (env_feedback env) case response
  | Raised exc =>
      snd out = inl exc /\ env_feedback (fst out) = env_feedback env
  end.
Proof.
  unfold checked.
  destruct (run_checks case checks [] (env_result env) response
              (mul rt (of_int 1000)) max_response_time) as [st [| exc]];
    cbn [fst snd]; split; reflexivity.
Qed.

(** The same for a body from the point where its call has returned:
    [run_targets] comes first, and an exception it raises leaves the body
    before the checks are run. *)
Lemma targeted_then_checked (case : Case) (checks : list CheckFunction)
    (targets : list Target) (context : TargetContext)
    (response : Response) (rt : float) (max_response_time : option Z)
    (store_interactions : bool) (prepare : TestResult -> TestResult)
    (store : TestResult -> Status -> list Check -> TestResult) (env : TestEnv) :
  let out :=
    match targeted targets context env with
    | (env', Raised exc) => (env', inl exc)
    | (env', Normal) =>
        checked case checks response rt max_response_time store_interactions store
          (set_result env' (prepare (env_result env')))
    end in
  match snd (run_targets targets context (env_guidance env)) with
  | Raised exc => snd out = inl exc /\ env_feedback (fst out) = env_feedback env
  | Normal =>
      match snd (run_checks case checks [] (prepare (env_result env)) response
                   (mul rt (of_int 1000)) max_response_time) with
      | Normal =>
          snd out = inr response
          /\ env_feedback (fst out) = add_test_case (env_feedback env) case response
      | Raised exc =>
          snd out = inl exc /\ env_feedback (fst out) = env_feedback env
      end
  end.
Proof.
  destruct (targeted_frame targets context env) as (_ & Hresult & Hfeedback & _ & Houtcome).
  destruct (targeted targets context env) as [env' outcome].
  cbn [fst snd] in Hresult, Hfeedback, Houtcome. rewrite <- Houtcome.
  destruct outcome as [| exc]; cbv zeta.
  - pose proof (checked_feedback case checks response rt max_response_time
                  store_interactions store
                  (set_result env' (prepare (env_result env')))) as H.
    cbv zeta in H. cbn [env_result set_result env_feedback] in H.
    rewrite Hresult, Hfeedback in H. rewrite Hresult. exact H.
  - cbn [fst snd]. split; [reflexivity | exact Hfeedback].
Qed.

(** C3, as stated, fails: when a check fails, the grouped failure leaves
    the body before [feedback.add_test_case], and the pair is not in the
    accumulator although the call completed. *)
Lemma C3_counterexample :
  let out := _network_test Samples.answering Samples.first_case [Samples.failing] []
               None None false None true None Samples.fresh_env in
  List.length (env_requests (fst out)) = 1%nat
  /\ snd out = inl (CheckFailed "GET /users" ["bad status"])
  /\ ~ In (Samples.first_case, Samples.slow_ok) (stateful_tests (env_feedback (fst out))).
Proof.
  cbv zeta. split; [reflexivity |]. split; [reflexivity |].
  vm_compute. intros H; exact H.
Qed.

(** C3, amended.  In each of the three inner bodies, once the call has
    returned a response, the [(case, response)] pair is appended to the
    feedback accumulator exactly when [run_checks] returns normally, and
    the body then returns the response; when [run_checks] raises (the
    grouped check failure included), the body raises the same exception
    and the accumulator is left as it was.  So it is when [run_targets],
    which comes before the checks, raises: the checks are not run. *)
Theorem C3_feedback_added_only_when_checks_return :
  forall (call : Request -> Exn + Response)
         (call_wsgi : Case -> Headers -> Exn + (Response * float * list string))
         (call_asgi : Case -> option Headers -> Exn + Response)
         (case : Case) (checks : list CheckFunction) (targets : list Target)
         (session : option (string * string)) (timeout : option float)
         (store_interactions request_tls_verify : bool)
         (headers : option Headers) (wsgi_headers : Headers)
         (max_response_time : option Z) (env : TestEnv)
         (response wsgi_response asgi_response : Response)
         (wsgi_elapsed : float) (recorded_logs : list string),
    call {| request_case := case; request_session := session;
            request_headers := headers; request_timeout := timeout;
            request_verify := request_tls_verify |} = inr response ->
    call_wsgi case wsgi_headers = inr (wsgi_response, wsgi_elapsed, recorded_logs) ->
    call_asgi case headers = inr asgi_response ->
    (let out := _network_test call case checks targets session timeout
                  store_interactions headers request_tls_verify max_response_time env in
     match snd (run_targets targets
                  {| context_case := case; context_response := response;
                     response_time := elapsed response |} (env_guidance env)) with
     | Raised exc => snd out = inl exc /\ env_feedback (fst out) = env_feedback env
     | Normal =>
         match snd (run_checks case checks [] (env_result env) response
                      (mul (elapsed response) (of_int 1000)) max_response_time) with
         | Normal =>
             snd out = inr response
             /\ env_feedback (fst out) = add_test_case (env_feedback env) case response
         | Raised exc =>
             snd out = inl exc /\ env_feedback (fst out) = env_feedback env
         end
     end)
    /\ (let out := _wsgi_test call_wsgi case checks targets wsgi_headers
                     store_interactions max_response_time env in
        match snd (run_targets targets
                     {| context_case := case; context_response := wsgi_response;
                        response_time := wsgi_elapsed |} (env_guidance env)) with
        | Raised exc => snd out = inl exc /\ env_feedback (fst out) = env_feedback env
        | Normal =>
            match snd (run_checks case checks []
                         (with_logs (env_result env)
                            (logs (env_result env) ++ recorded_logs))
                         wsgi_response (mul wsgi_elapsed (of_int 1000))
                         max_response_time) with
            | Normal =>
                snd out = inr wsgi_response
                /\ env_feedback (fst out)
                   = add_test_case (env_feedback env) case wsgi_response
            | Raised exc =>
                snd out = inl exc /\ env_feedback (fst out) = env_feedback env
            end
        end)
    /\ (let out := _asgi_test call_asgi case checks targets store_interactions
                     headers max_response_time env in
        match snd (run_targets targets
                     {| context_case := case; context_response := asgi_response;
                        response_time := elapsed asgi_response |} (env_guidance env)) with
        | Raised exc => snd out = inl exc /\ env_feedback (fst out) = env_feedback env
        | Normal =>
            match snd (run_checks case checks [] (env_result env) asgi_response
                         (mul (elapsed asgi_response) (of_int 1000))
                         max_response_time) with
            | Normal =>
                snd out = inr asgi_response
                /\ env_feedback (fst out)
                   = add_test_case (env_feedback env) case asgi_response
            | Raised exc =>
                snd out = inl exc /\ env_feedback (fst out) = env_feedback env
            end
        end).
Proof.
  intros call call_wsgi call_asgi case checks targets session timeout
    store_interactions request_tls_verify headers wsgi_headers max_response_time env
    response wsgi_response asgi_response wsgi_elapsed recorded_logs Hcall Hwsgi Hasgi.
  split; [| split].
  - unfold _network_test. cbv zeta. rewrite Hcall. cbv beta iota zeta.
    match goal with
    | |- context [checked case checks response ?rt max_response_time
                    store_interactions ?store _] =>
        pose proof (@targeted_then_checked case checks targets
                      {| context_case := case; context_response := response;
                         response_time := elapsed response |}
                      response rt max_response_time store_interactions
                      (fun r => r) store
                      (sent env {| request_case := case; request_session := session;
                                   request_headers := headers; request_timeout := timeout;
                                   request_verify := request_tls_verify |})) as H
    end.
    cbv zeta in H. cbn [sent env_guidance env_result env_feedback] in H.
    destruct (targeted _ _ _) as [env' [| exc]]; cbn [set_result] in H.
    + destruct env'; exact H.
    + exact H.
  - unfold _wsgi_test. rewrite Hwsgi. cbv beta iota zeta.
    match goal with
    | |- context [checked case checks wsgi_response ?rt max_response_time
                    store_interactions ?store _] =>
        pose proof (@targeted_then_checked case checks targets
                      {| context_case := case; context_response := wsgi_response;
                         response_time := wsgi_elapsed |}
                      wsgi_response rt max_response_time store_interactions
                      (fun r => with_logs r (logs r ++ recorded_logs)) store env) as H
    end.
    cbv zeta in H. exact H.
  - unfold _asgi_test. rewrite Hasgi. cbv beta iota zeta.
    match goal with
    | |- context [checked case checks asgi_response ?rt max_response_time
                    store_interactions ?store _] =>
        pose proof (@targeted_then_checked case checks targets
                      {| context_case := case; context_response := asgi_response;
                         response_time := elapsed asgi_response |}
                      asgi_response rt max_response_time store_interactions
                      (fun r => r) store env) as H
    end.
    cbv zeta in H.
    destruct (targeted _ _ _) as [env' [| exc]]; cbn [set_result] in H.
    + destruct env'; exact H.
    + exact H.
Qed.

Lemma C3_witness :
  let out := _network_test Samples.answering Samples.first_case [Samples.passing] []
               None None false None true None Samples.fresh_env in
  snd out = inr Samples.slow_ok
  /\ env_feedback (fst out)
     = add_test_case (env_feedback Samples.fresh_env) Samples.first_case Samples.slow_ok.
Proof.
  exact (proj1 (@C3_feedback_added_only_when_checks_return
                  Samples.answering Samples.answering_wsgi Samples.answering_asgi
                  Samples.first_case [Samples.passing] [] None None false true None []
                  None Samples.fresh_env Samples.slow_ok Samples.slow_ok Samples.slow_ok
                  Samples.seconds_0_15 ["GET /users 200"] eq_refl eq_refl eq_refl)).
Defined.

Lemma recorded_names (response : Response) (case : Case) (checks : list CheckFunction) :
  Forall (fun check => __name__ check <> "max_response_time") checks ->
  Forall (fun c => name c <> "max_response_time")
    (flat_map (recorded response case) checks).
Proof.
  induction 1 as [| check rest Hname _ IH]; [constructor |].
  cbn [flat_map]. apply Forall_app. split; [| exact IH].
  unfold recorded. destruct (call check response case) as [[|]|msg|exc];
    repeat constructor; exact Hname.
Qed.

(** C10.  When [_network_test] stores interactions and the response time
    exceeds a configured budget (the targets reported, predicates returning
    or raising an assertion), the failing [max_response_time] Check is the
    last entry recorded on the TestResult, the call raises the grouped
    failure, and the interaction stored for it has status [failure] and
    carries exactly the predicates' own outcomes, successes and failures,
    without the synthetic entry: unless a predicate is itself named
    [max_response_time], no stored check bears that name. *)
Theorem C10_stored_checks_lack_response_time_failure :
  forall (call : Request -> Exn + Response) (case : Case)
         (checks : list CheckFunction) (targets : list Target)
         (session : option (string * string)) (timeout : option float)
         (headers : option Headers) (request_tls_verify : bool) (B : Z)
         (env : TestEnv) (response : Response),
    call {| request_case := case; request_session := session;
            request_headers := headers; request_timeout := timeout;
            request_verify := request_tls_verify |} = inr response ->
    snd (run_targets targets
           {| context_case := case; context_response := response;
              response_time := elapsed response |} (env_guidance env)) = Normal ->
    Forall (returns_or_asserts response case) checks ->
    B <> 0%Z ->
    exceeds (mul (elapsed response) (of_int 1000)) B ->
    let out := _network_test call case checks targets session timeout true
                 headers request_tls_verify (Some B) env in
    Models.checks (env_result (fst out)) =
      Models.checks (env_result env) ++ flat_map (recorded response case) checks
        ++ [response_time_failure case B]
    /\ interactions (env_result (fst out)) =
         interactions (env_result env) ++
           [{| interaction_response := response; interaction_status := failure;
               interaction_checks := flat_map (recorded response case) checks |}]
    /\ (Forall (fun check => __name__ check <> "max_response_time") checks ->
        Forall (fun c => name c <> "max_response_time")
          (flat_map (recorded response case) checks))
    /\ exists messages,
         snd out = inl (CheckFailed (verbose_name (case_endpoint case)) messages)
         /\ In ("Response time exceeded the limit of " ++ str B ++ " ms")%string messages.
Proof.
  intros call case checks targets session timeout headers request_tls_verify B env
    response Hcall Htargets Hchecks HB Hexceeds out.
  apply gt_int_spec in Hexceeds.
  apply Z.eqb_neq in HB.
  subst out. unfold _network_test. cbv zeta. rewrite Hcall. cbv beta iota zeta.
  match goal with
  | |- context [targeted ?t ?c ?e] =>
      destruct (targeted_frame t c e) as (_ & Hresult & _ & _ & Houtcome);
      destruct (targeted t c e) as [env' outcome]
  end.
  cbn [fst snd sent env_guidance env_result] in Hresult, Houtcome.
  rewrite Htargets in Houtcome. subst outcome.
  unfold checked. cbn [response_time]. rewrite Hresult.
  rewrite (run_checks_unfold _ _ _ _ Hchecks). cbv zeta.
  unfold response_time_check, truthy. rewrite HB. cbn [negb]. rewrite Hexceeds.
  cbn [cs_errors cs_result cs_check_results].
  destruct (flat_map (complaints response case) checks ++ _) as [| m ms] eqn:Hmsgs.
  { exfalso. symmetry in Hmsgs. exact (app_cons_not_nil _ _ _ Hmsgs). }
  unfold get_grouped_exception. cbn [fst snd set_result env_result].
  split; [| split; [| split]].
  - unfold store_requests_response, add_failure. cbn.
    rewrite <- app_assoc. reflexivity.
  - unfold store_requests_response, add_failure. cbn. reflexivity.
  - apply recorded_names.
  - eexists. split; [reflexivity |]. rewrite <- Hmsgs.
    apply in_or_app. right. left. reflexivity.
Qed.

Lemma C10_witness :
  let out := _network_test Samples.answering Samples.first_case
               [Samples.passing; Samples.failing] [] None None true None true
               (Some 100%Z) Samples.fresh_env in
  map name (Models.checks (env_result (fst out)))
    = ["not_a_server_error"; "status_code_conformance"; "max_response_time"]
  /\ map (fun i => map name (interaction_checks i)) (interactions (env_result (fst out)))
    = [["not_a_server_error"; "status_code_conformance"]]
  /\ Forall (fun c => name c <> "max_response_time")
       (flat_map (recorded Samples.slow_ok Samples.first_case)
          [Samples.passing; Samples.failing]).
Proof.
  assert (Hchecks : Forall (returns_or_asserts Samples.slow_ok Samples.first_case)
                      [Samples.passing; Samples.failing])
    by (repeat constructor; intros exc; simpl; discriminate).
  assert (HB : 100%Z <> 0%Z) by lia.
  assert (Hexceeds : exceeds (mul (elapsed Samples.slow_ok) (of_int 1000)) 100)
    by (vm_compute; reflexivity).
  assert (Hnames : Forall (fun check => __name__ check <> "max_response_time")
                     [Samples.passing; Samples.failing])
    by (repeat constructor; simpl; discriminate).
  destruct (@C10_stored_checks_lack_response_time_failure
              Samples.answering Samples.first_case [Samples.passing; Samples.failing] []
              None None None true 100%Z Samples.fresh_env Samples.slow_ok
              eq_refl eq_refl Hchecks HB Hexceeds) as (Hrecorded & Hstored & Hunnamed & _).
  cbv zeta. rewrite Hrecorded, Hstored.
  split; [reflexivity |]. split; [reflexivity | exact (Hunnamed Hnames)].
Defined.

(* ===================================================================== *)
(** ** Generators: proofs *)
(* ===================================================================== *)

Section GenFacts.

Lemma consume_bind (A B : Type) (g : Gen A) (f : A -> Gen B) :
  forall results,
    consume (bind g f) results =
    let '(events1, results1, a) := consume g results in
    let '(events2, results2, b) := consume (f a) results1 in
    (events1 ++ events2, results2, b).
Proof.
  induction g as [a | event rest IH | k IH | r rest IH]; intros results; simpl.
  - destruct (consume (f a) results) as [[events2 results2] b]. reflexivity.
  - rewrite IH. destruct (consume rest results) as [[events1 results1] a].
    destruct (consume (f a) results1) as [[events2 results2] b]. reflexivity.
  - apply IH.
  - apply IH.
Qed.

(** [trace] refines [consume]: same events, same final results. *)
Lemma trace_consume (A : Type) (g : Gen A) :
  forall results,
    map fst (fst (trace g results)) = fst (fst (consume g results))
    /\ snd (trace g results) = snd (fst (consume g results)).
Proof.
  induction g as [a | event rest IH | k IH | r rest IH]; intros results; simpl.
  - split; reflexivity.
  - destruct (IH results) as [H1 H2].
    destruct (trace rest results) as [steps final].
    destruct (consume rest results) as [[events results'] a].
    simpl in *. subst. split; reflexivity.
  - apply IH.
  - apply IH.
Qed.

(** The loop of [execute], in terms of the delegated trace. *)
Lemma consume_forward (exit_first : bool) (delegated : Gen unit) :
  forall results,
    consume (forward exit_first delegated) results =
    (fst (forwarded exit_first (fst (trace delegated results))
            (snd (trace delegated results))),
     snd (forwarded exit_first (fst (trace delegated results))
            (snd (trace delegated results))),
     tt).
Proof.
  induction delegated as [a | event rest IH | k IH | r rest IH]; intros results; simpl.
  - reflexivity.
  - destruct (trace rest results) as [steps final] eqn:Htrace. simpl.
    destruct (should_stop exit_first event) eqn:Hstop.
    + reflexivity.
    + simpl. rewrite IH, Htrace. simpl.
      destruct (forwarded exit_first steps final) as [events final']. reflexivity.
  - apply IH.
  - apply IH.
Qed.

(** The complete stream of a run. *)
Lemma run_spec (schema : string) (exit_first : bool) (delegated : Gen unit) :
  run schema exit_first delegated =
  let '(events, results) :=
    forwarded exit_first (fst (trace delegated [])) (snd (trace delegated [])) in
  Initialized schema :: events ++ [Finished results].
Proof.
  unfold run, execute. simpl. rewrite consume_bind, consume_forward.
  destruct (forwarded exit_first _ _) as [events results]. reflexivity.
Qed.

Lemma forwarded_stop (pre post : list (ExecutionEvent * TestResultSet))
    (trigger : ExecutionEvent) (results final : TestResultSet) :
  Forall (fun step => should_stop true (fst step) = false) pre ->
  should_stop true trigger = true ->
  forwarded true (pre ++ (trigger, results) :: post) final = (map fst pre, results).
Proof.
  intros Hpre Htrigger.
  induction Hpre as [| [event rs] pre Hevent _ IH]; cbn [forwarded app map fst].
  - rewrite Htrigger. reflexivity.
  - cbn [fst] in Hevent. rewrite Hevent, IH. reflexivity.
Qed.

Lemma forwarded_all (steps : list (ExecutionEvent * TestResultSet))
    (final : TestResultSet) :
  forwarded false steps final = (map fst steps, final).
Proof.
  induction steps as [| [event rs] steps IH]; cbn [forwarded map fst]; [reflexivity |].
  rewrite IH. reflexivity.
Qed.

(** What every yielded event satisfies, every consumed event satisfies. *)
Lemma Yields_consume (A : Type) (P : ExecutionEvent -> Prop) (g : Gen A) :
  Yields P g -> forall results, Forall P (fst (fst (consume g results))).
Proof.
  induction 1 as [a | event rest Hevent _ IH | k _ IH | r rest _ IH];
    intros results; simpl.
  - constructor.
  - specialize (IH results).
    destruct (consume rest results) as [[events results'] a]. simpl in *.
    constructor; assumption.
  - apply IH.
  - apply IH.
Qed.

Lemma Yields_bind (A B : Type) (P : ExecutionEvent -> Prop) (g : Gen A)
    (f : A -> Gen B) :
  Yields P g -> (forall a, Yields P (f a)) -> Yields P (bind g f).
Proof.
  intros Hg Hf. induction Hg; simpl; try constructor; auto.
Qed.

Lemma Yields_forward_test (P : ExecutionEvent -> Prop) (g : Gen Feedback) :
  Yields P g -> Yields P (forward_test g).
Proof.
  induction 1 as [a | event rest Hevent _ IH | k _ IH | r rest _ IH]; simpl.
  - constructor.
  - constructor; [exact Hevent |].
    destruct (is_Interrupted event); [constructor | exact IH].
  - constructor. exact IH.
  - constructor. exact IH.
Qed.

Lemma Reports_trace (A : Type) (g : Gen A) :
  Reports g -> forall results, Forall result_is_last (fst (trace g results)).
Proof.
  induction 1 as [a | event rest Hevent _ IH | k _ IH
                  | r status output endpoint rest _ IH]; intros results; simpl.
  - constructor.
  - specialize (IH results). destruct (trace rest results) as [steps final].
    constructor; [| exact IH].
    intros result status output endpoint Heq. simpl in Heq.
    rewrite Heq in Hevent. discriminate Hevent.
  - apply IH.
  - specialize (IH (results ++ [r])).
    destruct (trace rest (results ++ [r])) as [steps final].
    constructor; [| exact IH].
    intros result status' output' endpoint' Heq. simpl in Heq.
    injection Heq as -> _ _ _. exists results. reflexivity.
Qed.

Lemma Reports_bind (A B : Type) (g : Gen A) (f : A -> Gen B) :
  Reports g -> (forall a, Reports (f a)) -> Reports (bind g f).
Proof.
  intros Hg Hf. induction Hg; simpl; try constructor; auto.
Qed.

Lemma Reports_forward_test (g : Gen Feedback) :
  Reports g -> Reports (forward_test g).
Proof.
  induction 1 as [a | event rest Hevent _ IH | k _ IH
                  | r status output endpoint rest _ IH]; simpl.
  - constructor.
  - constructor; [exact Hevent |].
    destruct (is_Interrupted event); [constructor | exact IH].
  - constructor. exact IH.
  - constructor. exact IH.
Qed.

End GenFacts.

(* ===================================================================== *)
(** ** Single test and scheduler: proofs *)
(* ===================================================================== *)

Section SchedulerFacts.

Variable stateful : option string.
Variable stateful_recursion_limit : Z.
Variable checks : list CheckFunction.
Variable targets : list Target.
Variable headers : option Headers.
Variable get_stateful_tests : Feedback -> list Triple.

Local Abbreviation run_tests := (_run_tests stateful stateful_recursion_limit checks
                               targets headers get_stateful_tests).
Local Abbreviation each_test := (for_each_test stateful checks targets headers).
Local Abbreviation interrupting := (interrupts stateful checks targets headers).

Local Open Scope Z_scope.

(** [_run_tests] satisfies the equation the source is written as. *)
Lemma _run_tests_unfold (maker : list Triple) (recursion_level : Z) :
  run_tests maker recursion_level =
  if recursion_level >? stateful_recursion_limit then Return tt
  else each_test
         (fun feedback => run_tests (get_stateful_tests feedback) (recursion_level + 1))
         recursion_level maker.
Proof.
  unfold _run_tests.
  destruct (recursion_level >? stateful_recursion_limit) eqn:Hguard.
  - destruct (Z.to_nat _); simpl; rewrite Hguard; reflexivity.
  - assert (Hle : recursion_level <= stateful_recursion_limit)
      by (pose proof (Zgt_cases recursion_level stateful_recursion_limit) as Hc;
          rewrite Hguard in Hc; exact Hc).
    replace (Z.to_nat (stateful_recursion_limit + 1 - recursion_level))
      with (S (Z.to_nat (stateful_recursion_limit + 1 - (recursion_level + 1))))
      by lia.
    simpl. rewrite Hguard. reflexivity.
Qed.

(** The events of one single-test invocation: its [BeforeExecution], then
    either [Interrupted] alone or the appended result and its
    [AfterExecution]. *)
Lemma forward_run_test (endpoint : Endpoint) (method : DataGenerationMethod)
    (test : Test) (recursion_level : Z) :
  let g := forward_test
             (run_test endpoint test checks method targets headers recursion_level
                (new_Feedback stateful endpoint)) in
  if interrupting (endpoint, method, test)
  then g = Yield (BeforeExecution endpoint recursion_level)
             (Yield Interrupted (Return None))
  else exists result status output feedback,
      g = Yield (BeforeExecution endpoint recursion_level)
            (Append result
               (Yield (AfterExecution result status output endpoint)
                  (Return (Some feedback)))).
Proof.
  unfold interrupts, run_test. destruct test as [msg | seed body].
  - cbn. do 4 eexists. reflexivity.
  - cbv zeta.
    destruct (run_outcome (body checks targets
                             (new_TestResult endpoint headers method) headers
                             (new_Feedback stateful endpoint))) as [| exc].
    + cbn. do 4 eexists. reflexivity.
    + destruct exc; cbn; first [reflexivity | do 4 eexists; reflexivity].
Qed.

(** An interrupted test ends the scheduler's loop: nothing after it runs. *)
Lemma each_test_interrupted (recurse : Feedback -> Gen unit) (recursion_level : Z)
    (endpoint : Endpoint) (method : DataGenerationMethod) (test : Test)
    (rest : list Triple) (results : TestResultSet) :
  interrupting (endpoint, method, test) = true ->
  consume (each_test recurse recursion_level ((endpoint, method, test) :: rest)) results
  = ([BeforeExecution endpoint recursion_level; Interrupted], results, tt).
Proof.
  intros Hint. cbn [for_each_test].
  pose proof (forward_run_test endpoint method test recursion_level) as H.
  cbv zeta in H. rewrite Hint in H. rewrite H. reflexivity.
Qed.

(** Tests that are not interrupted at this level do not cut the loop. *)
Lemma each_test_app (recurse : Feedback -> Gen unit) (recursion_level : Z)
    (pre post : list Triple) :
  Forall (fun triple => interrupting triple = false) pre ->
  forall results,
    consume (each_test recurse recursion_level (pre ++ post)) results =
    let '(events1, results1, _) := consume (each_test recurse recursion_level pre) results in
    let '(events2, results2, u) := consume (each_test recurse recursion_level post) results1 in
    (events1 ++ events2, results2, u).
Proof.
  induction 1 as [| [[endpoint method] test] pre Hhead _ IH]; intros results.
  - cbn [app for_each_test consume].
    destruct (consume (each_test recurse recursion_level post) results) as [[e r] u].
    reflexivity.
  - cbn [app for_each_test].
    pose proof (forward_run_test endpoint method test recursion_level) as H.
    cbv zeta in H. rewrite Hhead in H.
    destruct H as (result & status & output & feedback & H). rewrite H.
    cbn [bind consume]. rewrite !consume_bind.
    destruct (consume (recurse feedback) (results ++ [result])) as [[e0 r0] u0].
    rewrite IH.
    destruct (consume (each_test recurse recursion_level pre) r0) as [[e1 r1] u1].
    destruct (consume (each_test recurse recursion_level post) r1) as [[e2 r2] u2].
    cbn [app]. rewrite app_assoc. reflexivity.
Qed.

Lemma Yields_impl (A : Type) (P Q : ExecutionEvent -> Prop) (g : Gen A) :
  (forall event, P event -> Q event) -> Yields P g -> Yields Q g.
Proof.
  intros HPQ. induction 1; constructor; auto.
Qed.

Lemma Yields_run_test (endpoint : Endpoint) (method : DataGenerationMethod)
    (test : Test) (recursion_level : Z) (feedback : Feedback) :
  recursion_level <= stateful_recursion_limit ->
  Yields (level_within recursion_level stateful_recursion_limit)
    (run_test endpoint test checks method targets headers recursion_level feedback).
Proof.
  intros Hle. unfold run_test. constructor; [simpl; lia |].
  destruct test as [msg | seed body]; cbv zeta.
  - repeat constructor.
  - destruct (run_outcome _) as [| exc]; [repeat constructor |].
    destruct (handle exc _) as [[status result] |]; repeat constructor.
Qed.

Lemma Yields_each_test (recurse : Feedback -> Gen unit) (recursion_level : Z)
    (tests : list Triple) :
  recursion_level <= stateful_recursion_limit ->
  (forall feedback,
      Yields (level_within recursion_level stateful_recursion_limit) (recurse feedback)) ->
  Yields (level_within recursion_level stateful_recursion_limit)
    (each_test recurse recursion_level tests).
Proof.
  intros Hle Hrec. induction tests as [| [[endpoint method] test] rest IH].
  - constructor.
  - cbn [for_each_test]. apply Yields_bind.
    + apply Yields_forward_test, Yields_run_test. exact Hle.
    + intros [feedback |]; [| constructor].
      apply Yields_bind; [apply Hrec | intros _; exact IH].
Qed.

(** Every test the scheduler starts runs at a level between the level of
    the call and the limit. *)
Lemma Yields_run_tests_from (levels_left : nat) :
  forall (maker : list Triple) (recursion_level : Z),
    Yields (level_within recursion_level stateful_recursion_limit)
      (_run_tests_from stateful stateful_recursion_limit checks targets headers
         get_stateful_tests levels_left maker recursion_level).
Proof.
  induction levels_left as [| levels_left IH]; intros maker recursion_level; simpl;
    destruct (recursion_level >? stateful_recursion_limit) eqn:Hguard;
    try constructor.
  assert (Hle : recursion_level <= stateful_recursion_limit)
    by (pose proof (Zgt_cases recursion_level stateful_recursion_limit) as Hc;
        rewrite Hguard in Hc; exact Hc).
  apply Yields_each_test; [exact Hle |].
  intros feedback. eapply Yields_impl; [| apply IH].
  intros [ | endpoint l | | | ]; simpl; auto. lia.
Qed.

Lemma Reports_run_test (endpoint : Endpoint) (method : DataGenerationMethod)
    (test : Test) (recursion_level : Z) (feedback : Feedback) :
  Reports (run_test endpoint test checks method targets headers recursion_level feedback).
Proof.
  unfold run_test. constructor; [reflexivity |].
  destruct test as [msg | seed body]; cbv zeta.
  - repeat constructor.
  - destruct (run_outcome _) as [| exc]; [repeat constructor |].
    destruct (handle exc _) as [[status result] |]; repeat constructor.
Qed.

Lemma Reports_each_test (recurse : Feedback -> Gen unit) (recursion_level : Z)
    (tests : list Triple) :
  (forall feedback, Reports (recurse feedback)) ->
  Reports (each_test recurse recursion_level tests).
Proof.
  intros Hrec. induction tests as [| [[endpoint method] test] rest IH].
  - constructor.
  - cbn [for_each_test]. apply Reports_bind.
    + apply Reports_forward_test, Reports_run_test.
    + intros [feedback |]; [| constructor].
      apply Reports_bind; [apply Hrec | intros _; exact IH].
Qed.

(** In the scheduler, every [AfterExecution] follows the append of its
    result. *)
Lemma Reports_run_tests (maker : list Triple) (recursion_level : Z) :
  Reports (run_tests maker recursion_level).
Proof.
  unfold _run_tests. generalize (Z.to_nat (stateful_recursion_limit + 1 - recursion_level)).
  intros levels_left. revert maker recursion_level.
  induction levels_left as [| levels_left IH]; intros maker recursion_level; simpl;
    destruct (recursion_level >? stateful_recursion_limit); try constructor.
  apply Reports_each_test. intros feedback. apply IH.
Qed.

End SchedulerFacts.

(* ===================================================================== *)
(** ** Single test and scheduler: the claims *)
(* ===================================================================== *)

(** C9.  A call of [_run_tests] at a recursion level strictly above
    [stateful_recursion_limit] returns at once: it yields nothing and
    touches nothing, whatever its maker holds.  Every test a call at level
    [L] starts, directly or through its recursive calls (each start is
    announced by the [BeforeExecution] event [run_test] yields before it
    invokes the test), runs at a level between [L] and the limit.  With a
    limit of 0, a run started at level 0 executes tests at level 0 only: no
    stateful-derived test runs. *)
Theorem C9_recursion_level_never_exceeds_limit :
  forall (stateful : option string) (stateful_recursion_limit : Z)
         (checks : list CheckFunction) (targets : list Target)
         (headers : option Headers) (get_stateful_tests : Feedback -> list Triple),
    (forall (maker : list Triple) (recursion_level : Z),
        (stateful_recursion_limit < recursion_level)%Z ->
        _run_tests stateful stateful_recursion_limit checks targets headers
          get_stateful_tests maker recursion_level = Return tt)
    /\ (forall (maker : list Triple) (recursion_level : Z) (results : TestResultSet)
               (endpoint : Endpoint) (l : Z),
           In (BeforeExecution endpoint l)
              (fst (fst (consume (_run_tests stateful stateful_recursion_limit checks
                                    targets headers get_stateful_tests maker
                                    recursion_level) results))) ->
           (recursion_level <= l <= stateful_recursion_limit)%Z)
    /\ (stateful_recursion_limit = 0%Z ->
        forall (maker : list Triple) (results : TestResultSet)
               (endpoint : Endpoint) (l : Z),
          In (BeforeExecution endpoint l)
             (fst (fst (consume (_execute stateful stateful_recursion_limit checks
                                   targets headers get_stateful_tests maker) results))) ->
          l = 0%Z).
Proof.
  intros stateful limit checks targets headers get_stateful_tests.
  assert (Hwithin : forall maker recursion_level results endpoint l,
             In (BeforeExecution endpoint l)
                (fst (fst (consume (_run_tests stateful limit checks targets headers
                                      get_stateful_tests maker recursion_level) results))) ->
             (recursion_level <= l <= limit)%Z).
  { intros maker recursion_level results endpoint l Hin.
    pose proof (Yields_consume
                  (Yields_run_tests_from stateful limit checks targets headers
                     get_stateful_tests
                     (Z.to_nat (limit + 1 - recursion_level)) maker recursion_level)
                  results) as Hall.
    rewrite Forall_forall in Hall. exact (Hall _ Hin). }
  split; [| split].
  - intros maker recursion_level Hgt. rewrite _run_tests_unfold.
    replace (recursion_level >? limit)%Z with true; [reflexivity |].
    symmetry. apply Z.gtb_lt. lia.
  - exact Hwithin.
  - intros Hzero maker results endpoint l Hin. unfold _execute in Hin.
    apply Hwithin in Hin. lia.
Qed.

Lemma C9_witness :
  ((0 < 1)%Z /\
   _run_tests (Some "links") 0 [] [] None Samples.interrupted_links
     [(Samples.users, positive, Samples.interrupted_test)] 1 = Return tt)
  /\ (In (BeforeExecution Samples.users 0)
         (fst (fst (consume (_run_tests (Some "links") 0 [] [] None
                               Samples.interrupted_links
                               [(Samples.users, positive, Samples.passing_test)] 0) [])))
      /\ (0 <= 0 <= 0)%Z).
Proof.
  pose proof (@C9_recursion_level_never_exceeds_limit (Some "links") 0 [] [] None
                Samples.interrupted_links) as (Hreturn & Hwithin & Hzero).
  assert (Hlt : (0 < 1)%Z) by lia.
  assert (Hin : In (BeforeExecution Samples.users 0)
                  (fst (fst (consume (_run_tests (Some "links") 0 [] [] None
                                        Samples.interrupted_links
                                        [(Samples.users, positive, Samples.passing_test)] 0)
                               []))))
    by (left; reflexivity).
  split; [split; [exact Hlt | exact (Hreturn _ 1%Z Hlt)] |].
  split; [exact Hin |].
  pose proof (Hzero eq_refl [(Samples.users, positive, Samples.passing_test)] []
                Samples.users 0%Z Hin) as _.
  exact (Hwithin _ _ _ _ _ Hin).
Defined.

(** With a limit of 0 the tests derived from the feedback of a passing test
    never start, although the feedback holds a pair to derive one from. *)
Example limit_zero_runs_level_zero_only :
  fst (fst (consume (_execute (Some "links") 0 [] [] None Samples.interrupted_links
                       [(Samples.users, positive, Samples.passing_test)]) []))
  = [BeforeExecution Samples.users 0;
     AfterExecution
       (with_seed (add_success Samples.fresh_result "not_a_server_error" Samples.first_case)
          (Some 7%Z))
       success [] Samples.users].
Proof. reflexivity. Qed.

(** C6, as stated, fails: the example attached to the synthesized error is
    the one of the last recorded Check, here a success on [second_case],
    not the one of the last recorded failing Check, [first_case]. *)
Lemma C6_counterexample :
  match snd (fst (consume (run_test Samples.users Samples.flaky_test [] positive []
                             None 0 (new_Feedback None Samples.users)) [])) with
  | [result] =>
      map snd (errors result) = [Some Samples.second_case]
      /\ last_failing_example (Models.checks result) = Some Samples.first_case
      /\ Samples.first_case <> Samples.second_case
  | _ => False
  end.
Proof.
  cbn. split; [reflexivity |]. split; [reflexivity |]. discriminate.
Qed.

(** C6, amended.  When the driven test raises the engine's flaky signal,
    [run_test] yields [BeforeExecution] and an [AfterExecution] with status
    [error], and appends a result that is marked as errored and to which
    one error is added: the synthesized flaky error, with the example of
    the last recorded Check, whatever its status, or with no example when
    no Check was recorded. *)
Theorem C6_flaky_error_carries_last_check_example :
  forall (endpoint : Endpoint) (seed : option Z)
         (body : list CheckFunction -> list Target -> TestResult ->
                 option Headers -> Feedback -> TestRun)
         (checks : list CheckFunction) (method : DataGenerationMethod)
         (targets : list Target) (headers : option Headers) (recursion_level : Z)
         (feedback : Feedback) (results : TestResultSet) (msg : string),
    let invocation := body checks targets (new_TestResult endpoint headers method)
                        headers feedback in
    run_outcome invocation = Raised (Flaky msg) ->
    exists (result : TestResult) (flaky_example : option Case),
      consume (run_test endpoint (TestFunction seed body) checks method targets headers
                 recursion_level feedback) results
      = ([BeforeExecution endpoint recursion_level;
          AfterExecution result error (run_output invocation) endpoint],
         results ++ [result], run_feedback invocation)
      /\ is_errored result = true
      /\ Models.checks result = Models.checks (run_result invocation)
      /\ errors result = errors (run_result invocation) ++ [(flaky_error, flaky_example)]
      /\ flaky_example
         = option_map example (last_check (Models.checks (run_result invocation)))
      /\ (Models.checks (run_result invocation) = [] -> flaky_example = None)
      /\ (forall earlier final,
             Models.checks (run_result invocation) = earlier ++ [final] ->
             flaky_example = Some (example final)).
Proof.
  intros endpoint seed body checks method targets headers recursion_level feedback
    results msg invocation Hflaky.
  exists (with_seed
            (add_error (mark_errored (run_result invocation)) flaky_error
               (option_map example (last_check (Models.checks (run_result invocation)))))
            (or_else seed (run_generated_seed invocation))).
  exists (option_map example (last_check (Models.checks (run_result invocation)))).
  split.
  - unfold run_test. cbv zeta. fold invocation. rewrite Hflaky.
    unfold handle. cbn [mark_errored Models.checks].
    destruct (Models.checks (run_result invocation)) as [| c cs] eqn:Hcs.
    + reflexivity.
    + destruct (last_check (c :: cs)); reflexivity.
  - split; [reflexivity |]. split; [reflexivity |]. split; [reflexivity |].
    split; [reflexivity |]. split.
    + intros Hnil. rewrite Hnil. reflexivity.
    + intros earlier final Hcs. rewrite Hcs, last_check_app. reflexivity.
Qed.

Lemma C6_witness :
  exists (result : TestResult) (flaky_example : option Case),
    consume (run_test Samples.users Samples.flaky_test [] positive [] None 0
               (new_Feedback None Samples.users)) []
    = ([BeforeExecution Samples.users 0; AfterExecution result error [] Samples.users],
       [result], new_Feedback None Samples.users)
    /\ is_errored result = true
    /\ errors result = [(flaky_error, flaky_example)]
    /\ flaky_example = Some Samples.second_case.
Proof.
  destruct (@C6_flaky_error_carries_last_check_example Samples.users None
              (fun _ _ result _ feedback =>
                 {| run_result :=
                      add_success
                        (add_failure result "status_code_conformance" Samples.first_case
                           "bad status")
                        "status_code_conformance" Samples.second_case;
                    run_feedback := feedback; run_output := [];
                    run_generated_seed := Some 7%Z;
                    run_outcome := Raised (Flaky "Flaky") |})
              [] positive [] None 0%Z (new_Feedback None Samples.users) [] "Flaky"%string
              eq_refl)
    as (result & flaky_example & Hrun & Herrored & _ & Herrors & _ & _ & Hlast).
  exists result, flaky_example.
  split; [exact Hrun |]. split; [exact Herrored |]. split; [exact Herrors |].
  exact (Hlast
           [{| name := "status_code_conformance"; value := failure;
               example := Samples.first_case; message := Some "bad status" |}]
           {| name := "status_code_conformance"; value := success;
              example := Samples.second_case; message := None |}
           eq_refl).
Defined.

(** Without stop-on-first-failure, [execute] forwards the whole delegated
    sequence and then emits [Finished] with the final results. *)
Lemma run_forwards_everything (schema : string) (delegated : Gen unit) :
  run schema false delegated =
  Initialized schema :: fst (fst (consume delegated []))
    ++ [Finished (snd (fst (consume delegated [])))].
Proof.
  rewrite run_spec, forwarded_all.
  destruct (trace_consume delegated []) as [Hevents Hfinal].
  rewrite Hevents, Hfinal. reflexivity.
Qed.

(** C2, as stated, fails: the stream of a run whose test is interrupted
    contains the [Interrupted] event and, after it, a [Finished] event,
    with or without stop-on-first-failure. *)
Lemma C2_counterexample :
  run "api" false Samples.interrupted_run =
    [Initialized "api"; BeforeExecution Samples.users 0; Interrupted; Finished []]
  /\ run "api" true Samples.interrupted_run =
    [Initialized "api"; BeforeExecution Samples.users 0; Interrupted; Finished []]
  /\ existsb is_Interrupted (run "api" false Samples.interrupted_run) = true
  /\ existsb is_Finished (run "api" false Samples.interrupted_run) = true.
Proof. repeat split; reflexivity. Qed.

(** An interruption below level 0 ends only the scheduler call it occurs
    in: the caller goes on with its next endpoint, whose derived test can
    be interrupted in turn. *)
Example nested_interruption_does_not_end_the_run :
  map (fun event =>
         match event with
         | BeforeExecution endpoint l => (verbose_name endpoint, l)
         | AfterExecution _ _ _ endpoint => (verbose_name endpoint, (-1)%Z)
         | Interrupted => ("Interrupted", 0%Z)
         | Initialized _ => ("Initialized", 0%Z)
         | Finished results => ("Finished", Z.of_nat (List.length results))
         end)
      (run "api" false
         (_execute (Some "links") 5 [] [] None Samples.interrupted_links
            [(Samples.users, positive, Samples.passing_test);
             (Samples.orders, positive, Samples.passing_test)]))
  = [("Initialized", 0%Z);
     ("GET /users", 0%Z); ("GET /users", (-1)%Z); ("GET /users", 1%Z);
     ("Interrupted", 0%Z);
     ("GET /orders", 0%Z); ("GET /orders", (-1)%Z); ("GET /orders", 1%Z);
     ("Interrupted", 0%Z);
     ("Finished", 2%Z)].
Proof. reflexivity. Qed.

(** C2, amended.  When a test of the top-level maker is interrupted (and
    none before it at that level is), the stream of a run without
    stop-on-first-failure is: [Initialized]; the events of the tests before
    it; the [BeforeExecution] of the interrupted test; one [Interrupted]
    event; and the [Finished] event, which carries the results accumulated
    before the interrupted invocation, none for the invocation itself.  No
    test listed after the interrupted one is started.  Whatever the
    delegated sequence and the policy, the stream of a run ends with a
    [Finished] event. *)
Theorem C2_interrupted_run_still_finishes :
  forall (stateful : option string) (stateful_recursion_limit : Z)
         (checks : list CheckFunction) (targets : list Target)
         (headers : option Headers) (get_stateful_tests : Feedback -> list Triple)
         (schema : string) (pre post : list Triple)
         (endpoint : Endpoint) (method : DataGenerationMethod) (test : Test),
    (0 <= stateful_recursion_limit)%Z ->
    Forall (fun triple => interrupts stateful checks targets headers triple = false) pre ->
    interrupts stateful checks targets headers (endpoint, method, test) = true ->
    let before := consume (_run_tests stateful stateful_recursion_limit checks targets
                             headers get_stateful_tests pre 0) [] in
    run schema false
      (_execute stateful stateful_recursion_limit checks targets headers
         get_stateful_tests (pre ++ (endpoint, method, test) :: post))
    = Initialized schema :: fst (fst before)
        ++ [BeforeExecution endpoint 0; Interrupted; Finished (snd (fst before))]
    /\ (forall (exit_first : bool) (delegated : Gen unit),
          exists events results,
            run schema exit_first delegated
            = Initialized schema :: events ++ [Finished results]).
Proof.
  intros stateful limit checks targets headers get_stateful_tests schema pre post
    endpoint method test Hlimit Hpre Hint before.
  split.
  - rewrite run_forwards_everything. unfold _execute. subst before.
    rewrite !_run_tests_unfold.
    replace (0 >? limit)%Z with false
      by (pose proof (Zgt_cases 0 limit) as Hc; destruct (0 >? limit)%Z;
          [lia | reflexivity]).
    rewrite each_test_app by exact Hpre.
    destruct (consume (for_each_test stateful checks targets headers _ 0 pre) [])
      as [[events1 results1] u1].
    rewrite each_test_interrupted by exact Hint.
    cbn [fst snd]. rewrite <- app_assoc. reflexivity.
  - intros exit_first delegated. rewrite run_spec.
    destruct (forwarded exit_first _ _) as [events results].
    exists events, results. reflexivity.
Qed.

Lemma C2_witness :
  run "api" false
    (_execute (Some "links") 5 [] [] None Samples.no_links
       ([(Samples.orders, positive, Samples.passing_test)]
        ++ (Samples.users, positive, Samples.interrupted_test)
           :: [(Samples.orders, positive, Samples.failing_test)]))
  = [Initialized "api";
     BeforeExecution Samples.orders 0;
     AfterExecution
       (with_seed
          (add_success (new_TestResult Samples.orders None positive)
             "not_a_server_error" Samples.first_case)
          (Some 7%Z))
       success [] Samples.orders;
     BeforeExecution Samples.users 0;
     Interrupted;
     Finished
       [with_seed
          (add_success (new_TestResult Samples.orders None positive)
             "not_a_server_error" Samples.first_case)
          (Some 7%Z)]].
Proof.
  assert (Hlimit : (0 <= 5)%Z) by lia.
  assert (Hpre : Forall (fun triple => interrupts (Some "links") [] [] None triple = false)
                   [(Samples.orders, positive, Samples.passing_test)])
    by (repeat constructor).
  exact (proj1 (@C2_interrupted_run_still_finishes (Some "links") 5 [] [] None
                  Samples.no_links "api"
                  [(Samples.orders, positive, Samples.passing_test)]
                  [(Samples.orders, positive, Samples.failing_test)]
                  Samples.users positive Samples.interrupted_test
                  Hlimit Hpre eq_refl)).
Defined.

(* ===================================================================== *)
(** ** Run Controller: the claims *)
(* ===================================================================== *)

(** C1, as stated, fails: with stop-on-first-failure, the failing
    [AfterExecution] event the scheduler produces is not in the stream of
    the run; the stream is [Initialized], [BeforeExecution], [Finished]. *)
Lemma C1_counterexample :
  In (AfterExecution Samples.failed_result failure ["Falsifying example"] Samples.users)
     (fst (fst (consume Samples.failing_run [])))
  /\ run "api" true Samples.failing_run =
       [Initialized "api"; BeforeExecution Samples.users 0;
        Finished [Samples.failed_result]]
  /\ ~ In (AfterExecution Samples.failed_result failure ["Falsifying example"]
            Samples.users)
         (run "api" true Samples.failing_run).
Proof.
  split; [right; left; reflexivity |].
  assert (Hrun : run "api" true Samples.failing_run =
                 [Initialized "api"; BeforeExecution Samples.users 0;
                  Finished [Samples.failed_result]]) by reflexivity.
  split; [exact Hrun |]. rewrite Hrun.
  intros [H | [H | [H | []]]]; discriminate H.
Qed.

(** C1, amended.  With stop-on-first-failure enabled, when the delegated
    sequence produces an [AfterExecution] event with status [error] or
    [failure], [execute] yields [Initialized], then the delegated events
    that come before the first such event, then the terminal [Finished]
    event carrying the TestResultSet as it is when that event is produced;
    the triggering event itself and everything after it are not yielded.
    When the delegated sequence is the scheduler's, that TestResultSet ends
    with the result of the failing invocation. *)
Theorem C1_exit_first_stops_before_failing_event :
  forall (schema : string) (delegated : Gen unit)
         (pre post : list (ExecutionEvent * TestResultSet))
         (trigger : ExecutionEvent) (results final : TestResultSet),
    trace delegated [] = (pre ++ (trigger, results) :: post, final) ->
    Forall (fun step => should_stop true (fst step) = false) pre ->
    should_stop true trigger = true ->
    run schema true delegated = Initialized schema :: map fst pre ++ [Finished results]
    /\ ~ In trigger (run schema true delegated)
    /\ (forall (stateful : option string) (stateful_recursion_limit : Z)
               (checks : list CheckFunction) (targets : list Target)
               (headers : option Headers)
               (get_stateful_tests : Feedback -> list Triple) (maker : list Triple),
          delegated = _execute stateful stateful_recursion_limit checks targets headers
                        get_stateful_tests maker ->
          exists earlier result status output endpoint,
            trigger = AfterExecution result status output endpoint
            /\ results = earlier ++ [result]).
Proof.
  intros schema delegated pre post trigger results final Htrace Hpre Htrigger.
  assert (Hrun : run schema true delegated
                 = Initialized schema :: map fst pre ++ [Finished results]).
  { rewrite run_spec, Htrace. cbn [fst snd].
    rewrite (@forwarded_stop pre post trigger results final Hpre Htrigger).
    reflexivity. }
  split; [exact Hrun |]. split.
  - rewrite Hrun. intros [H | H].
    + rewrite <- H in Htrigger. discriminate Htrigger.
    + apply in_app_or in H. destruct H as [H | [H | []]].
      * apply in_map_iff in H. destruct H as (step & Hstep & Hin).
        rewrite Forall_forall in Hpre. specialize (Hpre step Hin).
        rewrite Hstep in Hpre. congruence.
      * rewrite <- H in Htrigger. discriminate Htrigger.
  - intros stateful limit checks targets headers get_stateful_tests maker Hdelegated.
    destruct trigger as [ | | result status output endpoint | | ];
      try discriminate Htrigger.
    pose proof (Reports_trace
                  (Reports_run_tests stateful limit checks targets headers
                     get_stateful_tests maker 0) []) as Hall.
    unfold _execute in Hdelegated. rewrite <- Hdelegated, Htrace in Hall.
    cbn [fst] in Hall. rewrite Forall_forall in Hall.
    destruct (Hall (AfterExecution result status output endpoint, results))
      with (result := result) (status := status) (output := output) (endpoint := endpoint)
      as [earlier Hearlier].
    + apply in_or_app. right. left. reflexivity.
    + reflexivity.
    + exists earlier, result, status, output, endpoint. split; [reflexivity | exact Hearlier].
Qed.

Lemma C1_witness :
  run "api" true Samples.failing_run =
    [Initialized "api"; BeforeExecution Samples.users 0; Finished [Samples.failed_result]]
  /\ ~ In (AfterExecution Samples.failed_result failure ["Falsifying example"]
            Samples.users)
         (run "api" true Samples.failing_run).
Proof.
  assert (Hpre : Forall (fun step : ExecutionEvent * TestResultSet =>
                           should_stop true (fst step) = false)
                   [(BeforeExecution Samples.users 0, [])])
    by (repeat constructor).
  destruct (@C1_exit_first_stops_before_failing_event "api" Samples.failing_run
              [(BeforeExecution Samples.users 0, [])] []
              (AfterExecution Samples.failed_result failure ["Falsifying example"]
                 Samples.users)
              [Samples.failed_result] [Samples.failed_result] eq_refl Hpre eq_refl)
    as (Hrun & Hnot & _).
  split; [exact Hrun | exact Hnot].
Defined.

(* ===================================================================== *)
(** ** Check aggregation: further properties *)
(* ===================================================================== *)

Section MoreChecksFacts.

Variables (case : Case) (response : Response).

Lemma failure_messages_app (a b : list Check) :
  failure_messages (a ++ b) = failure_messages a ++ failure_messages b.
Proof. unfold failure_messages. apply flat_map_app. Qed.

Lemma complaints_are_failure_messages (checks : list CheckFunction) :
  flat_map (complaints response case) checks
  = failure_messages (flat_map (recorded response case) checks).
Proof.
  induction checks as [| check rest IH]; [reflexivity |].
  cbn [flat_map]. rewrite failure_messages_app, IH.
  unfold complaints, recorded.
  destruct (call check response case) as [[|]|msg|exc]; reflexivity.
Qed.

Lemma response_time_check_errors (elapsed_time : float) (max_response_time : option Z)
    (st : ChecksState) :
  cs_errors (response_time_check case elapsed_time max_response_time st)
  = cs_errors st ++ failure_messages (synthetic case elapsed_time max_response_time).
Proof.
  unfold response_time_check, synthetic, truthy.
  destruct max_response_time as [limit |]; [| symmetry; apply app_nil_r].
  destruct (limit =? 0)%Z; cbn [negb]; [symmetry; apply app_nil_r |].
  destruct (gt_int elapsed_time limit); cbn [cs_errors].
  - reflexivity.
  - symmetry. apply app_nil_r.
Qed.

Lemma failure_message_not_empty (check_name msg : string) :
  failure_message check_name msg <> EmptyString.
Proof.
  unfold failure_message. destruct (msg =? EmptyString)%string eqn:E.
  - discriminate.
  - apply String.eqb_neq. exact E.
Qed.

Lemma recorded_well_formed (checks : list CheckFunction) :
  Forall well_formed_entry (flat_map (recorded response case) checks).
Proof.
  induction checks as [| check rest IH]; [constructor |].
  cbn [flat_map]. apply Forall_app. split; [| exact IH].
  unfold recorded. destruct (call check response case) as [[|]|msg|exc].
  - constructor.
  - constructor; [| constructor]. left. split; reflexivity.
  - constructor; [| constructor]. right. split; [reflexivity |].
    eexists. split; [reflexivity |]. apply failure_message_not_empty.
  - constructor.
Qed.

Lemma synthetic_well_formed (elapsed_time : float) (max_response_time : option Z) :
  Forall well_formed_entry (synthetic case elapsed_time max_response_time).
Proof.
  unfold synthetic. destruct max_response_time as [limit |]; [| constructor].
  destruct (limit =? 0)%Z; [constructor |].
  destruct (gt_int elapsed_time limit); (constructor; [| constructor]).
  - right. split; [reflexivity |]. eexists. split; [reflexivity | discriminate].
  - left. split; reflexivity.
Qed.

Lemma failure_messages_nil (cs : list Check) :
  Forall well_formed_entry cs ->
  (failure_messages cs = [] <-> Forall (fun c => value c = success) cs).
Proof.
  induction 1 as [| c rest Hc _ IH]; [split; constructor |].
  unfold failure_messages in *. cbn [flat_map].
  destruct Hc as [[Hv Hm] | [Hv (m & Hm & _)]]; rewrite Hv; try rewrite Hm.
  - cbn [app]. rewrite IH. split.
    + intros H. constructor; assumption.
    + intros H. inversion H; assumption.
  - split; [discriminate |]. intros H. inversion H as [| ? ? Hs _]. congruence.
Qed.

(** The predicate loop splits over its list when the first part returns
    or asserts. *)
Lemma run_checks_loop_app (pre rest : list CheckFunction) :
  Forall (returns_or_asserts response case) pre ->
  forall st,
    run_checks_loop case response (pre ++ rest) st
    = run_checks_loop case response rest (fst (run_checks_loop case response pre st)).
Proof.
  induction 1 as [| check pre Hcheck _ IH]; intros st; [reflexivity |].
  cbn [app run_checks_loop].
  destruct (call check response case) as [[|]|msg|exc] eqn:E; cbn [negb].
  - apply IH.
  - apply IH.
  - apply IH.
  - exfalso. exact (Hcheck exc E).
Qed.

(** Nothing in the loop touches the stored interactions of the result. *)
Lemma run_checks_loop_interactions (checks : list CheckFunction) :
  forall st,
    interactions (cs_result (fst (run_checks_loop case response checks st)))
    = interactions (cs_result st).
Proof.
  induction checks as [| check rest IH]; intros st; [reflexivity |].
  cbn [run_checks_loop].
  destruct (call check response case) as [[|]|msg|exc]; cbn [negb];
    try rewrite IH; reflexivity.
Qed.

Lemma run_checks_interactions (checks : list CheckFunction) (check_results : list Check)
    (result : TestResult) (elapsed_time : float) (max_response_time : option Z) :
  interactions (cs_result (fst (run_checks case checks check_results result response
                                  elapsed_time max_response_time)))
  = interactions result.
Proof.
  unfold run_checks.
  match goal with
  | |- context [run_checks_loop case response checks ?st0] =>
      pose proof (run_checks_loop_interactions checks st0) as Hloop;
      destruct (run_checks_loop case response checks st0) as [st1 [| exc]]
  end; cbn [fst cs_result] in Hloop.
  - destruct (response_time_check_spec case elapsed_time max_response_time st1)
      as (_ & _ & _ & Hint & _).
    destruct (cs_errors (response_time_check _ _ _ _)); cbn [fst];
      rewrite Hint; exact Hloop.
  - exact Hloop.
Qed.

End MoreChecksFacts.

(** X1.  [run_checks] returns normally exactly when every Check it recorded in
    this call is a success; otherwise it raises the grouped failure for the
    endpoint's display name, which lists the messages of all the failing
    Checks of the call, in the order they were recorded (predicates first,
    response time last). *)
Theorem run_checks_raises_iff_some_check_failed :
  forall (case : Case) (checks : list CheckFunction) (check_results : list Check)
         (result : TestResult) (response : Response) (elapsed_time : float)
         (max_response_time : option Z),
    Forall (returns_or_asserts response case) checks ->
    let out := run_checks case checks check_results result response
                 elapsed_time max_response_time in
    exists new : list Check,
      Models.checks (cs_result (fst out)) = Models.checks result ++ new
      /\ (snd out = Normal <-> Forall (fun c => value c = success) new)
      /\ (forall exc, snd out = Raised exc ->
            exc = CheckFailed (verbose_name (case_endpoint case)) (failure_messages new)
            /\ failure_messages new <> []).
Proof.
  intros case checks check_results result response elapsed_time max_response_time
    Hchecks out.
  exists (flat_map (recorded response case) checks
          ++ synthetic case elapsed_time max_response_time).
  destruct (run_checks_lists check_results result elapsed_time max_response_time Hchecks)
    as (Hrecorded & _).
  split; [exact Hrecorded |].
  assert (Hwf : Forall well_formed_entry
                  (flat_map (recorded response case) checks
                   ++ synthetic case elapsed_time max_response_time))
    by (apply Forall_app; split;
        [apply recorded_well_formed | apply synthetic_well_formed]).
  subst out. rewrite (run_checks_unfold _ _ _ _ Hchecks). cbv zeta. cbn [snd].
  rewrite response_time_check_errors. cbn [cs_errors].
  rewrite complaints_are_failure_messages, <- failure_messages_app.
  rewrite <- (failure_messages_nil Hwf).
  destruct (failure_messages _) as [| m ms] eqn:Hm.
  - split; [split; reflexivity |]. intros exc H. discriminate H.
  - split; [split; discriminate |].
    intros exc H. injection H as <-. split; [reflexivity | discriminate].
Qed.

Lemma run_checks_raises_iff_some_check_failed_witness :
  exists new : list Check,
    Models.checks (cs_result (fst (run_checks Samples.first_case
                                     [Samples.passing; Samples.failing; MoreSamples.silent]
                                     [] Samples.fresh_result Samples.slow_ok (of_int 150)
                                     (Some 100%Z))))
      = Models.checks Samples.fresh_result ++ new
    /\ failure_messages new
       = ["bad status"; "Check 'content_type_conformance' failed";
          "Response time exceeded the limit of 100 ms"]
    /\ snd (run_checks Samples.first_case
              [Samples.passing; Samples.failing; MoreSamples.silent]
              [] Samples.fresh_result Samples.slow_ok (of_int 150) (Some 100%Z))
       = Raised (CheckFailed "GET /users" (failure_messages new)).
Proof.
  assert (H : Forall (returns_or_asserts Samples.slow_ok Samples.first_case)
                [Samples.passing; Samples.failing; MoreSamples.silent])
    by (repeat constructor; intros exc; simpl; discriminate).
  destruct (@run_checks_raises_iff_some_check_failed Samples.first_case
              [Samples.passing; Samples.failing; MoreSamples.silent] []
              Samples.fresh_result Samples.slow_ok (of_int 150) (Some 100%Z) H)
    as (new & Hnew & _ & Hraised).
  exists new. split; [exact Hnew |].
  cbn in Hnew. apply app_inv_head with (l := []) in Hnew. subst new.
  split; [reflexivity |].
  destruct (Hraised _ eq_refl) as [Hexc _]. exact (f_equal Raised Hexc).
Defined.

(** X2.  A predicate that raises anything but an assertion ends [run_checks] on
    the spot: the exception leaves the call as it is, the predicates after
    it are not invoked and no response-time entry is recorded, while the
    entries of the predicates before it stay recorded. *)
Theorem run_checks_other_exception_aborts :
  forall (case : Case) (response : Response) (pre post : list CheckFunction)
         (check : CheckFunction) (exc : Exn) (check_results : list Check)
         (result : TestResult) (elapsed_time : float) (max_response_time : option Z),
    Forall (returns_or_asserts response case) pre ->
    call check response case = RaisedOther exc ->
    let out := run_checks case (pre ++ check :: post) check_results result response
                 elapsed_time max_response_time in
    snd out = Raised exc
    /\ cs_invoked (fst out)
       = map (fun c => (__name__ c, response, case)) (pre ++ [check])
    /\ Models.checks (cs_result (fst out))
       = Models.checks result ++ flat_map (recorded response case) pre
    /\ cs_check_results (fst out)
       = check_results ++ flat_map (recorded response case) pre.
Proof.
  intros case response pre post check exc check_results result elapsed_time
    max_response_time Hpre Hcheck out.
  subst out. unfold run_checks.
  rewrite run_checks_loop_app by exact Hpre.
  rewrite (run_checks_loop_spec Hpre).
  cbn [fst run_checks_loop]. rewrite Hcheck.
  cbn [fst snd cs_invoked cs_result cs_check_results cs_errors app with_checks
       Models.checks].
  repeat split. rewrite map_app. reflexivity.
Qed.

Lemma run_checks_other_exception_aborts_witness :
  let out := run_checks Samples.first_case
               ([Samples.passing] ++ MoreSamples.crashing :: [Samples.failing]) []
               Samples.fresh_result Samples.slow_ok (of_int 150) (Some 100%Z) in
  snd out = Raised (OtherException "KeyError: 'id'")
  /\ map (fun i => fst (fst i)) (cs_invoked (fst out))
     = ["not_a_server_error"; "custom_check"]
  /\ map name (Models.checks (cs_result (fst out))) = ["not_a_server_error"].
Proof.
  assert (H : Forall (returns_or_asserts Samples.slow_ok Samples.first_case)
                [Samples.passing])
    by (repeat constructor; intros exc; simpl; discriminate).
  destruct (@run_checks_other_exception_aborts Samples.first_case Samples.slow_ok
              [Samples.passing] [Samples.failing] MoreSamples.crashing
              (OtherException "KeyError: 'id'") [] Samples.fresh_result (of_int 150)
              (Some 100%Z) H eq_refl) as (Hout & Hinvoked & Hrecorded & _).
  cbv zeta. rewrite Hout, Hinvoked, Hrecorded. repeat split.
Defined.

(** X3.  Every Check [run_checks] records is a success without a message or a
    failure with a message that is not empty: an assertion without text
    gets the default message naming the predicate. *)
Theorem run_checks_failures_carry_a_message :
  forall (case : Case) (checks : list CheckFunction) (check_results : list Check)
         (result : TestResult) (response : Response) (elapsed_time : float)
         (max_response_time : option Z),
    Forall (returns_or_asserts response case) checks ->
    let st := fst (run_checks case checks check_results result response
                     elapsed_time max_response_time) in
    exists new stored : list Check,
      Models.checks (cs_result st) = Models.checks result ++ new
      /\ cs_check_results st = check_results ++ stored
      /\ Forall well_formed_entry new
      /\ Forall well_formed_entry stored
      /\ (forall check,
            In check checks -> call check response case = RaisedAssertion EmptyString ->
            In {| name := __name__ check; value := failure; example := case;
                  message := Some ("Check '" ++ __name__ check ++ "' failed")%string |}
               stored).
Proof.
  intros case checks check_results result response elapsed_time max_response_time
    Hchecks st.
  destruct (run_checks_lists check_results result elapsed_time max_response_time Hchecks)
    as (Hrecorded & Hstored & _).
  exists (flat_map (recorded response case) checks
          ++ synthetic case elapsed_time max_response_time),
         (flat_map (recorded response case) checks).
  split; [exact Hrecorded |]. split; [exact Hstored |].
  split; [apply Forall_app; split;
          [apply recorded_well_formed | apply synthetic_well_formed] |].
  split; [apply recorded_well_formed |].
  intros check Hin Hsilent. apply in_flat_map. exists check. split; [exact Hin |].
  unfold recorded. rewrite Hsilent. left. reflexivity.
Qed.

Lemma run_checks_failures_carry_a_message_witness :
  exists new stored : list Check,
    Models.checks (cs_result (fst (run_checks Samples.first_case [MoreSamples.silent] []
                                     Samples.fresh_result Samples.slow_ok (of_int 150) None)))
      = Models.checks Samples.fresh_result ++ new
    /\ cs_check_results (fst (run_checks Samples.first_case [MoreSamples.silent] []
                                Samples.fresh_result Samples.slow_ok (of_int 150) None))
       = [] ++ stored
    /\ Forall well_formed_entry new
    /\ In {| name := "content_type_conformance"; value := failure;
             example := Samples.first_case;
             message := Some "Check 'content_type_conformance' failed" |} stored.
Proof.
  assert (H : Forall (returns_or_asserts Samples.slow_ok Samples.first_case)
                [MoreSamples.silent])
    by (repeat constructor; intros exc; simpl; discriminate).
  destruct (@run_checks_failures_carry_a_message Samples.first_case [MoreSamples.silent]
              [] Samples.fresh_result Samples.slow_ok (of_int 150) None H)
    as (new & stored & Hnew & Hstored & Hwf & _ & Hsilent).
  exists new, stored. split; [exact Hnew |]. split; [exact Hstored |].
  split; [exact Hwf |].
  exact (Hsilent MoreSamples.silent (or_introl eq_refl) eq_refl).
Defined.

(** X4.  A budget that fails the test [if max_response_time:], that is [None]
    or 0, turns the response-time check off: whatever the elapsed time, the
    call ends and records exactly as it does without a budget. *)
Theorem run_checks_without_budget_ignores_elapsed_time :
  forall (case : Case) (checks : list CheckFunction) (check_results : list Check)
         (result : TestResult) (response : Response) (elapsed_time elapsed_time' : float)
         (max_response_time : option Z),
    truthy max_response_time = false ->
    run_checks case checks check_results result response elapsed_time max_response_time
    = run_checks case checks check_results result response elapsed_time' None
    /\ (Forall (returns_or_asserts response case) checks ->
        Models.checks (cs_result (fst (run_checks case checks check_results result
                                         response elapsed_time max_response_time)))
        = Models.checks result ++ flat_map (recorded response case) checks).
Proof.
  intros case checks check_results result response elapsed_time elapsed_time'
    max_response_time Hfalsy.
  assert (Hblock : forall st,
             response_time_check case elapsed_time max_response_time st = st).
  { intros st. unfold response_time_check. destruct max_response_time; [| reflexivity].
    rewrite Hfalsy. reflexivity. }
  split.
  - unfold run_checks.
    destruct (run_checks_loop _ _ _ _) as [st1 [| exc]]; [| reflexivity].
    rewrite Hblock. reflexivity.
  - intros Hchecks.
    destruct (run_checks_lists check_results result elapsed_time max_response_time
                Hchecks) as (Hrecorded & _).
    rewrite Hrecorded. unfold synthetic, truthy in *.
    destruct max_response_time as [limit |]; [| rewrite app_nil_r; reflexivity].
    destruct (limit =? 0)%Z; [rewrite app_nil_r; reflexivity | discriminate Hfalsy].
Qed.

Lemma run_checks_without_budget_ignores_elapsed_time_witness :
  run_checks Samples.first_case [Samples.passing] [] Samples.fresh_result
    Samples.slow_ok (of_int 150) (Some 0%Z)
  = run_checks Samples.first_case [Samples.passing] [] Samples.fresh_result
      Samples.slow_ok (of_int 1) None.
Proof.
  exact (proj1 (@run_checks_without_budget_ignores_elapsed_time Samples.first_case
                  [Samples.passing] [] Samples.fresh_result Samples.slow_ok
                  (of_int 150) (of_int 1) (Some 0%Z) eq_refl)).
Defined.

(* ===================================================================== *)
(** ** Transport test bodies: further properties *)
(* ===================================================================== *)

Section MoreTransportFacts.

Lemma checked_guidance (case : Case) (checks : list CheckFunction)
    (response : Response) (rt : float) (max_response_time : option Z)
    (store_interactions : bool)
    (store : TestResult -> Status -> list Check -> TestResult) (env : TestEnv) :
  env_guidance (fst (checked case checks response rt max_response_time
                       store_interactions store env)) = env_guidance env.
Proof.
  unfold checked.
  destruct (run_checks case checks [] (env_result env) response
              (mul rt (of_int 1000)) max_response_time) as [st [| exc]];
    reflexivity.
Qed.

(** The [finally] clause: one interaction when storing is on, none when it
    is off, whether [run_checks] returned or raised. *)
Lemma checked_interactions (case : Case) (checks : list CheckFunction)
    (response : Response) (rt : float) (max_response_time : option Z)
    (store_interactions : bool)
    (store : TestResult -> Status -> list Check -> TestResult) (env : TestEnv) :
  (forall r status check_results,
      interactions (store r status check_results)
      = interactions r ++ [{| interaction_response := response;
                              interaction_status := status;
                              interaction_checks := check_results |}]) ->
  let rc := run_checks case checks [] (env_result env) response
              (mul rt (of_int 1000)) max_response_time in
  interactions (env_result (fst (checked case checks response rt max_response_time
                                   store_interactions store env)))
  = interactions (env_result env)
      ++ (if store_interactions
          then [{| interaction_response := response;
                   interaction_status := stored_status (snd rc);
                   interaction_checks := cs_check_results (fst rc) |}]
          else []).
Proof.
  intros Hstore rc. subst rc. unfold checked.
  pose proof (run_checks_interactions case response checks [] (env_result env)
                (mul rt (of_int 1000)) max_response_time) as Hkept.
  destruct (run_checks case checks [] (env_result env) response
              (mul rt (of_int 1000)) max_response_time) as [st [| exc]];
    cbn [fst snd] in *; destruct store_interactions;
    cbn [fst set_result set_feedback env_result];
    try rewrite Hstore; rewrite Hkept; try rewrite app_nil_r; reflexivity.
Qed.

(** A body from the point where its call has returned: the interactions it
    stores.  [run_targets] is outside the [try] statement, so an exception
    it raises leaves the body before anything is stored. *)
Lemma targeted_then_checked_interactions (case : Case) (checks : list CheckFunction)
    (targets : list Target) (context : TargetContext)
    (response : Response) (rt : float) (max_response_time : option Z)
    (store_interactions : bool) (prepare : TestResult -> TestResult)
    (store : TestResult -> Status -> list Check -> TestResult) (env : TestEnv) :
  (forall r status check_results,
      interactions (store r status check_results)
      = interactions r ++ [{| interaction_response := response;
                              interaction_status := status;
                              interaction_checks := check_results |}]) ->
  (forall r, interactions (prepare r) = interactions r) ->
  let out :=
    match targeted targets context env with
    | (env', Raised exc) => (env', inl exc)
    | (env', Normal) =>
        checked case checks response rt max_response_time store_interactions store
          (set_result env' (prepare (env_result env')))
    end in
  match snd (run_targets targets context (env_guidance env)) with
  | Raised _ => interactions (env_result (fst out)) = interactions (env_result env)
  | Normal =>
      let rc := run_checks case checks [] (prepare (env_result env)) response
                  (mul rt (of_int 1000)) max_response_time in
      interactions (env_result (fst out))
      = interactions (env_result env)
          ++ (if store_interactions
              then [{| interaction_response := response;
                       interaction_status := stored_status (snd rc);
                       interaction_checks := cs_check_results (fst rc) |}]
              else [])
  end.
Proof.
  intros Hstore Hprepare.
  destruct (targeted_frame targets context env) as (_ & Hresult & _ & _ & Houtcome).
  destruct (targeted targets context env) as [env' outcome].
  cbn [fst snd] in Hresult, Houtcome. rewrite <- Houtcome.
  destruct outcome as [| exc]; cbv zeta.
  - rewrite (checked_interactions _ _ _ _ _ _ _ _ Hstore).
    cbn [env_result set_result]. rewrite Hresult, Hprepare. reflexivity.
  - cbn [fst]. rewrite Hresult. reflexivity.
Qed.

(** And the observations it leaves with the engine: those of [run_targets],
    whatever the checks do afterwards. *)
Lemma targeted_then_checked_guidance (case : Case) (checks : list CheckFunction)
    (targets : list Target) (context : TargetContext)
    (response : Response) (rt : float) (max_response_time : option Z)
    (store_interactions : bool) (prepare : TestResult -> TestResult)
    (store : TestResult -> Status -> list Check -> TestResult) (env : TestEnv) :
  let out :=
    match targeted targets context env with
    | (env', Raised exc) => (env', inl exc)
    | (env', Normal) =>
        checked case checks response rt max_response_time store_interactions store
          (set_result env' (prepare (env_result env')))
    end in
  env_guidance (fst out) = fst (run_targets targets context (env_guidance env)).
Proof.
  destruct (targeted_frame targets context env) as (_ & _ & _ & Hguidance & _).
  destruct (targeted targets context env) as [env' outcome].
  cbn [fst] in Hguidance. rewrite <- Hguidance.
  destruct outcome as [| exc]; cbv zeta.
  - rewrite checked_guidance. reflexivity.
  - reflexivity.
Qed.

Lemma observed_app (label : string) (a b : Observations) :
  observed label (a ++ b) = observed label a || observed label b.
Proof. unfold observed. apply existsb_app. Qed.

(** Targets that return finite scores under labels that are new and
    pairwise distinct are all reported. *)
Lemma run_targets_reports (context : TargetContext) (targets : list Target)
    (values : list float) :
  Forall2 (fun target value =>
             score target context = inr value /\ is_finite value = true)
    targets values ->
  NoDup (map target_name targets) ->
  forall observations,
    Forall (fun target => observed (target_name target) observations = false) targets ->
    run_targets targets context observations
    = (observations ++ combine (map target_name targets) values, Normal).
Proof.
  induction 1 as [| target value targets values [Hscore Hfinite] _ IH];
    intros Hdistinct observations Hnew.
  - cbn. rewrite app_nil_r. reflexivity.
  - cbn [run_targets map combine]. rewrite Hscore.
    unfold hypothesis_target. rewrite Hfinite. cbn [negb].
    inversion Hnew as [| ? ? Hfirst Hrest]; subst.
    inversion Hdistinct as [| ? ? Hnotin Hdistinct']; subst.
    rewrite Hfirst. rewrite IH.
    + rewrite <- app_assoc. reflexivity.
    + exact Hdistinct'.
    + rewrite Forall_forall in Hrest |- *. intros other Hin.
      rewrite observed_app, (Hrest other Hin). cbn.
      rewrite orb_false_r. apply String.eqb_neq. intros Heq.
      apply Hnotin. rewrite Heq. apply in_map. exact Hin.
Qed.

(** A label that already has an observation makes the engine refuse the
    report, if the target gets that far; nothing is added. *)
Lemma run_targets_refused (context : TargetContext) (target : Target)
    (rest : list Target) (observations : Observations) :
  observed (target_name target) observations = true ->
  exists exc,
    run_targets (target :: rest) context observations = (observations, Raised exc).
Proof.
  intros Hobserved. cbn [run_targets].
  destruct (score target context) as [exc | value]; [eexists; reflexivity |].
  unfold hypothesis_target.
  destruct (negb (is_finite value)); [eexists; reflexivity |].
  rewrite Hobserved. eexists. reflexivity.
Qed.

(** After a round of reports that went through, every target's label has
    an observation, and so has every label that had one before. *)
Lemma run_targets_observes (context : TargetContext) (targets : list Target) :
  forall observations observations',
    run_targets targets context observations = (observations', Normal) ->
    Forall (fun target => observed (target_name target) observations' = true) targets
    /\ (forall label, observed label observations = true ->
                      observed label observations' = true).
Proof.
  induction targets as [| target rest IH]; intros observations observations' Hrun.
  - cbn in Hrun. injection Hrun as <-. split; [constructor | auto].
  - cbn [run_targets] in Hrun.
    destruct (score target context) as [exc | value]; [discriminate Hrun |].
    unfold hypothesis_target in Hrun.
    destruct (negb (is_finite value)); [discriminate Hrun |].
    destruct (observed (target_name target) observations); [discriminate Hrun |].
    destruct (IH _ _ Hrun) as [Hrest Hkept].
    assert (Hgrow : forall label, observed label observations = true ->
                                  observed label observations' = true).
    { intros label Hlabel. apply Hkept. rewrite observed_app, Hlabel. reflexivity. }
    split; [| exact Hgrow].
    constructor; [| exact Hrest].
    apply Hkept. rewrite observed_app. cbn. rewrite String.eqb_refl.
    rewrite orb_true_r. reflexivity.
Qed.

(** When every predicate returns and no budget is set, [run_checks]
    returns. *)
Lemma run_checks_all_return (case : Case) (checks : list CheckFunction)
    (check_results : list Check) (result : TestResult) (response : Response)
    (elapsed_time : float) (max_response_time : option Z) :
  always_return checks ->
  truthy max_response_time = false ->
  snd (run_checks case checks check_results result response elapsed_time
         max_response_time) = Normal.
Proof.
  intros Hreturn Hfalsy. specialize (Hreturn response case).
  assert (Hchecks : Forall (returns_or_asserts response case) checks).
  { eapply Forall_impl; [| exact Hreturn]. intros check [b Hb] exc. congruence. }
  rewrite (run_checks_unfold _ _ _ _ Hchecks). cbv zeta. cbn [snd].
  rewrite response_time_check_errors. cbn [cs_errors].
  assert (Hnone : flat_map (complaints response case) checks = []).
  { clear Hchecks. induction Hreturn as [| check rest [b Hb] _ IH]; [reflexivity |].
    cbn [flat_map]. rewrite IH. unfold complaints. rewrite Hb. reflexivity. }
  rewrite Hnone. unfold synthetic, truthy in *.
  destruct max_response_time as [limit |]; [| reflexivity].
  destruct (limit =? 0)%Z; [reflexivity | discriminate Hfalsy].
Qed.

Lemma lower_user_agent : lower "User-Agent" = "user-agent".
Proof. reflexivity. Qed.

Lemma has_user_agent_added (USER_AGENT : string) (headers : Headers) :
  has_user_agent (headers ++ [("User-Agent", USER_AGENT)]) = true.
Proof.
  unfold has_user_agent. rewrite existsb_app. cbn [existsb fst].
  rewrite lower_user_agent. cbn. apply orb_true_r.
Qed.

(** What holds of the request of every inner call holds of every request
    the hook loop sends. *)
Lemma add_cases_loop_sends (P : Request -> Prop)
    (test : Case -> TestEnv -> TestEnv * (Exn + Response))
    (hooks : list (Case -> Response -> option Case))
    (case : Case) (response : Response) :
  (forall c env, exists rq,
      env_requests (fst (test c env)) = env_requests env ++ [rq] /\ P rq) ->
  forall env, exists sent_requests,
    env_requests (fst (add_cases_loop hooks case response test env))
      = env_requests env ++ sent_requests
    /\ Forall P sent_requests.
Proof.
  intros Htest. induction hooks as [| case_hook rest IH]; intros env.
  - exists []. simpl. rewrite app_nil_r. split; [reflexivity | constructor].
  - simpl. destruct (case_hook case response) as [_case |]; [| apply IH].
    destruct (Htest _case env) as (rq & Hrq & HP).
    destruct (test _case env) as [env' [exc | r]]; cbn [fst] in Hrq.
    + exists [rq]. split; [exact Hrq | repeat constructor; exact HP].
    + destruct (IH env') as (more & Hmore & Hall).
      exists (rq :: more). rewrite Hmore, Hrq, <- app_assoc.
      split; [reflexivity | constructor; assumption].
Qed.

(** When every contributed case goes through, the loop requests the hook
    cases one after the other and returns. *)
Lemma add_cases_loop_all_pass
    (test : Case -> TestEnv -> TestEnv * (Exn + Response))
    (hooks : list (Case -> Response -> option Case))
    (case : Case) (response : Response) :
  (forall c env, exists rq r,
      env_requests (fst (test c env)) = env_requests env ++ [rq]
      /\ request_case rq = c /\ snd (test c env) = inr r) ->
  forall env, exists sent_requests,
    env_requests (fst (add_cases_loop hooks case response test env))
      = env_requests env ++ sent_requests
    /\ map request_case sent_requests = hook_cases hooks case response
    /\ snd (add_cases_loop hooks case response test env) = Normal.
Proof.
  intros Htest. unfold hook_cases.
  induction hooks as [| case_hook rest IH]; intros env.
  - exists []. simpl. rewrite app_nil_r. repeat split.
  - cbn [add_cases_loop flat_map].
    destruct (case_hook case response) as [_case |]; [| apply IH].
    destruct (Htest _case env) as (rq & r & Hrq & Hcase & Hret).
    destruct (test _case env) as [env' [exc | r']]; cbn [fst snd] in *;
      [discriminate Hret |].
    destruct (IH env') as (more & Hmore & Hcases & Hnormal).
    exists (rq :: more). rewrite Hmore, Hrq, <- app_assoc.
    split; [reflexivity |]. split; [| exact Hnormal].
    cbn [map app]. rewrite Hcase, Hcases. reflexivity.
Qed.

(** The loop runs the first contributed case on the environment it was
    given: the hooks before it return nothing. *)
Lemma add_cases_loop_first
    (test : Case -> TestEnv -> TestEnv * (Exn + Response))
    (hooks : list (Case -> Response -> option Case))
    (case : Case) (response : Response) (first : Case) (more : list Case)
    (env : TestEnv) (exc : Exn) :
  hook_cases hooks case response = first :: more ->
  snd (test first env) = inl exc ->
  add_cases_loop hooks case response test env = (fst (test first env), Raised exc).
Proof.
  unfold hook_cases. intros Hcases Htest.
  induction hooks as [| case_hook rest IH]; [discriminate Hcases |].
  cbn [add_cases_loop flat_map] in *.
  destruct (case_hook case response) as [_case |].
  - cbn [app] in Hcases. injection Hcases as -> _.
    destruct (test first env) as [env' [exc' | r]]; cbn [fst snd] in *;
      [congruence | discriminate Htest].
  - apply IH. exact Hcases.
Qed.

End MoreTransportFacts.

(** X5.  Once its call has returned a response and the targets have been
    reported, each of the three inner bodies stores exactly one interaction
    when storing is on, on the path where [run_checks] returns and on the
    paths where it raises, and none when storing is off.  The interaction
    carries the response, the check list [run_checks] filled, and the
    status [failure] exactly when the grouped check failure was raised.
    [run_targets] is not covered by the [try] statement: when it raises,
    nothing is stored. *)
Theorem inner_bodies_store_interaction_on_every_path :
  forall (call : Request -> Exn + Response)
         (call_wsgi : Case -> Headers -> Exn + (Response * float * list string))
         (call_asgi : Case -> option Headers -> Exn + Response)
         (case : Case) (checks : list CheckFunction) (targets : list Target)
         (session : option (string * string)) (timeout : option float)
         (store_interactions request_tls_verify : bool)
         (headers : option Headers) (wsgi_headers : Headers)
         (max_response_time : option Z) (env : TestEnv)
         (response wsgi_response asgi_response : Response)
         (wsgi_elapsed : float) (recorded_logs : list string),
    call {| request_case := case; request_session := session;
            request_headers := headers; request_timeout := timeout;
            request_verify := request_tls_verify |} = inr response ->
    call_wsgi case wsgi_headers = inr (wsgi_response, wsgi_elapsed, recorded_logs) ->
    call_asgi case headers = inr asgi_response ->
    (let out := _network_test call case checks targets session timeout
                  store_interactions headers request_tls_verify max_response_time env in
     match snd (run_targets targets
                  {| context_case := case; context_response := response;
                     response_time := elapsed response |} (env_guidance env)) with
     | Raised _ => interactions (env_result (fst out)) = interactions (env_result env)
     | Normal =>
         let rc := run_checks case checks [] (env_result env) response
                     (mul (elapsed response) (of_int 1000)) max_response_time in
         interactions (env_result (fst out))
         = interactions (env_result env)
             ++ (if store_interactions
                 then [{| interaction_response := response;
                          interaction_status := stored_status (snd rc);
                          interaction_checks := cs_check_results (fst rc) |}]
                 else [])
     end)
    /\ (let out := _wsgi_test call_wsgi case checks targets wsgi_headers
                     store_interactions max_response_time env in
        match snd (run_targets targets
                     {| context_case := case; context_response := wsgi_response;
                        response_time := wsgi_elapsed |} (env_guidance env)) with
        | Raised _ => interactions (env_result (fst out)) = interactions (env_result env)
        | Normal =>
            let rc := run_checks case checks []
                        (with_logs (env_result env)
                           (logs (env_result env) ++ recorded_logs))
                        wsgi_response (mul wsgi_elapsed (of_int 1000))
                        max_response_time in
            interactions (env_result (fst out))
            = interactions (env_result env)
                ++ (if store_interactions
                    then [{| interaction_response := wsgi_response;
                             interaction_status := stored_status (snd rc);
                             interaction_checks := cs_check_results (fst rc) |}]
                    else [])
        end)
    /\ (let out := _asgi_test call_asgi case checks targets store_interactions
                     headers max_response_time env in
        match snd (run_targets targets
                     {| context_case := case; context_response := asgi_response;
                        response_time := elapsed asgi_response |} (env_guidance env)) with
        | Raised _ => interactions (env_result (fst out)) = interactions (env_result env)
        | Normal =>
            let rc := run_checks case checks [] (env_result env) asgi_response
                        (mul (elapsed asgi_response) (of_int 1000))
                        max_response_time in
            interactions (env_result (fst out))
            = interactions (env_result env)
                ++ (if store_interactions
                    then [{| interaction_response := asgi_response;
                             interaction_status := stored_status (snd rc);
                             interaction_checks := cs_check_results (fst rc) |}]
                    else [])
        end).
Proof.
  intros call call_wsgi call_asgi case checks targets session timeout
    store_interactions request_tls_verify headers wsgi_headers max_response_time env
    response wsgi_response asgi_response wsgi_elapsed recorded_logs Hcall Hwsgi Hasgi.
  split; [| split].
  - unfold _network_test. cbv zeta. rewrite Hcall. cbv beta iota zeta.
    match goal with
    | |- context [checked case checks response ?rt max_response_time
                    store_interactions ?store _] =>
        pose proof (@targeted_then_checked_interactions case checks targets
                      {| context_case := case; context_response := response;
                         response_time := elapsed response |}
                      response rt max_response_time store_interactions
                      (fun r => r) store
                      (sent env {| request_case := case; request_session := session;
                                   request_headers := headers; request_timeout := timeout;
                                   request_verify := request_tls_verify |})
                      (fun _ _ _ => eq_refl) (fun _ => eq_refl)) as H
    end.
    cbv zeta in H. cbn [sent env_guidance env_result] in H.
    destruct (targeted _ _ _) as [env' [| exc]]; cbn [set_result] in H.
    + destruct env'; exact H.
    + exact H.
  - unfold _wsgi_test. rewrite Hwsgi. cbv beta iota zeta.
    match goal with
    | |- context [checked case checks wsgi_response ?rt max_response_time
                    store_interactions ?store _] =>
        pose proof (@targeted_then_checked_interactions case checks targets
                      {| context_case := case; context_response := wsgi_response;
                         response_time := wsgi_elapsed |}
                      wsgi_response rt max_response_time store_interactions
                      (fun r => with_logs r (logs r ++ recorded_logs)) store env
                      (fun _ _ _ => eq_refl) (fun _ => eq_refl)) as H
    end.
    cbv zeta in H. exact H.
  - unfold _asgi_test. rewrite Hasgi. cbv beta iota zeta.
    match goal with
    | |- context [checked case checks asgi_response ?rt max_response_time
                    store_interactions ?store _] =>
        pose proof (@targeted_then_checked_interactions case checks targets
                      {| context_case := case; context_response := asgi_response;
                         response_time := elapsed asgi_response |}
                      asgi_response rt max_response_time store_interactions
                      (fun r => r) store env
                      (fun _ _ _ => eq_refl) (fun _ => eq_refl)) as H
    end.
    cbv zeta in H.
    destruct (targeted _ _ _) as [env' [| exc]]; cbn [set_result] in H.
    + destruct env'; exact H.
    + exact H.
Qed.

Lemma inner_bodies_store_interaction_on_every_path_witness :
  map (fun i => (interaction_status i, map name (interaction_checks i)))
    (interactions (env_result (fst (_network_test Samples.answering Samples.first_case
                                      [Samples.passing; Samples.failing] [] None None
                                      true None true None Samples.fresh_env))))
  = [(failure, ["not_a_server_error"; "status_code_conformance"])]
  /\ map (fun i => (interaction_status i, map name (interaction_checks i)))
       (interactions (env_result (fst (_wsgi_test Samples.answering_wsgi
                                         Samples.first_case
                                         [MoreSamples.crashing] [] [] true None
                                         Samples.fresh_env))))
     = [(success, [])].
Proof.
  destruct (@inner_bodies_store_interaction_on_every_path
              Samples.answering Samples.answering_wsgi Samples.answering_asgi
              Samples.first_case [Samples.passing; Samples.failing] [] None None
              true true None [] None Samples.fresh_env
              Samples.slow_ok Samples.slow_ok Samples.slow_ok Samples.seconds_0_15
              ["GET /users 200"] eq_refl eq_refl eq_refl) as (Hnetwork & _ & _).
  destruct (@inner_bodies_store_interaction_on_every_path
              Samples.answering Samples.answering_wsgi Samples.answering_asgi
              Samples.first_case [MoreSamples.crashing] [] None None
              true true None [] None Samples.fresh_env
              Samples.slow_ok Samples.slow_ok Samples.slow_ok Samples.seconds_0_15
              ["GET /users 200"] eq_refl eq_refl eq_refl) as (_ & Hwsgi & _).
  cbv zeta in Hnetwork, Hwsgi. cbn [run_targets snd] in Hnetwork, Hwsgi.
  rewrite Hnetwork, Hwsgi. split; reflexivity.
Defined.

(** X6.  Once its call has returned a response, each inner body reports the
    targets to the generation engine before the checks run, and whatever
    the checks then find, the engine is left with the observations of
    [run_targets]; the network and ASGI bodies score the response's own
    elapsed time, the WSGI body the time measured around the call.  When
    every target returns a finite score and the labels are pairwise distinct
    and new to the test case, there is one observation per target, in the
    order of the targets and under their names; a first target whose label
    already has an observation ends [run_targets] with an exception, and
    nothing is added. *)
Theorem inner_bodies_report_targets_whatever_the_checks :
  forall (call : Request -> Exn + Response)
         (call_wsgi : Case -> Headers -> Exn + (Response * float * list string))
         (call_asgi : Case -> option Headers -> Exn + Response)
         (case : Case) (checks : list CheckFunction) (targets : list Target)
         (session : option (string * string)) (timeout : option float)
         (store_interactions request_tls_verify : bool)
         (headers : option Headers) (wsgi_headers : Headers)
         (max_response_time : option Z) (env : TestEnv)
         (response wsgi_response asgi_response : Response)
         (wsgi_elapsed : float) (recorded_logs : list string),
    call {| request_case := case; request_session := session;
            request_headers := headers; request_timeout := timeout;
            request_verify := request_tls_verify |} = inr response ->
    call_wsgi case wsgi_headers = inr (wsgi_response, wsgi_elapsed, recorded_logs) ->
    call_asgi case headers = inr asgi_response ->
    env_guidance (fst (_network_test call case checks targets session timeout
                         store_interactions headers request_tls_verify
                         max_response_time env))
    = fst (run_targets targets
             {| context_case := case; context_response := response;
                response_time := elapsed response |} (env_guidance env))
    /\ env_guidance (fst (_wsgi_test call_wsgi case checks targets wsgi_headers
                            store_interactions max_response_time env))
       = fst (run_targets targets
                {| context_case := case; context_response := wsgi_response;
                   response_time := wsgi_elapsed |} (env_guidance env))
    /\ env_guidance (fst (_asgi_test call_asgi case checks targets store_interactions
                            headers max_response_time env))
       = fst (run_targets targets
                {| context_case := case; context_response := asgi_response;
                   response_time := elapsed asgi_response |} (env_guidance env))
    /\ (forall (context : TargetContext) (values : list float),
          Forall2 (fun target value =>
                     score target context = inr value /\ is_finite value = true)
            targets values ->
          NoDup (map target_name targets) ->
          Forall (fun target => observed (target_name target) (env_guidance env) = false)
            targets ->
          run_targets targets context (env_guidance env)
          = (env_guidance env ++ combine (map target_name targets) values, Normal))
    /\ (forall (context : TargetContext) (target : Target) (rest : list Target),
          targets = target :: rest ->
          observed (target_name target) (env_guidance env) = true ->
          exists exc,
            run_targets targets context (env_guidance env)
            = (env_guidance env, Raised exc)).
Proof.
  intros call call_wsgi call_asgi case checks targets session timeout
    store_interactions request_tls_verify headers wsgi_headers max_response_time env
    response wsgi_response asgi_response wsgi_elapsed recorded_logs Hcall Hwsgi Hasgi.
  split; [| split; [| split; [| split]]].
  - unfold _network_test. cbv zeta. rewrite Hcall. cbv beta iota zeta.
    match goal with
    | |- context [checked case checks response ?rt max_response_time
                    store_interactions ?store _] =>
        pose proof (@targeted_then_checked_guidance case checks targets
                      {| context_case := case; context_response := response;
                         response_time := elapsed response |}
                      response rt max_response_time store_interactions
                      (fun r => r) store
                      (sent env {| request_case := case; request_session := session;
                                   request_headers := headers; request_timeout := timeout;
                                   request_verify := request_tls_verify |})) as H
    end.
    cbv zeta in H. cbn [sent env_guidance] in H.
    destruct (targeted _ _ _) as [env' [| exc]]; cbn [set_result] in H.
    + destruct env'; exact H.
    + exact H.
  - unfold _wsgi_test. rewrite Hwsgi. cbv beta iota zeta.
    match goal with
    | |- context [checked case checks wsgi_response ?rt max_response_time
                    store_interactions ?store _] =>
        pose proof (@targeted_then_checked_guidance case checks targets
                      {| context_case := case; context_response := wsgi_response;
                         response_time := wsgi_elapsed |}
                      wsgi_response rt max_response_time store_interactions
                      (fun r => with_logs r (logs r ++ recorded_logs)) store env) as H
    end.
    cbv zeta in H. exact H.
  - unfold _asgi_test. rewrite Hasgi. cbv beta iota zeta.
    match goal with
    | |- context [checked case checks asgi_response ?rt max_response_time
                    store_interactions ?store _] =>
        pose proof (@targeted_then_checked_guidance case checks targets
                      {| context_case := case; context_response := asgi_response;
                         response_time := elapsed asgi_response |}
                      asgi_response rt max_response_time store_interactions
                      (fun r => r) store env) as H
    end.
    cbv zeta in H.
    destruct (targeted _ _ _) as [env' [| exc]]; cbn [set_result] in H.
    + destruct env'; exact H.
    + exact H.
  - intros context values Hscores Hdistinct Hnew.
    exact (@run_targets_reports context targets values Hscores Hdistinct
             (env_guidance env) Hnew).
  - intros context target rest -> Hobserved.
    exact (@run_targets_refused context target rest (env_guidance env) Hobserved).
Qed.

Lemma inner_bodies_report_targets_whatever_the_checks_witness :
  env_guidance (fst (_network_test Samples.answering Samples.first_case
                       [Samples.failing] [MoreSamples.response_time_target]
                       None None false None true None Samples.fresh_env))
  = [("response_time", Samples.seconds_0_15)].
Proof.
  destruct (@inner_bodies_report_targets_whatever_the_checks
              Samples.answering Samples.answering_wsgi Samples.answering_asgi
              Samples.first_case [Samples.failing] [MoreSamples.response_time_target]
              None None false true None [] None Samples.fresh_env
              Samples.slow_ok Samples.slow_ok Samples.slow_ok Samples.seconds_0_15
              ["GET /users 200"] eq_refl eq_refl eq_refl)
    as (Hnetwork & _ & _ & Hreports & _).
  rewrite Hnetwork.
  rewrite (Hreports _ [Samples.seconds_0_15]).
  - reflexivity.
  - repeat constructor.
  - repeat constructor. intros [].
  - repeat constructor.
Defined.

Section NetworkTestFacts.

Variable call : Request -> Exn + Response.
Variable USER_AGENT : string.
Variable add_case_hooks : list (Case -> Response -> option Case).

(** [network_test], with the request it makes for each case named. *)
Lemma network_test_unfold (case : Case) (checks : list CheckFunction)
    (targets : list Target) (session : option (string * string))
    (timeout_ms : option Z) (request_tls_verify store_interactions : bool)
    (headers : option Headers) (max_response_time : option Z) (env : TestEnv) :
  let env0 := set_result env (with_user_agent USER_AGENT headers (env_result env)) in
  network_test call USER_AGENT add_case_hooks case checks targets session timeout_ms
    request_tls_verify store_interactions headers max_response_time env
  = match prepare_timeout timeout_ms with
    | inl exc => (env0, Raised exc)
    | inr timeout =>
        let inner := fun c =>
          _network_test call c checks targets session timeout
            store_interactions (Some (sent_headers USER_AGENT headers))
            request_tls_verify max_response_time in
        match inner case env0 with
        | (env', inl exc) => (env', Raised exc)
        | (env', inr response) => add_cases_loop add_case_hooks case response inner env'
        end
    end.
Proof.
  unfold network_test, with_user_agent, sent_headers, or_empty, in_place, add_cases.
  cbv zeta.
  destruct headers as [[| header rest] |]; cbn [andb negb];
    try destruct (has_user_agent (header :: rest)); cbn [andb negb];
    destruct env; reflexivity.
Qed.

Lemma _network_test_request (case : Case) (checks : list CheckFunction)
    (targets : list Target) (session : option (string * string))
    (timeout : option float) (request_tls_verify store_interactions : bool)
    (headers : option Headers) (max_response_time : option Z) (env : TestEnv) :
  env_requests (fst (_network_test call case checks targets session
                       timeout store_interactions
                       (Some (sent_headers USER_AGENT headers)) request_tls_verify
                       max_response_time env))
  = env_requests env
      ++ [network_request USER_AGENT session timeout request_tls_verify headers case].
Proof. apply _network_test_requests. Qed.

Lemma sent_headers_name_user_agent (headers : option Headers) :
  has_user_agent (sent_headers USER_AGENT headers) = true.
Proof.
  unfold sent_headers. destruct (has_user_agent (or_empty headers)) eqn:E.
  - exact E.
  - apply has_user_agent_added.
Qed.

(** An inner call that is answered, whose targets are reported and whose
    predicates all return, with no budget set: it returns the response. *)
Lemma _network_test_passes (case : Case) (checks : list CheckFunction)
    (targets : list Target) (session : option (string * string))
    (timeout : option float) (request_tls_verify store_interactions : bool)
    (headers : option Headers) (max_response_time : option Z) (env : TestEnv)
    (response : Response) :
  call {| request_case := case; request_session := session;
          request_headers := headers; request_timeout := timeout;
          request_verify := request_tls_verify |} = inr response ->
  snd (run_targets targets
         {| context_case := case; context_response := response;
            response_time := elapsed response |} (env_guidance env)) = Normal ->
  always_return checks ->
  truthy max_response_time = false ->
  let out := _network_test call case checks targets session timeout
               store_interactions headers request_tls_verify max_response_time env in
  snd out = inr response
  /\ env_guidance (fst out)
     = fst (run_targets targets
              {| context_case := case; context_response := response;
                 response_time := elapsed response |} (env_guidance env))
  /\ env_feedback (fst out) = add_test_case (env_feedback env) case response.
Proof.
  intros Hcall Htargets Hreturn Hfalsy out. subst out.
  unfold _network_test. cbv zeta. rewrite Hcall. cbv beta iota zeta.
  match goal with
  | |- context [targeted ?t ?c ?e] =>
      destruct (targeted_frame t c e) as (_ & _ & Hfeedback & Hguidance & Houtcome);
      destruct (targeted t c e) as [env' outcome]
  end.
  cbn [fst snd sent env_guidance env_feedback] in Hfeedback, Hguidance, Houtcome.
  rewrite Htargets in Houtcome. subst outcome.
  match goal with
  | |- context [checked case checks response ?rt max_response_time
                  store_interactions ?store env'] =>
      pose proof (checked_feedback case checks response rt max_response_time
                    store_interactions store env') as Hfb;
      pose proof (checked_guidance case checks response rt max_response_time
                    store_interactions store env') as Hgd
  end.
  cbv zeta in Hfb. rewrite run_checks_all_return in Hfb by assumption.
  destruct Hfb as [Hret Hfb].
  rewrite Hret, Hfb, Hgd, Hfeedback, Hguidance. repeat split.
Qed.

(** An inner call that is answered, on a first target whose label already
    has an observation: the engine refuses, and the body raises after its
    request, with nothing checked, stored or fed back. *)
Lemma _network_test_refused (case : Case) (checks : list CheckFunction)
    (target : Target) (rest : list Target) (session : option (string * string))
    (timeout : option float) (request_tls_verify store_interactions : bool)
    (headers : option Headers) (max_response_time : option Z) (env : TestEnv)
    (response : Response) :
  call {| request_case := case; request_session := session;
          request_headers := headers; request_timeout := timeout;
          request_verify := request_tls_verify |} = inr response ->
  observed (target_name target) (env_guidance env) = true ->
  let out := _network_test call case checks (target :: rest) session timeout
               store_interactions headers request_tls_verify max_response_time env in
  (exists exc, snd out = inl exc)
  /\ env_result (fst out) = env_result env
  /\ env_feedback (fst out) = env_feedback env.
Proof.
  intros Hcall Hobserved out. subst out.
  unfold _network_test. cbv zeta. rewrite Hcall. cbv beta iota zeta.
  match goal with
  | |- context [targeted ?t ?c ?e] =>
      destruct (targeted_frame t c e) as (_ & Hresult & Hfeedback & _ & Houtcome);
      destruct (targeted t c e) as [env' outcome]
  end.
  cbn [fst snd sent env_guidance env_feedback env_result] in Hresult, Hfeedback, Houtcome.
  match type of Houtcome with
  | _ = snd (run_targets _ ?c _) =>
      destruct (@run_targets_refused c target rest (env_guidance env) Hobserved)
        as [exc Hrefused]
  end.
  rewrite Hrefused in Houtcome. cbn [snd] in Houtcome. subst outcome.
  cbn [fst snd]. split; [eexists; reflexivity |]. split; assumption.
Qed.

End NetworkTestFacts.

(** X7.  Every request [network_test] makes, for the case and for each case a
    hook contributes, carries the same headers, and these always name a
    user agent: they are the caller's headers when one of their keys is
    [user-agent] in any letter case, and the caller's headers followed by
    the default [User-Agent] otherwise (missing headers count as empty).
    The session and the TLS flag are passed on unchanged. *)
Theorem network_test_requests_name_a_user_agent :
  forall (call : Request -> Exn + Response) (USER_AGENT : string)
         (add_case_hooks : list (Case -> Response -> option Case))
         (case : Case) (checks : list CheckFunction) (targets : list Target)
         (session : option (string * string)) (timeout_ms : option Z)
         (request_tls_verify store_interactions : bool)
         (headers : option Headers) (max_response_time : option Z) (env : TestEnv),
    has_user_agent (sent_headers USER_AGENT headers) = true
    /\ (has_user_agent (or_empty headers) = true ->
        sent_headers USER_AGENT headers = or_empty headers)
    /\ exists sent_requests : list Request,
        env_requests (fst (network_test call USER_AGENT add_case_hooks case checks
                             targets session timeout_ms request_tls_verify
                             store_interactions headers max_response_time env))
          = env_requests env ++ sent_requests
        /\ Forall (fun rq =>
                     request_headers rq = Some (sent_headers USER_AGENT headers)
                     /\ request_session rq = session
                     /\ request_verify rq = request_tls_verify) sent_requests.
Proof.
  intros. split; [apply sent_headers_name_user_agent |]. split.
  - intros H. unfold sent_headers. rewrite H. reflexivity.
  - rewrite network_test_unfold. cbv zeta.
    destruct (prepare_timeout timeout_ms) as [exc | timeout].
    { exists []. cbn [fst set_result env_requests]. rewrite app_nil_r.
      split; [reflexivity | constructor]. }
    set (env0 := set_result env _).
    change (env_requests env) with (env_requests env0).
    destruct (_network_test _ _ _ _ _ _ _ _ _ _ env0) as [env1 [exc | response]] eqn:E.
    + eexists. split.
      * change env1 with (fst (env1, @inl Exn Response exc)). rewrite <- E.
        apply _network_test_request.
      * repeat constructor.
    + match goal with
      | |- context [add_cases_loop _ _ _ ?test _] =>
          destruct (@add_cases_loop_sends
                      (fun rq =>
                         request_headers rq = Some (sent_headers USER_AGENT headers)
                         /\ request_session rq = session
                         /\ request_verify rq = request_tls_verify)
                      test add_case_hooks case response) with (env := env1)
            as (more & Hmore & Hall)
      end.
      { intros c e. eexists. split; [apply _network_test_request |].
        repeat split. }
      eexists. rewrite Hmore.
      change env1 with (fst (env1, @inr Exn Response response)). rewrite <- E.
      rewrite _network_test_request, <- app_assoc. split; [reflexivity |].
      constructor; [repeat split | exact Hall].
Qed.

(** X8.  When the transport raises on the request for the case, [network_test]
    raises the same exception after that single attempt: no hook case is
    requested, and the result's checks, errors, interactions and logs, the
    feedback and the engine's observations are left as they were.  What has
    changed by then is the caller's headers: a dict that was not empty and
    named no user agent has gained the default one in place, and the
    result, which holds that same dict as its overridden headers, shows
    it. *)
Theorem network_test_transport_error_is_raised :
  forall (call : Request -> Exn + Response) (USER_AGENT : string)
         (add_case_hooks : list (Case -> Response -> option Case))
         (case : Case) (checks : list CheckFunction) (targets : list Target)
         (session : option (string * string)) (timeout_ms : option Z)
         (timeout : option float) (request_tls_verify store_interactions : bool)
         (headers : option Headers) (max_response_time : option Z) (env : TestEnv)
         (exc : Exn),
    overridden_headers (env_result env) = headers ->
    prepare_timeout timeout_ms = inr timeout ->
    call (network_request USER_AGENT session timeout request_tls_verify headers case)
      = inl exc ->
    let out := network_test call USER_AGENT add_case_hooks case checks targets session
                 timeout_ms request_tls_verify store_interactions headers
                 max_response_time env in
    snd out = Raised exc
    /\ env_requests (fst out)
       = env_requests env
           ++ [network_request USER_AGENT session timeout request_tls_verify
                 headers case]
    /\ env_result (fst out) = with_user_agent USER_AGENT headers (env_result env)
    /\ overridden_headers (env_result (fst out))
       = (if in_place headers then Some (sent_headers USER_AGENT headers) else headers)
    /\ Models.checks (env_result (fst out)) = Models.checks (env_result env)
    /\ errors (env_result (fst out)) = errors (env_result env)
    /\ interactions (env_result (fst out)) = interactions (env_result env)
    /\ logs (env_result (fst out)) = logs (env_result env)
    /\ env_feedback (fst out) = env_feedback env
    /\ env_guidance (fst out) = env_guidance env.
Proof.
  intros call USER_AGENT add_case_hooks case checks targets session timeout_ms timeout
    request_tls_verify store_interactions headers max_response_time env exc
    Halias Hprepare Hcall out.
  subst out. rewrite network_test_unfold. cbv zeta. rewrite Hprepare.
  unfold _network_test. cbv zeta. fold (network_request USER_AGENT session timeout
                                          request_tls_verify headers case).
  rewrite Hcall. cbn [fst snd sent set_result env_requests env_result env_feedback
                      env_guidance].
  split; [reflexivity |]. split; [reflexivity |]. split; [reflexivity |].
  unfold with_user_agent, sent_headers.
  destruct (in_place headers) eqn:Hplace; cbn [andb].
  - assert (Hsome : headers = Some (or_empty headers)).
    { destruct headers as [[| header rest] |]; try discriminate Hplace. reflexivity. }
    destruct (has_user_agent (or_empty headers)); cbn [negb];
      [| repeat split].
    rewrite Halias. repeat split. exact Hsome.
  - rewrite Halias. repeat split.
Qed.

Lemma network_test_transport_error_is_raised_witness :
  let out := network_test MoreSamples.unreachable "schemathesis"
               [MoreSamples.retry_hook] Samples.first_case [Samples.passing] []
               None (Some 1500%Z) true true MoreSamples.accept_json None
               MoreSamples.accepting_env in
  snd out = Raised (OtherException "ConnectionError")
  /\ map request_case (env_requests (fst out)) = [Samples.first_case]
  /\ overridden_headers (env_result (fst out))
     = Some [("Accept", "application/json"); ("User-Agent", "schemathesis")]
  /\ Models.checks (env_result (fst out)) = [].
Proof.
  destruct (@network_test_transport_error_is_raised MoreSamples.unreachable
              "schemathesis"%string [MoreSamples.retry_hook] Samples.first_case
              [Samples.passing] [] None (Some 1500%Z)
              (Some (S754_finite false 6755399441055744 (-52))) true true
              MoreSamples.accept_json None
              MoreSamples.accepting_env (OtherException "ConnectionError")
              eq_refl eq_refl eq_refl)
    as (Hout & Hrequests & _ & Hheaders & Hchecks & _).
  cbv zeta. rewrite Hout, Hrequests, Hheaders, Hchecks. repeat split.
Defined.

Lemma complaints_of_asserting (response : Response) (case : Case)
    (checks : list CheckFunction) (check : CheckFunction) (msg : string) :
  In check checks ->
  call check response case = RaisedAssertion msg ->
  flat_map (complaints response case) checks <> [].
Proof.
  intros Hin Hassert Hnil.
  assert (H : In (failure_message (__name__ check) msg)
                (flat_map (complaints response case) checks)).
  { apply in_flat_map. exists check. split; [exact Hin |].
    unfold complaints. rewrite Hassert. left. reflexivity. }
  rewrite Hnil in H. exact H.
Qed.

(** X9.  When a predicate raises an assertion on the response to the generated
    case (the timeout being in range and the targets reported),
    [network_test] raises the grouped check failure and the [add_case]
    hooks are not consulted: the request for the case is the only one made,
    and the feedback accumulator is left as it was. *)
Theorem network_test_failed_checks_skip_the_hooks :
  forall (call : Request -> Exn + Response) (USER_AGENT : string)
         (add_case_hooks : list (Case -> Response -> option Case))
         (case : Case) (checks : list CheckFunction) (targets : list Target)
         (session : option (string * string)) (timeout_ms : option Z)
         (timeout : option float) (request_tls_verify store_interactions : bool)
         (headers : option Headers) (max_response_time : option Z) (env : TestEnv)
         (response : Response) (check : CheckFunction) (msg : string),
    prepare_timeout timeout_ms = inr timeout ->
    call (network_request USER_AGENT session timeout request_tls_verify headers case)
      = inr response ->
    snd (run_targets targets
           {| context_case := case; context_response := response;
              response_time := elapsed response |} (env_guidance env)) = Normal ->
    Forall (returns_or_asserts response case) checks ->
    In check checks ->
    Checks.call check response case = RaisedAssertion msg ->
    let out := network_test call USER_AGENT add_case_hooks case checks targets session
                 timeout_ms request_tls_verify store_interactions headers
                 max_response_time env in
    (exists messages,
        snd out = Raised (CheckFailed (verbose_name (case_endpoint case)) messages)
        /\ In (failure_message (__name__ check) msg) messages)
    /\ env_requests (fst out)
       = env_requests env
           ++ [network_request USER_AGENT session timeout request_tls_verify
                 headers case]
    /\ env_feedback (fst out) = env_feedback env.
Proof.
  intros call USER_AGENT add_case_hooks case checks targets session timeout_ms timeout
    request_tls_verify store_interactions headers max_response_time env response
    check msg Hprepare Hcall Htargets Hchecks Hin Hassert out.
  subst out. rewrite network_test_unfold. cbv zeta. rewrite Hprepare.
  set (env0 := set_result env _).
  pose proof (_network_test_request call USER_AGENT case checks targets session
                timeout request_tls_verify store_interactions headers
                max_response_time env0) as Hrequest.
  unfold _network_test in *. cbv zeta in *.
  fold (network_request USER_AGENT session timeout request_tls_verify headers case)
    in *.
  rewrite Hcall in *. cbv beta iota zeta in *.
  match goal with
  | |- context [targeted ?t ?c ?e] =>
      destruct (targeted_frame t c e) as (_ & Hresult & Hfeedback & _ & Houtcome);
      destruct (targeted t c e) as [env' outcome]
  end.
  cbn [fst snd sent env_guidance env_feedback env_result set_result env0]
    in Hresult, Hfeedback, Houtcome.
  unfold env0 in Houtcome. cbn [set_result env_guidance] in Houtcome.
  rewrite Htargets in Houtcome. subst outcome.
  unfold checked in *. cbn [response_time] in *.
  rewrite (run_checks_unfold _ _ _ _ Hchecks) in *. cbv zeta in *.
  match goal with
  | |- context [response_time_check case ?e ?m ?st] =>
      pose proof (response_time_check_errors case e m st) as Herrors
  end.
  cbn [cs_errors] in Herrors.
  destruct (cs_errors (response_time_check _ _ _ _)) as [| m ms] eqn:Hm.
  - exfalso. symmetry in Herrors. apply app_eq_nil in Herrors.
    exact (@complaints_of_asserting response case checks check msg Hin Hassert
             (proj1 Herrors)).
  - cbn [fst snd] in *. split; [| split].
    + eexists. split; [reflexivity |]. rewrite Herrors. apply in_or_app. left.
      apply in_flat_map. exists check. split; [exact Hin |].
      unfold complaints. rewrite Hassert. left. reflexivity.
    + exact Hrequest.
    + cbn [set_result env_feedback]. exact Hfeedback.
Qed.

Lemma network_test_failed_checks_skip_the_hooks_witness :
  let out := network_test Samples.answering "schemathesis" [MoreSamples.retry_hook]
               Samples.first_case [Samples.passing; Samples.failing] []
               None None true false None None Samples.fresh_env in
  snd out = Raised (CheckFailed "GET /users" ["bad status"])
  /\ map request_case (env_requests (fst out)) = [Samples.first_case]
  /\ stateful_tests (env_feedback (fst out)) = [].
Proof.
  assert (H : Forall (returns_or_asserts Samples.slow_ok Samples.first_case)
                [Samples.passing; Samples.failing])
    by (repeat constructor; intros exc; simpl; discriminate).
  destruct (@network_test_failed_checks_skip_the_hooks Samples.answering
              "schemathesis"%string [MoreSamples.retry_hook] Samples.first_case
              [Samples.passing; Samples.failing] [] None None None true false None None
              Samples.fresh_env Samples.slow_ok Samples.failing "bad status"%string
              eq_refl eq_refl eq_refl H (or_intror (or_introl eq_refl)) eq_refl)
    as (_ & Hrequests & Hfeedback).
  cbv zeta. rewrite Hrequests, Hfeedback. repeat split.
Defined.

(** X10.  When the timeout is in range, the transport answers every request,
    every predicate returns and no response-time budget is set:
    with no targets, [network_test] returns normally after requesting the
    generated case and then, in the order of the hooks, each case a hook
    contributes for that case and its response (a hook that returns nothing
    adds no request); with targets, whose reports for the generated case
    went through, the first contributed case is requested and the engine
    then refuses the repeated label, so that [network_test] raises after
    two requests, with only the generated case fed back. *)
Theorem network_test_requests_the_case_then_the_hook_cases :
  forall (call : Request -> Exn + Response) (USER_AGENT : string)
         (add_case_hooks : list (Case -> Response -> option Case))
         (case : Case) (checks : list CheckFunction) (targets : list Target)
         (session : option (string * string)) (timeout_ms : option Z)
         (timeout : option float) (request_tls_verify store_interactions : bool)
         (headers : option Headers) (max_response_time : option Z) (env : TestEnv)
         (response : Response),
    prepare_timeout timeout_ms = inr timeout ->
    call (network_request USER_AGENT session timeout request_tls_verify headers case)
      = inr response ->
    (forall rq, exists r, call rq = inr r) ->
    always_return checks ->
    truthy max_response_time = false ->
    let out := network_test call USER_AGENT add_case_hooks case checks targets session
                 timeout_ms request_tls_verify store_interactions headers
                 max_response_time env in
    (targets = [] ->
     snd out = Normal
     /\ exists sent_requests,
         env_requests (fst out) = env_requests env ++ sent_requests
         /\ map request_case sent_requests
            = case :: hook_cases add_case_hooks case response)
    /\ (forall (first : Case) (more : list Case),
          targets <> [] ->
          snd (run_targets targets
                 {| context_case := case; context_response := response;
                    response_time := elapsed response |} (env_guidance env)) = Normal ->
          hook_cases add_case_hooks case response = first :: more ->
          (exists exc, snd out = Raised exc)
          /\ map request_case (env_requests (fst out))
             = map request_case (env_requests env) ++ [case; first]
          /\ env_feedback (fst out) = add_test_case (env_feedback env) case response).
Proof.
  intros call USER_AGENT add_case_hooks case checks targets session timeout_ms timeout
    request_tls_verify store_interactions headers max_response_time env response
    Hprepare Hcall Htotal Hreturn Hfalsy out.
  subst out. rewrite network_test_unfold. cbv zeta. rewrite Hprepare.
  set (env0 := set_result env _).
  set (inner := fun c =>
         _network_test call c checks targets session timeout store_interactions
           (Some (sent_headers USER_AGENT headers)) request_tls_verify
           max_response_time).
  pose proof (_network_test_request call USER_AGENT case checks targets session
                timeout request_tls_verify store_interactions headers
                max_response_time env0) as Hfirst.
  fold (inner case) in Hfirst. fold (inner case).
  split.
  - intros ->.
    assert (Hinner : forall c e, exists rq r,
               env_requests (fst (inner c e)) = env_requests e ++ [rq]
               /\ request_case rq = c /\ snd (inner c e) = inr r).
    { intros c e.
      destruct (Htotal (network_request USER_AGENT session timeout
                          request_tls_verify headers c)) as [r Hr].
      exists (network_request USER_AGENT session timeout request_tls_verify headers c), r.
      split; [apply _network_test_request |]. split; [reflexivity |].
      exact (proj1 (@_network_test_passes call c checks [] session timeout
                      request_tls_verify store_interactions
                      (Some (sent_headers USER_AGENT headers)) max_response_time e r
                      Hr eq_refl Hreturn Hfalsy)). }
    pose proof (proj1 (@_network_test_passes call case checks [] session timeout
                         request_tls_verify store_interactions
                         (Some (sent_headers USER_AGENT headers)) max_response_time
                         env0 response Hcall eq_refl Hreturn Hfalsy)) as Hret.
    fold (inner case) in Hret.
    destruct (inner case env0) as [env1 res]. cbn [fst snd] in *. subst res.
    destruct (@add_cases_loop_all_pass inner add_case_hooks case response Hinner env1)
      as (sent_more & Hmore & Hcases & Hnormal).
    split; [exact Hnormal |].
    exists (network_request USER_AGENT session timeout request_tls_verify headers case
            :: sent_more).
    rewrite Hmore, Hfirst, <- app_assoc. split; [reflexivity |].
    cbn [map]. rewrite Hcases. reflexivity.
  - intros first more Hsome Htargets Hcases.
    destruct (@_network_test_passes call case checks targets session timeout
                request_tls_verify store_interactions
                (Some (sent_headers USER_AGENT headers)) max_response_time
                env0 response Hcall Htargets Hreturn Hfalsy)
      as (Hret & Hguidance & Hfeedback).
    fold (inner case) in Hret, Hguidance, Hfeedback.
    destruct (inner case env0) as [env1 res]. cbn [fst snd] in *. subst res.
    destruct targets as [| target rest]; [contradiction Hsome; reflexivity |].
    change (env_guidance env0) with (env_guidance env) in Hguidance.
    assert (Hobserved : observed (target_name target) (env_guidance env1) = true).
    { destruct (run_targets (target :: rest)
                  {| context_case := case; context_response := response;
                     response_time := elapsed response |} (env_guidance env))
        as [observations outcome] eqn:Hrun.
      cbn [fst snd] in *. subst outcome.
      destruct (run_targets_observes _ _ _ Hrun) as [Hall _].
      inversion Hall as [| ? ? Hone _]. rewrite Hguidance. exact Hone. }
    destruct (Htotal (network_request USER_AGENT session timeout
                        request_tls_verify headers first)) as [r Hr].
    destruct (@_network_test_refused call first checks target rest session timeout
                request_tls_verify store_interactions
                (Some (sent_headers USER_AGENT headers)) max_response_time env1 r
                Hr Hobserved) as ([exc Hexc] & _ & Hkept).
    fold (inner first) in Hexc, Hkept.
    rewrite (@add_cases_loop_first inner add_case_hooks case response first more
               env1 exc Hcases Hexc).
    cbn [fst snd]. split; [eexists; reflexivity |].
    split.
    + unfold inner. rewrite _network_test_request, Hfirst.
      rewrite !map_app. cbn [map network_request request_case].
      rewrite <- app_assoc. reflexivity.
    + rewrite Hkept. exact Hfeedback.
Qed.

Lemma network_test_requests_the_case_then_the_hook_cases_witness :
  let out := network_test Samples.answering "schemathesis"
               [MoreSamples.idle_hook; MoreSamples.retry_hook] Samples.first_case
               [Samples.passing; Samples.skipping] [] None None true false None
               (Some 0%Z) Samples.fresh_env in
  snd out = Normal
  /\ map case_data (map request_case (env_requests (fst out))) = ["id=1"; "retry"].
Proof.
  assert (Htotal : forall rq, exists r, Samples.answering rq = inr r)
    by (intros rq; exists Samples.slow_ok; reflexivity).
  assert (Hreturn : always_return [Samples.passing; Samples.skipping])
    by (intros r c; repeat constructor; eexists; reflexivity).
  destruct (@network_test_requests_the_case_then_the_hook_cases Samples.answering
              "schemathesis"%string [MoreSamples.idle_hook; MoreSamples.retry_hook]
              Samples.first_case [Samples.passing; Samples.skipping] [] None None None
              true false None (Some 0%Z) Samples.fresh_env Samples.slow_ok
              eq_refl eq_refl Htotal Hreturn eq_refl)
    as (Hnone & _).
  destruct (Hnone eq_refl) as (Hnormal & sent_requests & Hrequests & Hcases).
  cbv zeta. split; [exact Hnormal |].
  rewrite Hrequests. cbn [Samples.fresh_env env_requests app].
  rewrite Hcases. reflexivity.
Defined.

(* ===================================================================== *)
(** ** Settings and in-process wrappers: properties *)
(* ===================================================================== *)

Section DictFacts.

Variable V : Type.

Lemma dict_get_set_same (key : string) (value : V) (d : list (string * V)) :
  dict_get key (dict_set key value d) = Some value.
Proof.
  induction d as [| [k v] rest IH]; cbn [dict_set dict_get].
  - rewrite String.eqb_refl. reflexivity.
  - destruct (k =? key)%string eqn:E; cbn [dict_get]; rewrite E; [reflexivity | exact IH].
Qed.

Lemma dict_get_set_other (key other : string) (value : V) (d : list (string * V)) :
  other <> key ->
  dict_get other (dict_set key value d) = dict_get other d.
Proof.
  intros Hneq. induction d as [| [k v] rest IH]; cbn [dict_set dict_get].
  - replace (key =? other)%string with false; [reflexivity |].
    symmetry. apply String.eqb_neq. congruence.
  - destruct (k =? key)%string eqn:E; cbn [dict_get].
    + apply String.eqb_eq in E. subst k.
      replace (key =? other)%string with false; [reflexivity |].
      symmetry. apply String.eqb_neq. congruence.
    + rewrite IH. reflexivity.
Qed.

End DictFacts.

(** X11.  [get_hypothesis_settings] fills in the default deadline only when the
    options hold no [deadline] entry: a deadline the caller gave is kept
    whatever its value, every other option is left alone, and applying the
    function again changes nothing. *)
Theorem get_hypothesis_settings_keeps_a_given_deadline :
  forall (V : Type) (DEFAULT_DEADLINE other_default : V)
         (hypothesis_options : list (string * V)),
    dict_get "deadline" (get_hypothesis_settings DEFAULT_DEADLINE hypothesis_options)
    = match dict_get "deadline" hypothesis_options with
      | Some given => Some given
      | None => Some DEFAULT_DEADLINE
      end
    /\ (forall key, key <> "deadline"%string ->
          dict_get key (get_hypothesis_settings DEFAULT_DEADLINE hypothesis_options)
          = dict_get key hypothesis_options)
    /\ get_hypothesis_settings other_default
         (get_hypothesis_settings DEFAULT_DEADLINE hypothesis_options)
       = get_hypothesis_settings DEFAULT_DEADLINE hypothesis_options.
Proof.
  intros V DEFAULT_DEADLINE other_default hypothesis_options.
  unfold get_hypothesis_settings, setdefault.
  destruct (dict_get "deadline" hypothesis_options) as [given |] eqn:Hget.
  - rewrite Hget. repeat split.
  - rewrite !dict_get_set_same. split; [reflexivity |]. split; [| reflexivity].
    intros key Hkey. apply dict_get_set_other. exact Hkey.
Qed.

Section WsgiFacts.

Variable USER_AGENT : string.
Variable _basic_auth_str : string -> string -> string.

Lemma has_user_agent_dict_set_user_agent (headers : Headers) :
  has_user_agent (dict_set "User-Agent" USER_AGENT headers) = true.
Proof.
  unfold has_user_agent.
  induction headers as [| [k v] rest IH]; cbn [dict_set].
  - reflexivity.
  - destruct (k =? "User-Agent")%string eqn:E; cbn [existsb fst].
    + apply String.eqb_eq in E. subst k. reflexivity.
    + rewrite IH. apply orb_true_r.
Qed.

Lemma has_user_agent_dict_set_authorization (value : string) (headers : Headers) :
  has_user_agent (dict_set "Authorization" value headers) = has_user_agent headers.
Proof.
  unfold has_user_agent.
  induction headers as [| [k v] rest IH]; cbn [dict_set].
  - reflexivity.
  - destruct (k =? "Authorization")%string eqn:E; cbn [existsb fst].
    + reflexivity.
    + rewrite IH. reflexivity.
Qed.

(** [_prepare_wsgi_headers], with the dict after its user-agent step
    named. *)
Lemma _prepare_wsgi_headers_unfold (headers : option Headers)
    (auth : option (string * string)) (auth_type : option string) :
  _prepare_wsgi_headers USER_AGENT _basic_auth_str headers auth auth_type
  = let base := wsgi_base USER_AGENT headers in
    let kept := fun h : Headers => if in_place headers then Some h else headers in
    match get_wsgi_auth _basic_auth_str auth auth_type with
    | inl exc => (kept base, inl exc)
    | inr (Some value) =>
        if (value =? EmptyString)%string then (kept base, inr base)
        else (kept (dict_set "Authorization" value base),
              inr (dict_set "Authorization" value base))
    | inr None => (kept base, inr base)
    end.
Proof.
  unfold _prepare_wsgi_headers, wsgi_base, or_empty, in_place. cbv zeta.
  destruct (get_wsgi_auth _basic_auth_str auth auth_type) as [exc | [value |]];
    destruct (has_user_agent _); try reflexivity;
    destruct (value =? EmptyString)%string; reflexivity.
Qed.

End WsgiFacts.

Lemma digest_test (auth_type : option string) :
  match auth_type with
  | Some t => (t =? "digest")%string
  | None => false
  end = true <-> auth_type = Some "digest"%string.
Proof.
  destruct auth_type as [t |]; [| split; discriminate].
  rewrite String.eqb_eq. split; congruence.
Qed.

(** X12.  Preparing the WSGI headers fails exactly when credentials are given
    together with the auth type ["digest"]; [wsgi_test] then raises the
    error "Digest auth is not supported for WSGI apps": the application is
    not called, whatever it is, and the result's checks, errors,
    interactions and logs, the feedback and the engine's observations stay
    as they were.  The caller's headers have been touched by then: a dict
    that is not empty has gained the default user agent in place, if it
    named none, before the credentials were looked at, and the result,
    which holds that same dict, shows it.  The auth type alone, without
    credentials, raises nothing. *)
Theorem wsgi_test_rejects_digest_credentials :
  forall (call_wsgi : Case -> Headers -> Exn + (Response * float * list string))
         (USER_AGENT : string)
         (add_case_hooks : list (Case -> Response -> option Case))
         (_basic_auth_str : string -> string -> string)
         (case : Case) (checks : list CheckFunction) (targets : list Target)
         (auth : option (string * string)) (auth_type : option string)
         (headers : option Headers) (store_interactions : bool)
         (max_response_time : option Z) (env : TestEnv),
    ((exists exc,
         snd (_prepare_wsgi_headers USER_AGENT _basic_auth_str headers auth auth_type)
         = inl exc)
     <-> (auth <> None /\ auth_type = Some "digest"%string))
    /\ (auth <> None -> auth_type = Some "digest"%string ->
        fst (_prepare_wsgi_headers USER_AGENT _basic_auth_str headers auth auth_type)
        = (if in_place headers then Some (wsgi_base USER_AGENT headers) else headers)
        /\ wsgi_test call_wsgi USER_AGENT add_case_hooks _basic_auth_str case checks
             targets auth auth_type headers store_interactions max_response_time env
           = ((if in_place headers
               then set_result env
                      (with_overridden_headers (env_result env)
                         (Some (wsgi_base USER_AGENT headers)))
               else env),
              Raised (OtherException "Digest auth is not supported for WSGI apps"))).
Proof.
  intros call_wsgi USER_AGENT add_case_hooks _basic_auth_str case checks targets
    auth auth_type headers store_interactions max_response_time env.
  split.
  - rewrite _prepare_wsgi_headers_unfold. cbv zeta. unfold get_wsgi_auth.
    destruct auth as [[username password] |].
    + destruct (match auth_type with Some t => (t =? "digest")%string | None => false end)
        eqn:Hdigest.
      * apply digest_test in Hdigest. split.
        -- intros _. split; [discriminate | exact Hdigest].
        -- intros _. eexists. reflexivity.
      * split.
        -- intros [exc H].
           destruct (_basic_auth_str username password =? EmptyString)%string;
             discriminate H.
        -- intros [_ H]. apply digest_test in H. congruence.
    + split.
      * intros [exc H]. discriminate H.
      * intros [H _]. congruence.
  - intros Hauth Htype. subst auth_type. unfold wsgi_test.
    rewrite _prepare_wsgi_headers_unfold. cbv zeta. unfold get_wsgi_auth.
    destruct auth as [[username password] |]; [| congruence].
    cbn [String.eqb Ascii.eqb Bool.eqb fst snd]. unfold in_place.
    destruct headers as [[| header rest] |]; split; reflexivity.
Qed.

Lemma wsgi_test_rejects_digest_credentials_witness :
  snd (wsgi_test Samples.answering_wsgi "schemathesis" [MoreSamples.retry_hook]
         MoreSamples.basic Samples.first_case [Samples.passing] []
         (Some ("user", "secret")%string) (Some "digest"%string)
         MoreSamples.accept_json true None MoreSamples.accepting_env)
  = Raised (OtherException "Digest auth is not supported for WSGI apps")
  /\ overridden_headers
       (env_result
          (fst (wsgi_test Samples.answering_wsgi "schemathesis" [MoreSamples.retry_hook]
                  MoreSamples.basic Samples.first_case [Samples.passing] []
                  (Some ("user", "secret")%string) (Some "digest"%string)
                  MoreSamples.accept_json true None MoreSamples.accepting_env)))
     = Some [("Accept", "application/json"); ("User-Agent", "schemathesis")]%string
  /\ snd (_prepare_wsgi_headers "schemathesis" MoreSamples.basic None None
            (Some "digest"%string))
     = inr [("User-Agent", "schemathesis")%string].
Proof.
  assert (Hauth : Some ("user", "secret")%string <> None) by discriminate.
  destruct (proj2 (@wsgi_test_rejects_digest_credentials Samples.answering_wsgi
                     "schemathesis"%string [MoreSamples.retry_hook] MoreSamples.basic
                     Samples.first_case [Samples.passing] []
                     (Some ("user", "secret")%string) (Some "digest"%string)
                     MoreSamples.accept_json true
                     None MoreSamples.accepting_env) Hauth eq_refl) as [_ Hout].
  rewrite Hout. repeat split.
Defined.

(** X13.  The headers [_prepare_wsgi_headers] returns always name a user agent.
    With credentials of a type other than digest, their [Authorization]
    entry is the basic-auth string of the credentials, replacing one the
    caller may have given; without credentials the caller's
    [Authorization] entry, if any, is passed through.  In both cases every
    entry under another key than [Authorization] and [User-Agent] is the
    caller's.  A dict of the caller that is not empty is the very dict
    returned: the entries are written into it. *)
Theorem _prepare_wsgi_headers_sets_authorization :
  forall (USER_AGENT : string) (_basic_auth_str : string -> string -> string)
         (headers : option Headers) (auth : option (string * string))
         (auth_type : option string),
    auth_type <> Some "digest"%string ->
    exists prepared : Headers,
      snd (_prepare_wsgi_headers USER_AGENT _basic_auth_str headers auth auth_type)
        = inr prepared
      /\ fst (_prepare_wsgi_headers USER_AGENT _basic_auth_str headers auth auth_type)
         = (if in_place headers then Some prepared else headers)
      /\ has_user_agent prepared = true
      /\ (forall username password,
            auth = Some (username, password) ->
            _basic_auth_str username password <> EmptyString ->
            dict_get "Authorization" prepared
            = Some (_basic_auth_str username password))
      /\ (auth = None ->
          dict_get "Authorization" prepared
          = dict_get "Authorization" (or_empty headers))
      /\ (forall key,
            key <> "Authorization"%string -> key <> "User-Agent"%string ->
            dict_get key prepared = dict_get key (or_empty headers)).
Proof.
  intros USER_AGENT _basic_auth_str headers auth auth_type Htype.
  assert (Hdigest : match auth_type with
                    | Some t => (t =? "digest")%string
                    | None => false
                    end = false).
  { destruct (match auth_type with Some t => (t =? "digest")%string | None => false end)
      eqn:E; [| reflexivity].
    apply digest_test in E. congruence. }
  rewrite _prepare_wsgi_headers_unfold. cbv zeta. unfold get_wsgi_auth.
  set (base := wsgi_base USER_AGENT headers).
  assert (Hbase_ua : has_user_agent base = true).
  { subst base. unfold wsgi_base.
    destruct (has_user_agent (or_empty headers)) eqn:E; [exact E |].
    apply has_user_agent_dict_set_user_agent. }
  assert (Hbase_get : forall key, key <> "User-Agent"%string ->
                        dict_get key base = dict_get key (or_empty headers)).
  { intros key Hkey. subst base. unfold wsgi_base.
    destruct (has_user_agent (or_empty headers));
      [reflexivity | apply dict_get_set_other; exact Hkey]. }
  destruct auth as [[username password] |].
  - rewrite Hdigest.
    destruct (_basic_auth_str username password =? EmptyString)%string eqn:Hempty.
    + exists base. split; [reflexivity |]. split; [reflexivity |].
      split; [exact Hbase_ua |].
      split; [| split].
      * intros u p Heq Hne. injection Heq as <- <-.
        apply String.eqb_eq in Hempty. congruence.
      * discriminate.
      * intros key _ Hkey. apply Hbase_get. exact Hkey.
    + exists (dict_set "Authorization" (_basic_auth_str username password) base).
      split; [reflexivity |]. split; [reflexivity |].
      split; [rewrite has_user_agent_dict_set_authorization; exact Hbase_ua |].
      split; [| split].
      * intros u p Heq _. injection Heq as <- <-. apply dict_get_set_same.
      * discriminate.
      * intros key Hauth Hkey. rewrite dict_get_set_other by exact Hauth.
        apply Hbase_get. exact Hkey.
  - exists base. split; [reflexivity |]. split; [reflexivity |].
    split; [exact Hbase_ua |].
    split; [| split].
    + discriminate.
    + intros _. apply Hbase_get. discriminate.
    + intros key _ Hkey. apply Hbase_get. exact Hkey.
Qed.

Lemma _prepare_wsgi_headers_sets_authorization_witness :
  _prepare_wsgi_headers "schemathesis" MoreSamples.basic
    (Some [("Authorization", "Bearer token"); ("user-agent", "curl"); ("X-Key", "1")]%string)
    (Some ("user", "secret")%string) (Some "basic"%string)
  = (Some [("Authorization", "Basic user:secret"); ("user-agent", "curl");
           ("X-Key", "1")]%string,
     inr [("Authorization", "Basic user:secret"); ("user-agent", "curl");
          ("X-Key", "1")]%string)
  /\ exists prepared : Headers,
      snd (_prepare_wsgi_headers "schemathesis" MoreSamples.basic
             (Some [("Authorization", "Bearer token"); ("user-agent", "curl");
                    ("X-Key", "1")]%string)
             (Some ("user", "secret")%string) (Some "basic"%string)) = inr prepared
      /\ dict_get "Authorization" prepared = Some "Basic user:secret"%string.
Proof.
  split; [reflexivity |].
  assert (Htype : Some "basic"%string <> Some "digest"%string) by discriminate.
  destruct (@_prepare_wsgi_headers_sets_authorization "schemathesis"%string
              MoreSamples.basic
              (Some [("Authorization", "Bearer token"); ("user-agent", "curl");
                     ("X-Key", "1")]%string)
              (Some ("user", "secret")%string) (Some "basic"%string) Htype)
    as (prepared & Hprepared & _ & _ & Hauth & _).
  exists prepared. split; [exact Hprepared |].
  apply (Hauth "user"%string "secret"%string eq_refl). discriminate.
Defined.

Lemma add_cases_loop_ext (test1 test2 : Case -> TestEnv -> TestEnv * (Exn + Response))
    (hooks : list (Case -> Response -> option Case)) (case : Case)
    (response : Response) :
  (forall c env, test1 c env = test2 c env) ->
  forall env,
    add_cases_loop hooks case response test1 env
    = add_cases_loop hooks case response test2 env.
Proof.
  intros Hext. induction hooks as [| case_hook rest IH]; intros env; [reflexivity |].
  cbn [add_cases_loop]. destruct (case_hook case response) as [_case |]; [| apply IH].
  rewrite Hext. destruct (test2 _case env) as [env' [exc | r]]; [reflexivity | apply IH].
Qed.

(** X14.  [asgi_test] hands every in-process call, for the generated case and
    for the cases the hooks contribute, the caller's headers as they are
    (empty when missing): two applications that agree on calls with these
    headers cannot be told apart by it, so no header such as a default
    user agent is ever added. *)
Theorem asgi_test_passes_the_caller_headers :
  forall (call_asgi call_asgi' : Case -> option Headers -> Exn + Response)
         (add_case_hooks : list (Case -> Response -> option Case))
         (case : Case) (checks : list CheckFunction) (targets : list Target)
         (store_interactions : bool) (headers : option Headers)
         (max_response_time : option Z) (env : TestEnv),
    (forall c, call_asgi c (Some (or_empty headers))
               = call_asgi' c (Some (or_empty headers))) ->
    asgi_test call_asgi add_case_hooks case checks targets store_interactions headers
      max_response_time env
    = asgi_test call_asgi' add_case_hooks case checks targets store_interactions headers
        max_response_time env.
Proof.
  intros call_asgi call_asgi' add_case_hooks case checks targets store_interactions
    headers max_response_time env Hagree.
  assert (Hinner : forall c e,
             _asgi_test call_asgi c checks targets store_interactions
               (Some (or_empty headers)) max_response_time e
             = _asgi_test call_asgi' c checks targets store_interactions
                 (Some (or_empty headers)) max_response_time e).
  { intros c e. unfold _asgi_test. rewrite Hagree. reflexivity. }
  unfold asgi_test, add_cases. cbv zeta. unfold or_empty in Hinner. rewrite Hinner.
  destruct (_asgi_test call_asgi' case checks targets store_interactions _
              max_response_time env) as [env1 [exc | r]];
    [reflexivity |].
  apply add_cases_loop_ext. exact Hinner.
Qed.

Lemma asgi_test_passes_the_caller_headers_witness :
  asgi_test Samples.answering_asgi [MoreSamples.retry_hook] Samples.first_case
    [Samples.passing] [] false None None Samples.fresh_env
  = asgi_test
      (fun _ headers =>
         match headers with
         | Some [] => inr Samples.slow_ok
         | _ => inl (OtherException "unexpected headers")
         end)
      [MoreSamples.retry_hook] Samples.first_case [Samples.passing] [] false None None
      Samples.fresh_env.
Proof.
  apply (@asgi_test_passes_the_caller_headers Samples.answering_asgi
           (fun _ headers =>
              match headers with
              | Some [] => inr Samples.slow_ok
              | _ => inl (OtherException "unexpected headers")
              end)
           [MoreSamples.retry_hook] Samples.first_case [Samples.passing] [] false None
           None Samples.fresh_env).
  intros c. reflexivity.
Defined.

(* ===================================================================== *)
(** ** Single test: further properties *)
(* ===================================================================== *)

(** X15.  A driven test that returns or raises an exception derived from
    [Exception] (any exception of [Exn] but [KeyboardInterrupt]; the other
    exceptions outside [Exception], such as [SystemExit], pass every
    handler of [run_test] and are none of [Exn]) yields [BeforeExecution]
    and [AfterExecution], in this order and nothing else, and appends
    exactly one result, the one the [AfterExecution] event carries.  Its status is [success] exactly when
    the test returned, [failure] exactly when it raised a check failure or
    the engine's multiple-failures error, and [error] exactly when it raised
    another exception derived from [Exception]. *)
Theorem run_test_status_follows_the_outcome :
  forall (endpoint : Endpoint) (explicit_seed : option Z)
         (body : list CheckFunction -> list Target -> TestResult ->
                 option Headers -> Feedback -> TestRun)
         (checks : list CheckFunction) (method : DataGenerationMethod)
         (targets : list Target) (headers : option Headers) (recursion_level : Z)
         (feedback : Feedback) (results : TestResultSet),
    let invocation := body checks targets (new_TestResult endpoint headers method)
                        headers feedback in
    run_outcome invocation <> Raised KeyboardInterrupt ->
    exists (result : TestResult) (status : Status),
      consume (run_test endpoint (TestFunction explicit_seed body) checks method targets
                 headers recursion_level feedback) results
      = ([BeforeExecution endpoint recursion_level;
          AfterExecution result status (run_output invocation) endpoint],
         results ++ [result], run_feedback invocation)
      /\ (status = success <-> run_outcome invocation = Normal)
      /\ (status = failure <->
          (exists title messages,
              run_outcome invocation = Raised (CheckFailed title messages))
          \/ run_outcome invocation = Raised MultipleFailures)
      /\ (status = error <->
          exists exc : Exn,
            run_outcome invocation = Raised exc
            /\ exc <> KeyboardInterrupt
            /\ exc <> MultipleFailures
            /\ forall title messages, exc <> CheckFailed title messages).
Proof.
  intros endpoint explicit_seed body checks method targets headers recursion_level
    feedback results invocation Hrun.
  unfold run_test. cbv zeta. fold invocation.
  destruct (run_outcome invocation) as [| exc] eqn:Houtcome.
  - do 2 eexists. split; [reflexivity |]. split; [| split].
    + split; reflexivity.
    + split; [discriminate |]. intros [(t & ms & H) | H]; discriminate H.
    + split; [discriminate |]. intros (exc & H & _). discriminate H.
  - destruct exc; try (exfalso; apply Hrun; reflexivity);
      (do 2 eexists; split; [cbn; reflexivity |]; split;
       [split; discriminate | split]).
    + split; [intros _; left; do 2 eexists; reflexivity | reflexivity].
    + split; [discriminate |]. intros (exc & H & _ & _ & Hnot).
      injection H as <-. exfalso. exact (Hnot _ _ eq_refl).
    + split; [intros _; right; reflexivity | reflexivity].
    + split; [discriminate |]. intros (exc & H & _ & Hnot & _).
      injection H as <-. exfalso. exact (Hnot eq_refl).
    + split; [discriminate |]. intros [(t & ms & H) | H]; discriminate H.
    + split; [| reflexivity]. intros _. eexists. split; [reflexivity |].
      split; [discriminate |]. split; [discriminate |]. intros t ms. discriminate.
    + split; [discriminate |]. intros [(t & ms & H) | H]; discriminate H.
    + split; [| reflexivity]. intros _. eexists. split; [reflexivity |].
      split; [discriminate |]. split; [discriminate |]. intros t ms. discriminate.
    + split; [discriminate |]. intros [(t & ms & H) | H]; discriminate H.
    + split; [| reflexivity]. intros _. eexists. split; [reflexivity |].
      split; [discriminate |]. split; [discriminate |]. intros t ms. discriminate.
    + split; [discriminate |]. intros [(t & ms & H) | H]; discriminate H.
    + split; [| reflexivity]. intros _. eexists. split; [reflexivity |].
      split; [discriminate |]. split; [discriminate |]. intros t ms. discriminate.
    + split; [discriminate |]. intros [(t & ms & H) | H]; discriminate H.
    + split; [| reflexivity]. intros _. eexists. split; [reflexivity |].
      split; [discriminate |]. split; [discriminate |]. intros t ms. discriminate.
Qed.

Lemma run_test_status_follows_the_outcome_witness :
  exists (result : TestResult) (status : Status),
    consume (run_test Samples.users Samples.failing_test [] positive [] None 0
               (new_Feedback None Samples.users)) []
    = ([BeforeExecution Samples.users 0;
        AfterExecution result status ["Falsifying example"] Samples.users],
       [result], new_Feedback None Samples.users)
    /\ status = failure.
Proof.
  destruct (@run_test_status_follows_the_outcome Samples.users None
              (fun _ _ result _ feedback =>
                 {| run_result := add_failure result "status_code_conformance"
                                    Samples.first_case "bad status";
                    run_feedback := feedback;
                    run_output := ["Falsifying example"];
                    run_generated_seed := Some 42%Z;
                    run_outcome := Raised (CheckFailed "GET /users" ["bad status"]) |})
              [] positive [] None 0%Z (new_Feedback None Samples.users) [])
    as (result & status & Hrun & _ & Hfailure & _).
  { discriminate. }
  exists result, status. split; [exact Hrun |].
  apply Hfailure. left. do 2 eexists. reflexivity.
Defined.

Lemma app_one_neq (A : Type) (l : list A) (x : A) : l ++ [x] <> l.
Proof.
  intros H. assert (Hlen : List.length (l ++ [x]) = List.length l) by (rewrite H; reflexivity).
  rewrite length_app in Hlen. cbn [List.length] in Hlen. lia.
Qed.

(** X16.  Classifying the outcome of a test never alters the Checks the test
    recorded, nor its stored interactions and logs; it adds exactly one
    error to the result when the status is [error] and none otherwise;
    and it marks the result as errored only for a flaky outcome. *)
Theorem run_test_adds_one_error_iff_status_is_error :
  forall (endpoint : Endpoint) (explicit_seed : option Z)
         (body : list CheckFunction -> list Target -> TestResult ->
                 option Headers -> Feedback -> TestRun)
         (checks : list CheckFunction) (method : DataGenerationMethod)
         (targets : list Target) (headers : option Headers) (recursion_level : Z)
         (feedback : Feedback) (results : TestResultSet),
    let invocation := body checks targets (new_TestResult endpoint headers method)
                        headers feedback in
    run_outcome invocation <> Raised KeyboardInterrupt ->
    exists (result : TestResult) (status : Status),
      consume (run_test endpoint (TestFunction explicit_seed body) checks method targets
                 headers recursion_level feedback) results
      = ([BeforeExecution endpoint recursion_level;
          AfterExecution result status (run_output invocation) endpoint],
         results ++ [result], run_feedback invocation)
      /\ Models.checks result = Models.checks (run_result invocation)
      /\ interactions result = interactions (run_result invocation)
      /\ logs result = logs (run_result invocation)
      /\ (status = error <->
          exists exc example,
            errors result = errors (run_result invocation) ++ [(exc, example)])
      /\ (status <> error <-> errors result = errors (run_result invocation))
      /\ (is_errored result = true <->
          is_errored (run_result invocation) = true
          \/ exists msg, run_outcome invocation = Raised (Flaky msg)).
Proof.
  intros endpoint explicit_seed body checks method targets headers recursion_level
    feedback results invocation Hrun.
  unfold run_test. cbv zeta. fold invocation.
  destruct (run_outcome invocation) as [| exc] eqn:Houtcome.
  - do 2 eexists. split; [reflexivity |]. cbn.
    repeat split; try discriminate; try congruence.
    + intros (exc & example & H). exfalso. symmetry in H.
      exact (@app_one_neq _ _ _ H).
    + intros H. left. exact H.
    + intros [H | [msg H]]; [exact H | discriminate H].
  - destruct exc; try (exfalso; apply Hrun; reflexivity);
      (do 2 eexists; split; [cbn; reflexivity |]); cbn;
      (split; [reflexivity |]); (split; [reflexivity |]); (split; [reflexivity |]).
    + (* CheckFailed *)
      split; [split; [discriminate |] |].
      * intros (exc & example & H). exfalso. symmetry in H. exact (@app_one_neq _ _ _ H).
      * split; [split; [reflexivity | discriminate] |].
        split; [intros H; left; exact H |].
        intros [H | [m H]]; [exact H | discriminate H].
    + (* MultipleFailures *)
      split; [split; [discriminate |] |].
      * intros (exc & example & H). exfalso. symmetry in H. exact (@app_one_neq _ _ _ H).
      * split; [split; [reflexivity | discriminate] |].
        split; [intros H; left; exact H |].
        intros [H | [m H]]; [exact H | discriminate H].
    + (* Flaky *)
      split; [split; [intros _; do 2 eexists; reflexivity | reflexivity] |].
      split; [split; [congruence |] |].
      * intros H. exfalso. exact (@app_one_neq _ _ _ H).
      * split; [intros _; right; eexists; reflexivity | reflexivity].
    + (* Unsatisfiable *)
      split; [split; [intros _; do 2 eexists; reflexivity | reflexivity] |].
      split; [split; [congruence |] |].
      * intros H. exfalso. exact (@app_one_neq _ _ _ H).
      * split; [intros H; left; exact H |].
        intros [H | [m H]]; [exact H | discriminate H].
    + (* AssertionError *)
      split; [split; [intros _; do 2 eexists; reflexivity | reflexivity] |].
      split; [split; [congruence |] |].
      * intros H. exfalso. exact (@app_one_neq _ _ _ H).
      * split; [intros H; left; exact H |].
        intros [H | [m H]]; [exact H | discriminate H].
    + (* InvalidSchema *)
      split; [split; [intros _; do 2 eexists; reflexivity | reflexivity] |].
      split; [split; [congruence |] |].
      * intros H. exfalso. exact (@app_one_neq _ _ _ H).
      * split; [intros H; left; exact H |].
        intros [H | [m H]]; [exact H | discriminate H].
    + (* any other exception *)
      split; [split; [intros _; do 2 eexists; reflexivity | reflexivity] |].
      split; [split; [congruence |] |].
      * intros H. exfalso. exact (@app_one_neq _ _ _ H).
      * split; [intros H; left; exact H |].
        intros [H | [m H]]; [exact H | discriminate H].
Qed.

Lemma run_test_adds_one_error_iff_status_is_error_witness :
  exists (result : TestResult) (status : Status),
    consume (run_test Samples.users Samples.flaky_test [] positive [] None 0
               (new_Feedback None Samples.users)) []
    = ([BeforeExecution Samples.users 0; AfterExecution result status [] Samples.users],
       [result], new_Feedback None Samples.users)
    /\ map name (Models.checks result)
       = ["status_code_conformance"; "status_code_conformance"]
    /\ is_errored result = true.
Proof.
  destruct (@run_test_adds_one_error_iff_status_is_error Samples.users None
              (fun _ _ result _ feedback =>
                 {| run_result :=
                      add_success
                        (add_failure result "status_code_conformance" Samples.first_case
                           "bad status")
                        "status_code_conformance" Samples.second_case;
                    run_feedback := feedback; run_output := [];
                    run_generated_seed := Some 7%Z;
                    run_outcome := Raised (Flaky "Flaky") |})
              [] positive [] None 0%Z (new_Feedback None Samples.users) [])
    as (result & status & Hrun & Hchecks & _ & _ & _ & _ & Herrored).
  { discriminate. }
  exists result, status. split; [exact Hrun |]. split.
  - rewrite Hchecks. reflexivity.
  - apply Herrored. right. eexists. reflexivity.
Defined.

(** X17.  The seed stored on the result is the test's explicit seed when that is
    a non-zero number, and otherwise the seed the engine generated during
    the run (possibly none): an explicit seed of 0 is passed over like a
    missing one. *)
Theorem run_test_seed_prefers_a_nonzero_explicit_seed :
  forall (endpoint : Endpoint) (explicit_seed : option Z)
         (body : list CheckFunction -> list Target -> TestResult ->
                 option Headers -> Feedback -> TestRun)
         (checks : list CheckFunction) (method : DataGenerationMethod)
         (targets : list Target) (headers : option Headers) (recursion_level : Z)
         (feedback : Feedback) (results : TestResultSet),
    let invocation := body checks targets (new_TestResult endpoint headers method)
                        headers feedback in
    run_outcome invocation <> Raised KeyboardInterrupt ->
    exists (result : TestResult) (status : Status),
      consume (run_test endpoint (TestFunction explicit_seed body) checks method targets
                 headers recursion_level feedback) results
      = ([BeforeExecution endpoint recursion_level;
          AfterExecution result status (run_output invocation) endpoint],
         results ++ [result], run_feedback invocation)
      /\ (forall s, explicit_seed = Some s -> s <> 0%Z -> seed result = Some s)
      /\ (explicit_seed = None \/ explicit_seed = Some 0%Z ->
          seed result = run_generated_seed invocation).
Proof.
  intros endpoint explicit_seed body checks method targets headers recursion_level
    feedback results invocation Hrun.
  assert (Hseed : (forall s, explicit_seed = Some s -> s <> 0%Z ->
                     or_else explicit_seed (run_generated_seed invocation) = Some s)
                  /\ (explicit_seed = None \/ explicit_seed = Some 0%Z ->
                      or_else explicit_seed (run_generated_seed invocation)
                      = run_generated_seed invocation)).
  { unfold or_else, truthy. split.
    - intros s -> Hs. apply Z.eqb_neq in Hs. rewrite Hs. reflexivity.
    - intros [-> | ->]; reflexivity. }
  unfold run_test. cbv zeta. fold invocation.
  destruct (run_outcome invocation) as [| exc] eqn:Houtcome.
  - do 2 eexists. split; [reflexivity |]. exact Hseed.
  - destruct exc; try (exfalso; apply Hrun; reflexivity);
      (do 2 eexists; split; [cbn; reflexivity |]; exact Hseed).
Qed.

Lemma run_test_seed_prefers_a_nonzero_explicit_seed_witness :
  exists (result : TestResult) (status : Status),
    consume (run_test Samples.users MoreSamples.asserting_test [] positive [] None 0
               (new_Feedback None Samples.users)) []
    = ([BeforeExecution Samples.users 0; AfterExecution result status [] Samples.users],
       [result], new_Feedback None Samples.users)
    /\ seed result = Some 11%Z.
Proof.
  destruct (@run_test_seed_prefers_a_nonzero_explicit_seed Samples.users (Some 0%Z)
              (fun _ _ result _ feedback =>
                 {| run_result := result; run_feedback := feedback; run_output := [];
                    run_generated_seed := Some 11%Z;
                    run_outcome :=
                      Raised (AssertionError EmptyString
                                "File canonicalise.py: assert type_ in TYPE_STRINGS, type_") |})
              [] positive [] None 0%Z (new_Feedback None Samples.users) [])
    as (result & status & Hrun & _ & Hzero).
  { discriminate. }
  exists result, status. split; [exact Hrun |].
  exact (Hzero (or_intror eq_refl)).
Defined.

(** A test that could not be built from the schema is reported without
    being run: [run_test] yields [BeforeExecution] and an [AfterExecution]
    with status [error] and no output, and appends a result that holds no
    Check, no seed and the schema error as its only error; the feedback is
    returned untouched. *)
Theorem run_test_reports_an_invalid_schema_without_running :
  forall (endpoint : Endpoint) (msg : string) (checks : list CheckFunction)
         (method : DataGenerationMethod) (targets : list Target)
         (headers : option Headers) (recursion_level : Z) (feedback : Feedback)
         (results : TestResultSet),
    exists result : TestResult,
      consume (run_test endpoint (InvalidTest msg) checks method targets headers
                 recursion_level feedback) results
      = ([BeforeExecution endpoint recursion_level;
          AfterExecution result error [] endpoint],
         results ++ [result], feedback)
      /\ errors result = [(InvalidSchema msg, None)]
      /\ Models.checks result = []
      /\ seed result = None
      /\ is_errored result = false
      /\ result_endpoint result = endpoint
      /\ overridden_headers result = headers.
Proof.
  intros. eexists. split; [reflexivity |]. repeat split.
Qed.

Section SubstringFacts.

Local Open Scope string_scope.

Lemma string_prefix_spec (s1 : string) :
  forall s2, String.prefix s1 s2 = true <-> exists post, s2 = s1 ++ post.
Proof.
  induction s1 as [| a s1 IH]; intros s2.
  - destruct s2; cbn; (split; [intros _; eexists; reflexivity | reflexivity]).
  - destruct s2 as [| b s2]; cbn.
    + split; [discriminate | intros [post H]; discriminate H].
    + destruct (ascii_dec a b) as [-> | Hneq].
      * rewrite IH. split.
        -- intros [post ->]. exists post. reflexivity.
        -- intros [post H]. injection H as ->. exists post. reflexivity.
      * split; [discriminate |]. intros [post H]. injection H as H _. congruence.
Qed.

Lemma index_spec (needle : string) :
  forall haystack,
    (exists n, String.index 0 needle haystack = Some n)
    <-> exists pre post, haystack = pre ++ needle ++ post.
Proof.
  induction haystack as [| b haystack IH].
  - cbn. destruct needle as [| a needle].
    + split; [intros _; exists "", ""; reflexivity | intros _; eexists; reflexivity].
    + split; [intros [n H]; discriminate H |].
      intros (pre & post & H). destruct pre; discriminate H.
  - cbn [String.index].
    destruct (String.prefix needle (String b haystack)) eqn:Hprefix.
    + split; [| intros _; eexists; reflexivity].
      intros _. apply string_prefix_spec in Hprefix. destruct Hprefix as [post H].
      exists "", post. exact H.
    + split.
      * intros [n H]. destruct (String.index 0 needle haystack) as [m |] eqn:Hm;
          [| discriminate H].
        destruct (proj1 IH (ex_intro _ m eq_refl)) as (pre & post & Hpre).
        exists (String b pre), post. cbn. rewrite Hpre. reflexivity.
      * intros (pre & post & H). destruct pre as [| c pre].
        -- exfalso. cbn in H.
           assert (Htrue : String.prefix needle (String b haystack) = true)
             by (apply string_prefix_spec; exists post; exact H).
           congruence.
        -- cbn in H. injection H as _ H.
           destruct (proj2 IH (ex_intro _ pre (ex_intro _ post H))) as [m Hm].
           rewrite Hm. eexists. reflexivity.
Qed.

(** [contains] decides whether the needle occurs in the haystack. *)
Lemma contains_spec (needle haystack : string) :
  contains needle haystack = true
  <-> exists pre post, haystack = pre ++ needle ++ post.
Proof.
  rewrite <- index_spec. unfold contains.
  destruct (String.index 0 needle haystack) as [n |].
  - split; [intros _; eexists; reflexivity | reflexivity].
  - split; [discriminate | intros [n H]; discriminate H].
Qed.

End SubstringFacts.

(** X18.  A bare assertion escaping from the test is recorded as a schema error,
    not as a check failure: the status is [error] and the error added to
    the result is [InvalidSchema] with the message "Invalid type name"
    when the formatted traceback contains the text
    [assert type_ in TYPE_STRINGS] somewhere, and with "Unknown schema
    error" when it does not; the text of the assertion itself is not
    kept. *)
Theorem run_test_turns_assertions_into_schema_errors :
  forall (endpoint : Endpoint) (explicit_seed : option Z)
         (body : list CheckFunction -> list Target -> TestResult ->
                 option Headers -> Feedback -> TestRun)
         (checks : list CheckFunction) (method : DataGenerationMethod)
         (targets : list Target) (headers : option Headers) (recursion_level : Z)
         (feedback : Feedback) (results : TestResultSet) (msg traceback : string),
    let invocation := body checks targets (new_TestResult endpoint headers method)
                        headers feedback in
    run_outcome invocation = Raised (AssertionError msg traceback) ->
    exists (result : TestResult) (schema_message : string),
      consume (run_test endpoint (TestFunction explicit_seed body) checks method targets
                 headers recursion_level feedback) results
      = ([BeforeExecution endpoint recursion_level;
          AfterExecution result error (run_output invocation) endpoint],
         results ++ [result], run_feedback invocation)
      /\ errors result
         = errors (run_result invocation) ++ [(InvalidSchema schema_message, None)]
      /\ (schema_message = "Invalid type name"%string
          <-> exists pre post,
                traceback = (pre ++ "assert type_ in TYPE_STRINGS" ++ post)%string)
      /\ (schema_message = "Unknown schema error"%string
          <-> ~ exists pre post,
                  traceback = (pre ++ "assert type_ in TYPE_STRINGS" ++ post)%string).
Proof.
  intros endpoint explicit_seed body checks method targets headers recursion_level
    feedback results msg traceback invocation Hraised.
  unfold run_test. cbv zeta. fold invocation. rewrite Hraised.
  cbn [handle]. unfold reraise. cbv zeta.
  pose proof (contains_spec "assert type_ in TYPE_STRINGS" traceback) as Hspec.
  destruct (contains "assert type_ in TYPE_STRINGS" traceback).
  - do 2 eexists. split; [reflexivity |]. split; [reflexivity |]. split.
    + split; [intros _; apply Hspec; reflexivity | reflexivity].
    + split; [discriminate |]. intros H. exfalso. apply H, Hspec. reflexivity.
  - do 2 eexists. split; [reflexivity |]. split; [reflexivity |]. split.
    + split; [discriminate |]. intros H. apply Hspec in H. discriminate H.
    + split; [| reflexivity]. intros _ H. apply Hspec in H. discriminate H.
Qed.

Lemma run_test_turns_assertions_into_schema_errors_witness :
  exists (result : TestResult) (schema_message : string),
    consume (run_test Samples.users MoreSamples.asserting_test [] positive [] None 0
               (new_Feedback None Samples.users)) []
    = ([BeforeExecution Samples.users 0; AfterExecution result error [] Samples.users],
       [result], new_Feedback None Samples.users)
    /\ errors result = [(InvalidSchema schema_message, None)]
    /\ schema_message = "Invalid type name"%string.
Proof.
  destruct (@run_test_turns_assertions_into_schema_errors Samples.users (Some 0%Z)
              (fun _ _ result _ feedback =>
                 {| run_result := result; run_feedback := feedback; run_output := [];
                    run_generated_seed := Some 11%Z;
                    run_outcome :=
                      Raised (AssertionError EmptyString
                                "File canonicalise.py: assert type_ in TYPE_STRINGS, type_") |})
              [] positive [] None 0%Z (new_Feedback None Samples.users) []
              EmptyString
              "File canonicalise.py: assert type_ in TYPE_STRINGS, type_"%string
              eq_refl)
    as (result & schema_message & Hrun & Herrors & Hname & _).
  exists result, schema_message. split; [exact Hrun |]. split; [exact Herrors |].
  apply Hname. exists "File canonicalise.py: "%string, ", type_"%string. reflexivity.
Defined.

(* ===================================================================== *)
(** ** Scheduler and run controller: further properties *)
(* ===================================================================== *)

Section StreamFacts.

Lemma Blocks_app (a b : list ExecutionEvent) :
  Blocks a -> Blocks b -> Blocks (a ++ b).
Proof.
  induction 1; intros Hb; cbn [app]; [exact Hb | |]; constructor; auto.
Qed.

Lemma after_results_app (a b : list ExecutionEvent) :
  after_results (a ++ b) = after_results a ++ after_results b.
Proof. unfold after_results. apply flat_map_app. Qed.

Lemma after_results_length (events : list ExecutionEvent) :
  List.length (after_results events) = count is_AfterExecution events.
Proof.
  unfold after_results, count.
  induction events as [| event rest IH]; [reflexivity |].
  cbn [flat_map filter]. rewrite length_app, IH.
  destruct event; reflexivity.
Qed.

Lemma Blocks_counts (events : list ExecutionEvent) :
  Blocks events ->
  count is_BeforeExecution events
  = (count is_AfterExecution events + count is_Interrupted events)%nat.
Proof.
  unfold count. induction 1; cbn in *; lia.
Qed.

Lemma Blocks_kinds (events : list ExecutionEvent) :
  Blocks events ->
  Forall (fun event => is_Initialized event = false /\ is_Finished event = false) events.
Proof.
  induction 1; repeat constructor; assumption.
Qed.

Lemma forwarded_prefix (exit_first : bool)
    (steps : list (ExecutionEvent * TestResultSet)) (final : TestResultSet) :
  prefix (fst (forwarded exit_first steps final)) (map fst steps).
Proof.
  unfold prefix. induction steps as [| [event results] steps IH]; cbn [forwarded map fst].
  - exists []. reflexivity.
  - destruct (should_stop exit_first event).
    + eexists. reflexivity.
    + destruct (forwarded exit_first steps final) as [events final'].
      destruct IH as [rest IH]. cbn [fst] in *. exists rest. rewrite IH. reflexivity.
Qed.

Lemma forwarded_results (exit_first : bool)
    (steps : list (ExecutionEvent * TestResultSet)) (final : TestResultSet) :
  Forall (fun step => prefix (snd step) final) steps ->
  prefix (snd (forwarded exit_first steps final)) final.
Proof.
  induction 1 as [| [event results] steps Hstep _ IH]; cbn [forwarded].
  - exists []. symmetry. apply app_nil_r.
  - destruct (should_stop exit_first event); [exact Hstep |].
    destruct (forwarded exit_first steps final) as [events final']. exact IH.
Qed.

Lemma forwarded_never_stops (exit_first : bool)
    (steps : list (ExecutionEvent * TestResultSet)) (final : TestResultSet) :
  Forall (fun event => should_stop exit_first event = false)
    (fst (forwarded exit_first steps final)).
Proof.
  induction steps as [| [event results] steps IH]; cbn [forwarded]; [constructor |].
  destruct (should_stop exit_first event) eqn:Hstop; [constructor |].
  destruct (forwarded exit_first steps final) as [events final'].
  constructor; assumption.
Qed.

Lemma forwarded_without_stop (exit_first : bool)
    (steps : list (ExecutionEvent * TestResultSet)) (final : TestResultSet) :
  Forall (fun event => should_stop exit_first event = false) (map fst steps) ->
  forwarded exit_first steps final = (map fst steps, final).
Proof.
  induction steps as [| [event results] steps IH]; cbn [forwarded map fst];
    [reflexivity |].
  intros H. inversion H as [| ? ? Hevent Hrest]. subst.
  rewrite Hevent, (IH Hrest). reflexivity.
Qed.

(** The results only grow along a trace. *)
Lemma trace_grows (A : Type) (g : Gen A) :
  forall results,
    prefix results (snd (trace g results))
    /\ Forall (fun step => prefix results (snd step)
                           /\ prefix (snd step) (snd (trace g results)))
         (fst (trace g results)).
Proof.
  unfold prefix.
  induction g as [a | event rest IH | k IH | r rest IH]; intros results; cbn [trace].
  - split; [exists []; symmetry; apply app_nil_r | constructor].
  - specialize (IH results). destruct (trace rest results) as [steps final].
    cbn [fst snd] in *. destruct IH as [Hfinal Hsteps].
    split; [exact Hfinal |]. constructor; [| exact Hsteps].
    cbn [snd]. split; [exists []; symmetry; apply app_nil_r | exact Hfinal].
  - apply IH.
  - specialize (IH (results ++ [r])).
    destruct (trace rest (results ++ [r])) as [steps final].
    cbn [fst snd] in *. destruct IH as [[b Hfinal] Hsteps]. split.
    + exists ([r] ++ b). rewrite Hfinal, <- app_assoc. reflexivity.
    + eapply Forall_impl; [| exact Hsteps].
      intros step [[a Ha] Hb]. split; [| exact Hb].
      exists ([r] ++ a). rewrite Ha, <- app_assoc. reflexivity.
Qed.

End StreamFacts.

Section MoreSchedulerFacts.

Variable stateful : option string.
Variable stateful_recursion_limit : Z.
Variable checks : list CheckFunction.
Variable targets : list Target.
Variable headers : option Headers.
Variable get_stateful_tests : Feedback -> list Triple.

Local Open Scope Z_scope.

(** The events of a test that is not interrupted, with the feedback it
    leaves. *)
Lemma forward_run_test_completed (endpoint : Endpoint) (method : DataGenerationMethod)
    (test : Test) (recursion_level : Z) :
  interrupts stateful checks targets headers (endpoint, method, test) = false ->
  exists result status output,
    forward_test
      (run_test endpoint test checks method targets headers recursion_level
         (new_Feedback stateful endpoint))
    = Yield (BeforeExecution endpoint recursion_level)
        (Append result
           (Yield (AfterExecution result status output endpoint)
              (Return (Some (feedback_after stateful checks targets headers
                               (endpoint, method, test)))))).
Proof.
  unfold interrupts, feedback_after, run_test. destruct test as [msg | seed body].
  - intros _. cbn. do 3 eexists. reflexivity.
  - cbv zeta.
    destruct (run_outcome (body checks targets
                             (new_TestResult endpoint headers method) headers
                             (new_Feedback stateful endpoint))) as [| exc].
    + intros _. cbn. do 3 eexists. reflexivity.
    + destruct exc; intros H; try discriminate H; cbn; do 3 eexists; reflexivity.
Qed.

(** What the loop of the scheduler produces whenever its recursive calls
    produce it: blocks of events, and results that grow by the results the
    [AfterExecution] events carry. *)
Lemma each_test_summary (recurse : Feedback -> Gen unit) (recursion_level : Z) :
  (forall feedback results,
      Blocks (fst (fst (consume (recurse feedback) results)))
      /\ snd (fst (consume (recurse feedback) results))
         = results ++ after_results (fst (fst (consume (recurse feedback) results)))) ->
  forall tests results,
    let out := consume (for_each_test stateful checks targets headers recurse
                          recursion_level tests) results in
    Blocks (fst (fst out))
    /\ snd (fst out) = results ++ after_results (fst (fst out)).
Proof.
  intros Hrec. induction tests as [| [[endpoint method] test] rest IH]; intros results.
  - cbn. split; [constructor | symmetry; apply app_nil_r].
  - cbv zeta. cbn [for_each_test].
    pose proof (forward_run_test stateful checks targets headers endpoint method test
                  recursion_level) as Hshape.
    cbv zeta in Hshape.
    destruct (interrupts stateful checks targets headers (endpoint, method, test)).
    + rewrite Hshape. cbn. split; [repeat constructor | symmetry; apply app_nil_r].
    + destruct Hshape as (result & status & output & feedback & Hshape).
      rewrite Hshape. cbn [bind consume]. rewrite !consume_bind.
      destruct (Hrec feedback (results ++ [result])) as [Hb0 Hr0].
      destruct (consume (recurse feedback) (results ++ [result])) as [[e0 r0] u0].
      specialize (IH r0). cbv zeta in IH. destruct IH as [Hb1 Hr1].
      destruct (consume (for_each_test stateful checks targets headers recurse
                           recursion_level rest) r0) as [[e1 r1] u1].
      cbn [fst snd] in *. split.
      * constructor. apply Blocks_app; assumption.
      * rewrite Hr1, Hr0. unfold after_results. cbn [flat_map].
        fold (after_results (e0 ++ e1)). rewrite after_results_app.
        rewrite <- !app_assoc. reflexivity.
Qed.

Lemma run_tests_summary (maker : list Triple) (recursion_level : Z)
    (results : TestResultSet) :
  let out := consume (_run_tests stateful stateful_recursion_limit checks targets
                        headers get_stateful_tests maker recursion_level) results in
  Blocks (fst (fst out))
  /\ snd (fst out) = results ++ after_results (fst (fst out)).
Proof.
  unfold _run_tests.
  generalize (Z.to_nat (stateful_recursion_limit + 1 - recursion_level)).
  intros levels_left. revert maker recursion_level results.
  induction levels_left as [| levels_left IH]; intros maker recursion_level results;
    cbn [_run_tests_from];
    destruct (recursion_level >? stateful_recursion_limit);
    try (cbn; split; [constructor | symmetry; apply app_nil_r]).
  apply each_test_summary. intros feedback results'. apply IH.
Qed.

End MoreSchedulerFacts.

(** X19.  The events of the scheduler come in single-test blocks: every
    [BeforeExecution] is directly followed by the [AfterExecution] of the
    same endpoint or by [Interrupted], and nothing else is yielded (no
    [Initialized], no [Finished]).  So there are as many [BeforeExecution]
    events as [AfterExecution] and [Interrupted] events together. *)
Theorem _run_tests_yields_single_test_blocks :
  forall (stateful : option string) (stateful_recursion_limit : Z)
         (checks : list CheckFunction) (targets : list Target)
         (headers : option Headers) (get_stateful_tests : Feedback -> list Triple)
         (maker : list Triple) (recursion_level : Z) (results : TestResultSet),
    let events := fst (fst (consume (_run_tests stateful stateful_recursion_limit checks
                                       targets headers get_stateful_tests maker
                                       recursion_level) results)) in
    Blocks events
    /\ count is_BeforeExecution events
       = (count is_AfterExecution events + count is_Interrupted events)%nat
    /\ count is_Initialized events = 0%nat
    /\ count is_Finished events = 0%nat.
Proof.
  intros stateful limit checks targets headers get_stateful_tests maker recursion_level
    results events.
  destruct (run_tests_summary stateful limit checks targets headers get_stateful_tests
              maker recursion_level results) as [Hblocks _].
  fold events in Hblocks. split; [exact Hblocks |].
  split; [apply Blocks_counts; exact Hblocks |].
  apply Blocks_kinds in Hblocks. unfold count.
  clear -Hblocks. induction Hblocks as [| event rest [Hi Hf] _ [IHi IHf]];
    [split; reflexivity |].
  cbn [filter]. rewrite Hi, Hf. split; assumption.
Qed.

(** X20.  The scheduler only appends to the result set, and what it appends is
    exactly the results its [AfterExecution] events carry, in the order of
    the events: one result per [AfterExecution], none for an interrupted
    test. *)
Theorem _run_tests_appends_the_reported_results :
  forall (stateful : option string) (stateful_recursion_limit : Z)
         (checks : list CheckFunction) (targets : list Target)
         (headers : option Headers) (get_stateful_tests : Feedback -> list Triple)
         (maker : list Triple) (recursion_level : Z) (results : TestResultSet),
    let out := consume (_run_tests stateful stateful_recursion_limit checks targets
                          headers get_stateful_tests maker recursion_level) results in
    snd (fst out) = results ++ after_results (fst (fst out))
    /\ List.length (snd (fst out))
       = (List.length results + count is_AfterExecution (fst (fst out)))%nat.
Proof.
  intros stateful limit checks targets headers get_stateful_tests maker recursion_level
    results out.
  destruct (run_tests_summary stateful limit checks targets headers get_stateful_tests
              maker recursion_level results) as [_ Hresults].
  fold out in Hresults. split; [exact Hresults |].
  rewrite Hresults at 1. rewrite length_app, after_results_length. reflexivity.
Qed.

(** X21.  The scheduler works through its maker in order: as long as no test of
    the first part is interrupted at the level of the call, running a
    maker that continues with a second part yields the events of the first
    part and then those of the second, run on the results the first part
    left. *)
Theorem _run_tests_splits_over_its_maker :
  forall (stateful : option string) (stateful_recursion_limit : Z)
         (checks : list CheckFunction) (targets : list Target)
         (headers : option Headers) (get_stateful_tests : Feedback -> list Triple)
         (pre post : list Triple) (recursion_level : Z) (results : TestResultSet),
    Forall (fun triple => interrupts stateful checks targets headers triple = false) pre ->
    let first := consume (_run_tests stateful stateful_recursion_limit checks targets
                            headers get_stateful_tests pre recursion_level) results in
    let second := consume (_run_tests stateful stateful_recursion_limit checks targets
                             headers get_stateful_tests post recursion_level)
                    (snd (fst first)) in
    consume (_run_tests stateful stateful_recursion_limit checks targets headers
               get_stateful_tests (pre ++ post) recursion_level) results
    = (fst (fst first) ++ fst (fst second), snd (fst second), tt).
Proof.
  intros stateful limit checks targets headers get_stateful_tests pre post
    recursion_level results Hpre first second.
  subst first second. rewrite !_run_tests_unfold.
  destruct (recursion_level >? limit)%Z; [reflexivity |].
  rewrite each_test_app by exact Hpre.
  destruct (consume (for_each_test stateful checks targets headers _ recursion_level pre)
              results) as [[e1 r1] u1].
  cbn [fst snd].
  destruct (consume (for_each_test stateful checks targets headers _ recursion_level post)
              r1) as [[e2 r2] []].
  reflexivity.
Qed.

Lemma _run_tests_splits_over_its_maker_witness :
  map (fun event => match event with
                    | BeforeExecution endpoint _ => verbose_name endpoint
                    | _ => EmptyString
                    end)
    (fst (fst (consume (_run_tests (Some "links") 5 [] [] None Samples.no_links
                          ([(Samples.users, positive, Samples.passing_test)]
                           ++ [(Samples.orders, positive, Samples.failing_test)]) 0) [])))
  = ["GET /users"; EmptyString; "GET /orders"; EmptyString].
Proof.
  assert (Hpre : Forall (fun triple => interrupts (Some "links") [] [] None triple = false)
                   [(Samples.users, positive, Samples.passing_test)])
    by (repeat constructor).
  pose proof (@_run_tests_splits_over_its_maker (Some "links") 5 [] [] None
                Samples.no_links [(Samples.users, positive, Samples.passing_test)]
                [(Samples.orders, positive, Samples.failing_test)] 0%Z [] Hpre) as Hsplit.
  cbv zeta in Hsplit.
  exact (f_equal (fun out : list ExecutionEvent * TestResultSet * unit =>
                    map (fun event => match event with
                                      | BeforeExecution endpoint _ => verbose_name endpoint
                                      | _ => EmptyString
                                      end) (fst (fst out))) Hsplit).
Defined.

(** X22.  The tests derived from a test's feedback run right after it and one
    level deeper: below the limit, a test that is not interrupted yields
    its two events, then come the events of the scheduler called on the
    tests derived from the feedback the test left, and only then the rest
    of the maker, whatever the derived tests did. *)
Theorem _run_tests_runs_derived_tests_next :
  forall (stateful : option string) (stateful_recursion_limit : Z)
         (checks : list CheckFunction) (targets : list Target)
         (headers : option Headers) (get_stateful_tests : Feedback -> list Triple)
         (endpoint : Endpoint) (method : DataGenerationMethod) (test : Test)
         (rest : list Triple) (recursion_level : Z) (results : TestResultSet),
    (recursion_level <= stateful_recursion_limit)%Z ->
    interrupts stateful checks targets headers (endpoint, method, test) = false ->
    exists result status output,
      let derived :=
        consume (_run_tests stateful stateful_recursion_limit checks targets headers
                   get_stateful_tests
                   (get_stateful_tests
                      (feedback_after stateful checks targets headers
                         (endpoint, method, test)))
                   (recursion_level + 1)) (results ++ [result]) in
      let others :=
        consume (_run_tests stateful stateful_recursion_limit checks targets headers
                   get_stateful_tests rest recursion_level) (snd (fst derived)) in
      consume (_run_tests stateful stateful_recursion_limit checks targets headers
                 get_stateful_tests ((endpoint, method, test) :: rest) recursion_level)
        results
      = (BeforeExecution endpoint recursion_level
           :: AfterExecution result status output endpoint
           :: fst (fst derived) ++ fst (fst others),
         snd (fst others), tt).
Proof.
  intros stateful limit checks targets headers get_stateful_tests endpoint method test
    rest recursion_level results Hlevel Hrun.
  destruct (forward_run_test_completed stateful checks targets headers endpoint method
              test recursion_level Hrun) as (result & status & output & Hshape).
  exists result, status, output. cbv zeta.
  rewrite (_run_tests_unfold stateful limit checks targets headers get_stateful_tests
             ((endpoint, method, test) :: rest)).
  rewrite (_run_tests_unfold stateful limit checks targets headers get_stateful_tests
             rest recursion_level).
  replace (recursion_level >? limit)%Z with false
    by (pose proof (Zgt_cases recursion_level limit) as Hc;
        destruct (recursion_level >? limit)%Z; [lia | reflexivity]).
  cbn [for_each_test]. rewrite Hshape. cbn [bind consume]. rewrite !consume_bind.
  destruct (consume (_run_tests stateful limit checks targets headers get_stateful_tests
                       (get_stateful_tests
                          (feedback_after stateful checks targets headers
                             (endpoint, method, test)))
                       (recursion_level + 1)) (results ++ [result]))
    as [[e1 r1] u1].
  cbn [fst snd].
  destruct (consume (for_each_test stateful checks targets headers _ recursion_level rest)
              r1) as [[e2 r2] []].
  reflexivity.
Qed.

Lemma _run_tests_runs_derived_tests_next_witness :
  map (fun event => match event with
                    | BeforeExecution endpoint level => (verbose_name endpoint, level)
                    | _ => (EmptyString, 0%Z)
                    end)
    (fst (fst (consume (_run_tests (Some "links") 5 [] [] None Samples.interrupted_links
                          [(Samples.users, positive, Samples.passing_test);
                           (Samples.orders, positive, Samples.failing_test)] 0) [])))
  = [("GET /users", 0%Z); (EmptyString, 0%Z);
     ("GET /users", 1%Z); (EmptyString, 0%Z);
     ("GET /orders", 0%Z); (EmptyString, 0%Z)].
Proof.
  assert (Hlevel : (0 <= 5)%Z) by lia.
  destruct (@_run_tests_runs_derived_tests_next (Some "links") 5 [] [] None
              Samples.interrupted_links Samples.users positive Samples.passing_test
              [(Samples.orders, positive, Samples.failing_test)] 0%Z [] Hlevel eq_refl)
    as (result & status & output & Hrun).
  cbv zeta in Hrun. rewrite Hrun. reflexivity.
Defined.

Lemma count_app (p : ExecutionEvent -> bool) (a b : list ExecutionEvent) :
  count p (a ++ b) = (count p a + count p b)%nat.
Proof. unfold count. rewrite filter_app, length_app. reflexivity. Qed.

Lemma count_none (p : ExecutionEvent -> bool) (events : list ExecutionEvent) :
  Forall (fun event => p event = false) events -> count p events = 0%nat.
Proof.
  unfold count. induction 1 as [| event rest Hevent _ IH]; [reflexivity |].
  cbn [filter]. rewrite Hevent. exact IH.
Qed.

(** X23.  Whatever the policy, the stream of a run driven by the scheduler
    holds exactly one [Initialized] event, which comes first, and exactly
    one [Finished] event, which comes last; the [Finished] event carries
    the result set as the run leaves it. *)
Theorem run_has_one_Initialized_and_one_Finished :
  forall (stateful : option string) (stateful_recursion_limit : Z)
         (checks : list CheckFunction) (targets : list Target)
         (headers : option Headers) (get_stateful_tests : Feedback -> list Triple)
         (schema : string) (exit_first : bool) (maker : list Triple),
    let delegated := _execute stateful stateful_recursion_limit checks targets headers
                       get_stateful_tests maker in
    let stream := run schema exit_first delegated in
    (exists middle,
        stream = Initialized schema :: middle
                   ++ [Finished (snd (fst (consume (execute schema exit_first delegated)
                                             [])))])
    /\ count is_Initialized stream = 1%nat
    /\ count is_Finished stream = 1%nat.
Proof.
  intros stateful limit checks targets headers get_stateful_tests schema exit_first
    maker delegated stream.
  assert (Hshape : exists middle,
             consume (execute schema exit_first delegated) []
             = (Initialized schema :: middle
                  ++ [Finished (snd (fst (consume (execute schema exit_first delegated)
                                            [])))],
                snd (fst (consume (execute schema exit_first delegated) [])), tt)
             /\ prefix middle (fst (fst (consume delegated [])))).
  { unfold execute. cbn [consume]. rewrite consume_bind, consume_forward.
    pose proof (forwarded_prefix exit_first (fst (trace delegated []))
                  (snd (trace delegated []))) as Hprefix.
    destruct (forwarded exit_first _ _) as [events reported]. cbn [fst snd consume] in *.
    exists events. split; [reflexivity |].
    destruct (trace_consume delegated []) as [Hevents _]. rewrite <- Hevents.
    exact Hprefix. }
  destruct Hshape as (middle & Hrun & [rest Hprefix]).
  assert (Hstream : stream
                    = Initialized schema :: middle
                        ++ [Finished (snd (fst (consume (execute schema exit_first
                                                           delegated) [])))]).
  { subst stream. unfold run. rewrite Hrun at 1. reflexivity. }
  split; [exists middle; exact Hstream |].
  destruct (run_tests_summary stateful limit checks targets headers get_stateful_tests
              maker 0 []) as [Hblocks _].
  apply Blocks_kinds in Hblocks. fold (_execute stateful limit checks targets headers
                                         get_stateful_tests maker) in Hblocks.
  fold delegated in Hblocks. rewrite Hprefix in Hblocks.
  apply Forall_app in Hblocks. destruct Hblocks as [Hmiddle _].
  rewrite Hstream.
  change (Initialized schema :: middle ++ [Finished ?r])
    with ([Initialized schema] ++ middle ++ [Finished r]).
  rewrite !count_app.
  rewrite (count_none is_Initialized (events := middle)),
          (count_none is_Finished (events := middle)).
  - split; reflexivity.
  - eapply Forall_impl; [| exact Hmiddle]. intros event [_ H]. exact H.
  - eapply Forall_impl; [| exact Hmiddle]. intros event [H _]. exact H.
Qed.

(** X24.  Stop-on-first-failure only cuts the stream short.  For every delegated
    sequence and either policy, the events between [Initialized] and
    [Finished] are a beginning of the delegated events, unchanged and in
    order, and the result set the [Finished] event carries is a beginning
    of the result set the delegated sequence would build if it were run to
    its end. *)
Theorem execute_forwards_a_prefix_of_the_delegated_events :
  forall (schema : string) (exit_first : bool) (delegated : Gen unit),
    exists (middle : list ExecutionEvent) (reported : TestResultSet),
      run schema exit_first delegated
      = Initialized schema :: middle ++ [Finished reported]
      /\ prefix middle (fst (fst (consume delegated [])))
      /\ prefix reported (snd (fst (consume delegated [])))
      /\ (exit_first = false ->
          middle = fst (fst (consume delegated []))
          /\ reported = snd (fst (consume delegated []))).
Proof.
  intros schema exit_first delegated.
  pose proof (forwarded_prefix exit_first (fst (trace delegated []))
                (snd (trace delegated []))) as Hprefix.
  pose proof (@forwarded_results exit_first (fst (trace delegated []))
                (snd (trace delegated []))) as Hresults.
  pose proof (forwarded_all (fst (trace delegated [])) (snd (trace delegated [])))
    as Hall.
  destruct (trace_grows delegated []) as [_ Hgrows].
  destruct (trace_consume delegated []) as [Hevents Hfinal].
  rewrite run_spec.
  destruct (forwarded exit_first _ _) as [middle reported] eqn:Hforwarded.
  cbn [fst snd] in *.
  exists middle, reported. split; [reflexivity |].
  split; [rewrite <- Hevents; exact Hprefix |].
  split.
  - rewrite <- Hfinal. apply Hresults.
    eapply Forall_impl; [| exact Hgrows]. intros step [_ H]. exact H.
  - intros ->. rewrite Hall in Hforwarded. injection Hforwarded as <- <-.
    split; [exact Hevents | exact Hfinal].
Qed.

(** X25.  With stop-on-first-failure, every [AfterExecution] event of the
    stream has the status [success]: a failing or erroring one is never
    forwarded.  When the delegated sequence holds no failing or erroring
    [AfterExecution], the policy changes nothing: the stream is the one of
    a run without it. *)
Theorem exit_first_forwards_successes_only :
  forall (schema : string) (delegated : Gen unit),
    (forall result status output endpoint,
        In (AfterExecution result status output endpoint) (run schema true delegated) ->
        status = success)
    /\ (Forall (fun event => should_stop true event = false)
          (fst (fst (consume delegated []))) ->
        run schema true delegated = run schema false delegated).
Proof.
  intros schema delegated. split.
  - intros result status output endpoint Hin. rewrite run_spec in Hin.
    pose proof (forwarded_never_stops true (fst (trace delegated []))
                  (snd (trace delegated []))) as Hnever.
    destruct (forwarded true _ _) as [middle reported]. cbn [fst] in Hnever.
    destruct Hin as [Hin | Hin]; [discriminate Hin |].
    apply in_app_or in Hin. destruct Hin as [Hin | [Hin | []]]; [| discriminate Hin].
    rewrite Forall_forall in Hnever. specialize (Hnever _ Hin).
    destruct status; [reflexivity | discriminate Hnever | discriminate Hnever].
  - intros Hnone. rewrite !run_spec.
    destruct (trace_consume delegated []) as [Hevents _].
    rewrite <- Hevents in Hnone.
    rewrite forwarded_without_stop by exact Hnone. rewrite forwarded_all.
    reflexivity.
Qed.

Lemma exit_first_forwards_successes_only_witness :
  run "api" true
    (_execute (Some "links") 5 [] [] None Samples.no_links
       [(Samples.users, positive, Samples.passing_test)])
  = run "api" false
      (_execute (Some "links") 5 [] [] None Samples.no_links
         [(Samples.users, positive, Samples.passing_test)]).
Proof.
  apply (proj2 (@exit_first_forwards_successes_only "api"%string
                  (_execute (Some "links") 5 [] [] None Samples.no_links
                     [(Samples.users, positive, Samples.passing_test)]))).
  repeat constructor.
Defined.
